(** * Noise: level meter, exposure classifier and exposure aggregator

    A shallow embedding of the measurement core of the sound-level meter:
    - [AudioProcessor] (RMS, decibel conversion, calibration, rate gate),
    - [NoiseClassifier] (zone table, [classify], safe exposure time, dose,
      time-weighted average, health dashboard),
    - the premium and history statistics ([calculatePercentile],
      [calculateTimeWeightedExposure]).

    JavaScript numbers are modelled by [JS.number]: the three IEEE special
    values next to the finite values, the finite values being real numbers
    with exact arithmetic.  Rounding error, overflow of finite values and the
    sign of zero are idealised away; everything else (NaN propagation, the
    infinities, comparisons with NaN being false, truthiness of numbers)
    follows the language.  Where a branch or a whole number that is shown
    depends on the rounding, the operations are rounded to binary64
    ([JS.to_double]): in the index of the history percentile and in the
    completeness of a session.  Where the machine's value comes from
    functions that are not specified bit by bit, its deviation from the
    exact value is a parameter ([getRealTimeHealthFeedback]). *)

From Stdlib Require Import Reals Lra Lia ZArith List Bool String Zfloor.
From Stdlib Require Import Sorted Permutation.
Import ListNotations.

Open Scope R_scope.

(* ================================================================== *)
(** ** JavaScript numbers *)
(* ================================================================== *)

Module JS.

Inductive number : Type :=
| NaN
| NegInf
| PosInf
| Fin (r : R).

Definition R_ltb (x y : R) : bool := if Rlt_dec x y then true else false.
Definition R_leb (x y : R) : bool := if Rle_dec x y then true else false.
Definition R_eqb (x y : R) : bool := if Req_dec_T x y then true else false.

(** [a < b], [a <= b], [a >= b], [a > b], [a === b]: false as soon as one
    side is NaN. *)
Definition ltb (a b : number) : bool :=
  match a, b with
  | NaN, _ | _, NaN => false
  | _, NegInf => false
  | NegInf, _ => true
  | PosInf, _ => false
  | Fin _, PosInf => true
  | Fin x, Fin y => R_ltb x y
  end.

Definition leb (a b : number) : bool :=
  match a, b with
  | NaN, _ | _, NaN => false
  | NegInf, _ => true
  | _, PosInf => true
  | _, NegInf => false
  | PosInf, _ => false
  | Fin x, Fin y => R_leb x y
  end.

Definition gtb (a b : number) : bool := ltb b a.
Definition geb (a b : number) : bool := leb b a.

Definition eqb (a b : number) : bool :=
  match a, b with
  | NegInf, NegInf | PosInf, PosInf => true
  | Fin x, Fin y => R_eqb x y
  | _, _ => false
  end.

Definition neg (a : number) : number :=
  match a with
  | NaN => NaN
  | NegInf => PosInf
  | PosInf => NegInf
  | Fin x => Fin (- x)
  end.

Definition add (a b : number) : number :=
  match a, b with
  | NaN, _ | _, NaN => NaN
  | PosInf, NegInf | NegInf, PosInf => NaN
  | PosInf, _ | _, PosInf => PosInf
  | NegInf, _ | _, NegInf => NegInf
  | Fin x, Fin y => Fin (x + y)
  end.

Definition sub (a b : number) : number := add a (neg b).

(** An infinity scaled by a finite factor: the sign of the factor decides,
    and a zero factor gives NaN. *)
Definition scale_inf (positive : bool) (x : R) : number :=
  if R_eqb x 0 then NaN
  else if Bool.eqb positive (R_ltb 0 x) then PosInf else NegInf.

Definition mul (a b : number) : number :=
  match a, b with
  | NaN, _ | _, NaN => NaN
  | PosInf, PosInf | NegInf, NegInf => PosInf
  | PosInf, NegInf | NegInf, PosInf => NegInf
  | PosInf, Fin x | Fin x, PosInf => scale_inf true x
  | NegInf, Fin x | Fin x, NegInf => scale_inf false x
  | Fin x, Fin y => Fin (x * y)
  end.

(** Division; a zero divisor is the positive zero. *)
Definition div (a b : number) : number :=
  match a, b with
  | NaN, _ | _, NaN => NaN
  | (PosInf | NegInf), (PosInf | NegInf) => NaN
  | PosInf, Fin y => if R_ltb y 0 then NegInf else PosInf
  | NegInf, Fin y => if R_ltb y 0 then PosInf else NegInf
  | Fin _, (PosInf | NegInf) => Fin 0
  | Fin x, Fin y =>
      if R_eqb y 0
      then (if R_eqb x 0 then NaN else if R_ltb 0 x then PosInf else NegInf)
      else Fin (x / y)
  end.

(** Truthiness of a number: [0] and [NaN] are falsy. *)
Definition truthy (a : number) : bool :=
  match a with
  | NaN => false
  | Fin x => negb (R_eqb x 0)
  | _ => true
  end.

(** [a || b] on numbers. *)
Definition or_else (a b : number) : number := if truthy a then a else b.

(** [Math.max(a, b)] and [Math.min(a, b)]. *)
Definition Math_max (a b : number) : number :=
  match a, b with
  | NaN, _ | _, NaN => NaN
  | _, _ => if leb a b then b else a
  end.

Definition Math_min (a b : number) : number :=
  match a, b with
  | NaN, _ | _, NaN => NaN
  | _, _ => if leb a b then a else b
  end.

Definition Math_sqrt (a : number) : number :=
  match a with
  | NaN | NegInf => NaN
  | PosInf => PosInf
  | Fin x => if R_ltb x 0 then NaN else Fin (sqrt x)
  end.

Definition log10 (x : R) : R := ln x / ln 10.

Definition Math_log10 (a : number) : number :=
  match a with
  | NaN | NegInf => NaN
  | PosInf => PosInf
  | Fin x =>
      if R_ltb x 0 then NaN
      else if R_eqb x 0 then NegInf
      else Fin (log10 x)
  end.

(** [Math.pow(10, e)], the only use of [Math.pow] in the program. *)
Definition Math_pow10 (e : number) : number :=
  match e with
  | NaN => NaN
  | NegInf => Fin 0
  | PosInf => PosInf
  | Fin x => Fin (Rpower 10 x)
  end.

Definition Math_floor (a : number) : number :=
  match a with Fin x => Fin (IZR (Zfloor x)) | _ => a end.

Definition Math_ceil (a : number) : number :=
  match a with Fin x => Fin (IZR (Zceil x)) | _ => a end.

(** [Math.round]: the nearest integer, ties towards positive infinity. *)
Definition Math_round (a : number) : number :=
  match a with Fin x => Fin (IZR (Zfloor (x + / 2))) | _ => a end.

(** [Number.isInteger]. *)
Definition isInteger (a : number) : bool :=
  match a with Fin x => R_eqb x (IZR (Zfloor x)) | _ => false end.

(** The length of an array as a number. *)
Definition of_nat (n : nat) : number := Fin (INR n).

(** [arr[i]] for a numeric index: [None] is [undefined]. *)
Definition index {A : Type} (arr : list A) (i : number) : option A :=
  match i with
  | Fin x =>
      if R_eqb x (IZR (Zfloor x)) && R_leb 0 x
      then nth_error arr (Z.to_nat (Zfloor x))
      else None
  | _ => None
  end.

(** An array element used in arithmetic: [undefined] converts to NaN. *)
Definition to_number (v : option number) : number :=
  match v with Some a => a | None => NaN end.

(** [Math.abs]. *)
Definition Math_abs (a : number) : number :=
  match a with
  | NaN => NaN
  | NegInf | PosInf => PosInf
  | Fin x => Fin (Rabs x)
  end.

(** [Math.pow(x, 2)]. *)
Definition Math_pow2 (a : number) : number :=
  match a with
  | NaN => NaN
  | NegInf | PosInf => PosInf
  | Fin x => Fin (x * x)
  end.

(** [xs.reduce((a, b) => a + b, 0)]. *)
Definition sum_numbers (xs : list number) : number :=
  fold_left add xs (Fin 0).

(** *** Binary64

    Where a branch or a whole number depends on it, the rounding of an
    arithmetic operation to the nearest binary64 number is modelled:
    [to_double] rounds a real number to the nearest number with a 53-bit
    significand, ties to the even significand, with the fixed spacing
    [2^-1074] below [2^-1022].  Overflow to an infinity is not modelled. *)

(** The nearest integer, ties to the even one. *)
Definition round_half_even (y : R) : Z :=
  let f := Zfloor y in
  if R_ltb (y - IZR f) (/ 2) then f
  else if R_ltb (/ 2) (y - IZR f) then (f + 1)%Z
  else if Z.even f then f else (f + 1)%Z.

(** The binary exponent of [x]: the [e] with [2^e <= |x| < 2^(e+1)], and
    [-1022] for the subnormal numbers. *)
Definition exponent (x : R) : Z :=
  Z.max (Zfloor (ln (Rabs x) / ln 2)) (-1022).

Definition to_double (x : R) : R :=
  if R_eqb x 0 then 0
  else
    let ulp := powerRZ 2 (exponent x - 52) in
    IZR (round_half_even (x / ulp)) * ulp.

(** The result of an arithmetic operation, rounded. *)
Definition rounded (a : number) : number :=
  match a with Fin x => Fin (to_double x) | _ => a end.

(** [a / b] and [a * b] as the machine computes them. *)
Definition fdiv (a b : number) : number := rounded (div a b).
Definition fmul (a b : number) : number := rounded (mul a b).

End JS.

Import JS.

Coercion Fin : R >-> number.

(* ================================================================== *)
(** ** NoiseClassifier *)
(* ================================================================== *)

Module NoiseClassifier.

Local Open Scope string_scope.

(** The [range] tag of a classification. *)
Inductive zone : Type :=
| quiet | comfortable | moderate | loud | dangerous | emergency.

Definition zone_eqb (a b : zone) : bool :=
  match a, b with
  | quiet, quiet | comfortable, comfortable | moderate, moderate
  | loud, loud | dangerous, dangerous | emergency, emergency => true
  | _, _ => false
  end.

(** One entry of [this.classifications].  [hearingProtection] is [false]
    ([None]) or a text; [riskLevel] is [immediateHealth.riskLevel]; the
    remaining free-text fields of the source do not take part in any
    computation and are left out. *)
Record Classification : Type := {
  range : zone;
  minDb : number;
  maxDb : number;
  category : string;
  riskZone : string;
  riskLevel : string;
  safeTime : string;
  oshaCompliant : bool;
  hearingProtection : option string;
  emergencyLevel : bool
}.

Definition classifications : list Classification :=
  [ {| range := quiet; minDb := 0; maxDb := 40;
       category := "Quiet"; riskZone := "green"; riskLevel := "minimal";
       safeTime := "unlimited"; oshaCompliant := true;
       hearingProtection := None; emergencyLevel := false |};
    {| range := comfortable; minDb := 40; maxDb := 55;
       category := "Comfortable"; riskZone := "green"; riskLevel := "minimal";
       safeTime := "unlimited"; oshaCompliant := true;
       hearingProtection := None; emergencyLevel := false |};
    {| range := moderate; minDb := 55; maxDb := 70;
       category := "Moderate"; riskZone := "yellow"; riskLevel := "low";
       safeTime := "unlimited"; oshaCompliant := true;
       hearingProtection := None; emergencyLevel := false |};
    {| range := loud; minDb := 70; maxDb := 85;
       category := "Loud"; riskZone := "orange"; riskLevel := "moderate";
       safeTime := "8 hours (OSHA limit)"; oshaCompliant := true;
       hearingProtection := Some "recommended for extended exposure";
       emergencyLevel := false |};
    {| range := dangerous; minDb := 85; maxDb := 100;
       category := "Dangerous"; riskZone := "red"; riskLevel := "high";
       safeTime := "8 hours maximum with protection"; oshaCompliant := false;
       hearingProtection := Some "required"; emergencyLevel := false |};
    {| range := emergency; minDb := 100; maxDb := 140;
       category := "Emergency Level"; riskZone := "red"; riskLevel := "critical";
       safeTime := "15 minutes maximum"; oshaCompliant := false;
       hearingProtection := Some "maximum protection required";
       emergencyLevel := true |} ].

(** The result of [classify]: the entry spread into a new object, with
    [currentDb] added. *)
Record Classified : Type := {
  entry : Classification;
  currentDb : number
}.

(** The [for ... of] loop of [classify]: the first entry whose half-open
    range holds the level. *)
Fixpoint find_range (cs : list Classification) (dbLevel : number)
  : option Classification :=
  match cs with
  | [] => None
  | classification :: rest =>
      if geb dbLevel (minDb classification) && ltb dbLevel (maxDb classification)
      then Some classification
      else find_range rest dbLevel
  end.

Definition last_entry (cs : list Classification) : Classification :=
  last cs {| range := emergency; minDb := NaN; maxDb := NaN;
             category := ""; riskZone := ""; riskLevel := "";
             safeTime := ""; oshaCompliant := false;
             hearingProtection := None; emergencyLevel := false |}.

Definition classify (dbLevel : number) : Classified :=
  match find_range classifications dbLevel with
  | Some classification =>
      {| entry := classification; currentDb := Math_round dbLevel |}
  | None =>
      {| entry := last_entry classifications; currentDb := Math_round dbLevel |}
  end.

(** [getProgressColor]: a sibling threshold ladder of the same class. *)
Definition getProgressColor (dbLevel : number) : string :=
  if geb dbLevel 100 then "#991b1b"
  else if geb dbLevel 85 then "#dc2626"
  else if geb dbLevel 70 then "#f59e0b"
  else if geb dbLevel 55 then "#3b82f6"
  else "#22c55e".

(** [calculateSafeExposureTime]: permissible exposure in hours. *)
Definition calculateSafeExposureTime (dbLevel : number) : number :=
  if leb dbLevel 85 then 8
  else if leb dbLevel 90 then 8
  else if leb dbLevel 92 then 4
  else if leb dbLevel 95 then 2
  else if leb dbLevel 97 then 1
  else if leb dbLevel 100 then 25 / 100
  else if leb dbLevel 105 then 17 / 1000
  else 0.

(** [calculateExposureDose]. *)
Definition calculateExposureDose (timeWeightedAverage durationSeconds : number)
  : number :=
  let durationHours := div durationSeconds 3600 in
  let safeHours := calculateSafeExposureTime timeWeightedAverage in
  if eqb safeHours 0 then 100
  else Math_min 100 (mul (div durationHours safeHours) 100).

(** A measurement handed to the classifier.  A missing [duration] behaves
    like NaN: both are falsy. *)
Record Measurement : Type := {
  db : number;
  duration : number
}.

(** The body of the [forEach] of [calculateTimeWeightedAverage], on the pair
    (totalEnergyExposure, totalTime). *)
Definition twa_step (acc : number * number) (measurement : Measurement)
  : number * number :=
  let '(totalEnergyExposure, totalTime) := acc in
  let energy := Math_pow10 (div (db measurement) 10) in
  let time := or_else (duration measurement) 1 in
  (add totalEnergyExposure (mul energy time), add totalTime time).

Definition calculateTimeWeightedAverage (measurements : list Measurement)
  : number :=
  match measurements with
  | [] => 0
  | _ =>
      let '(totalEnergyExposure, totalTime) :=
        fold_left twa_step measurements (Fin 0, Fin 0) in
      if eqb totalTime 0 then 0
      else mul 10 (Math_log10 (div totalEnergyExposure totalTime))
  end.




(** [Math.max(...xs)]. *)
Definition Math_max_list (xs : list number) : number :=
  fold_left Math_max xs NegInf.








(** [getVisualIndicators]: the progress bar and the warning level (the
    status badge is a lookup of texts by risk level). *)
Record VisualIndicators : Type := {
  progress_percentage : number;
  progress_color : string;
  warning_show : bool;
  warning_severity : string;
  warning_animation : string
}.

Definition getVisualIndicators (dbLevel : number) : VisualIndicators :=
  {| progress_percentage := Math_min 100 (mul (div dbLevel 100) 100);
     progress_color := getProgressColor dbLevel;
     warning_show := geb dbLevel 70;
     warning_severity :=
       if geb dbLevel 100 then "critical"
       else if geb dbLevel 85 then "high" else "moderate";
     warning_animation :=
       if geb dbLevel 100 then "pulse"
       else if geb dbLevel 85 then "glow" else "none" |}.



(** [calculatePersonalRisk] and its message table. *)
Record PersonalRisk : Type := {
  risk_level : string;
  risk_score : number;
  risk_factors : list string;
  risk_message : string
}.

Definition getPersonalRiskMessage (level : string) : string :=
  if String.eqb level "minimal"
  then "Your noise exposure is well within healthy limits. Keep monitoring for awareness."
  else if String.eqb level "low"
  then "Generally safe exposure levels with minor areas for improvement."
  else if String.eqb level "moderate"
  then "Some concern with current exposure levels. Consider noise reduction strategies."
  else if String.eqb level "high"
  then "Significant health risk from noise exposure. Immediate action recommended."
  else "Assessment pending".

Definition calculatePersonalRisk (twa maxDb measurementCount : number)
  : PersonalRisk :=
  let riskScore := Fin 0 in
  let factors := @nil string in
  (* Time-weighted average risk *)
  let '(riskScore, factors) :=
    if geb twa 90
    then (add riskScore 40, (factors ++ ["High daily noise exposure"])%list)
    else if geb twa 85
    then (add riskScore 25, (factors ++ ["Moderate daily noise exposure"])%list)
    else (riskScore, factors) in
  (* Peak exposure risk *)
  let '(riskScore, factors) :=
    if geb maxDb 100
    then (add riskScore 30, (factors ++ ["Dangerous peak noise levels detected"])%list)
    else if geb maxDb 85
    then (add riskScore 15, (factors ++ ["Elevated peak noise levels"])%list)
    else (riskScore, factors) in
  (* Frequency of exposure *)
  let '(riskScore, factors) :=
    if geb measurementCount 10 && geb twa 75
    then (add riskScore 20, (factors ++ ["Frequent exposure to elevated noise"])%list)
    else (riskScore, factors) in
  let riskLevel :=
    if geb riskScore 60 then "high"
    else if geb riskScore 30 then "moderate"
    else if geb riskScore 15 then "low"
    else "minimal" in
  {| risk_level := riskLevel;
     risk_score := riskScore;
     risk_factors := factors;
     risk_message := getPersonalRiskMessage riskLevel |}.

(** [assessHealthGoals]. *)
Record Goal : Type := {
  goal_target : number;
  goal_current : number;
  goal_met : bool;
  goal_progress : option number       (* the quiet-time goal has none *)
}.

Record HealthGoals : Type := {
  dailyLimit : Goal;
  peakReduction : Goal;
  quietTime : Goal
}.

(** [Math.max(0, Math.min(100, (85 - x + 15) / 15 * 100))]. *)
Definition progress_towards_85 (x : number) : number :=
  Math_max 0 (Math_min 100 (mul (div (add (sub 85 x) 15) 15) 100)).

(** [measurements.filter(m => m.db <= 70).length / measurements.length]. *)
Definition quiet_share (measurements : list Measurement) : number :=
  div (of_nat (List.length (filter (fun m => leb (db m) 70) measurements)))
      (of_nat (List.length measurements)).

Definition assessHealthGoals (twa : number) (measurements : list Measurement)
  : HealthGoals :=
  let peak := Math_max_list (map db measurements) in
  {| dailyLimit :=
       {| goal_target := 85; goal_current := twa;
          goal_met := leb twa 85;
          goal_progress := Some (progress_towards_85 twa) |};
     peakReduction :=
       {| goal_target := 85; goal_current := peak;
          goal_met := leb peak 85;
          goal_progress := Some (progress_towards_85 peak) |};
     quietTime :=
       {| goal_target := 60;
          goal_current := mul (quiet_share measurements) 100;
          goal_met := geb (quiet_share measurements) (6 / 10);
          goal_progress := None |} |}.

(** [generateHealthAlerts]; [consistentExposure] is
    [patterns.consistentExposure]. *)
Record Alert : Type := {
  alert_type : string;
  alert_message : string;
  alert_action : string
}.

Definition generateHealthAlerts (twa maxDb : number) (consistentExposure : bool)
  : list Alert :=
  ((if geb twa 90
   then [{| alert_type := "critical";
            alert_message := "Daily noise exposure exceeds OSHA limits";
            alert_action := "Reduce exposure time or use hearing protection" |}]
   else [])
  ++ (if geb maxDb 100
      then [{| alert_type := "warning";
               alert_message := "Dangerous peak noise levels detected";
               alert_action := "Avoid or protect against high-intensity noise" |}]
      else [])
  ++ (if consistentExposure && geb twa 80
      then [{| alert_type := "info";
               alert_message := "Consistent elevated exposure detected";
               alert_action := "Consider environmental noise reduction" |}]
      else []))%list.

(** [calculateVariance]: the population variance. *)
Definition calculateVariance (values : list number) : number :=
  let mean := div (sum_numbers values) (of_nat (List.length values)) in
  let squaredDiffs := map (fun value => Math_pow2 (sub value mean)) values in
  div (sum_numbers squaredDiffs) (of_nat (List.length values)).

(** [isConsistentExposure]; [dailyAverages] is the list of the arrays held
    by the object, one per day. *)
Definition isConsistentExposure (dailyAverages : list (list number)) : bool :=
  let averages :=
    map (fun dbs => div (sum_numbers dbs) (of_nat (List.length dbs)))
        dailyAverages in
  if Nat.ltb (List.length averages) 3 then false
  else ltb (calculateVariance averages) 25.

(** [calculateTrend]. *)
Definition calculateTrend (measurements : list Measurement) : string :=
  if Nat.ltb (List.length measurements) 5 then "insufficient-data"
  else
    let recent :=
      map db (skipn (List.length measurements - 5) measurements) in
    let earlier := map db (firstn 5 measurements) in
    let recentAvg := div (sum_numbers recent) (of_nat (List.length recent)) in
    let earlierAvg := div (sum_numbers earlier) (of_nat (List.length earlier)) in
    let change := mul (div (sub recentAvg earlierAvg) earlierAvg) 100 in
    if ltb (Math_abs change) 5 then "stable"
    else if gtb change 0 then "increasing" else "decreasing".

End NoiseClassifier.

(* ================================================================== *)
(** ** AudioProcessor *)
(* ================================================================== *)

Module AudioProcessor.

Local Open Scope string_scope.

(** The analyser node is a resource of the platform; the processor only
    holds a reference to it, or [null]. *)
Inductive AnalyserNode : Type := analyserNode.

(** What [this.analyser.getByteTimeDomainData(this.timeDataArray)] does at
    one call: it throws, or it leaves the current sample frame in the
    array. *)
Inductive Sampling : Type :=
| SamplingThrows
| SampleFrame (timeData : list Byte.byte).

Record Processor : Type := {
  analyser : option AnalyserNode;
  isInitialized : bool;
  isActive : bool;
  isMeasuring : bool;
  calibrationOffset : number;
  referenceLevel : number;
  lastUpdateTime : number;
  updateInterval : number;
  currentDecibels : number
}.

(** A call either throws an [Error] with a message or returns. *)
Inductive Outcome (A : Type) : Type :=
| Thrown (message : string)
| Returned (a : A).
Arguments Thrown {A} message.
Arguments Returned {A} a.

Definition constructor : Processor :=
  {| analyser := None;
     isInitialized := false;
     isActive := false;
     isMeasuring := false;
     calibrationOffset := 0;
     referenceLevel := 94;
     lastUpdateTime := 0;
     updateInterval := 1000 / 60;
     currentDecibels := 0 |}.

Definition with_calibrationOffset (ap : Processor) (offset : number) : Processor :=
  {| analyser := analyser ap;
     isInitialized := isInitialized ap;
     isActive := isActive ap;
     isMeasuring := isMeasuring ap;
     calibrationOffset := offset;
     referenceLevel := referenceLevel ap;
     lastUpdateTime := lastUpdateTime ap;
     updateInterval := updateInterval ap;
     currentDecibels := currentDecibels ap |}.

Definition with_referenceLevel (ap : Processor) (level : number) : Processor :=
  {| analyser := analyser ap;
     isInitialized := isInitialized ap;
     isActive := isActive ap;
     isMeasuring := isMeasuring ap;
     calibrationOffset := calibrationOffset ap;
     referenceLevel := level;
     lastUpdateTime := lastUpdateTime ap;
     updateInterval := updateInterval ap;
     currentDecibels := currentDecibels ap |}.

Definition with_reading (ap : Processor) (decibels now : number) : Processor :=
  {| analyser := analyser ap;
     isInitialized := isInitialized ap;
     isActive := isActive ap;
     isMeasuring := isMeasuring ap;
     calibrationOffset := calibrationOffset ap;
     referenceLevel := referenceLevel ap;
     lastUpdateTime := now;
     updateInterval := updateInterval ap;
     currentDecibels := decibels |}.

Definition with_measuring (ap : Processor) (measuring active : bool) : Processor :=
  {| analyser := analyser ap;
     isInitialized := isInitialized ap;
     isActive := active;
     isMeasuring := measuring;
     calibrationOffset := calibrationOffset ap;
     referenceLevel := referenceLevel ap;
     lastUpdateTime := lastUpdateTime ap;
     updateInterval := updateInterval ap;
     currentDecibels := currentDecibels ap |}.

(** [loadCalibration]: [stored] is what [parseFloat] made of the stored
    text, [None] when nothing is stored. *)
Definition loadCalibration (ap : Processor) (stored : option number) : Processor :=
  match stored with
  | Some parsed => with_calibrationOffset ap (or_else parsed 0)
  | None => ap
  end.

(** [initialize] when the platform grants the audio resources. *)
Definition initialize (ap : Processor) (stored : option number) : Processor :=
  let ap := loadCalibration ap stored in
  {| analyser := Some analyserNode;
     isInitialized := true;
     isActive := isActive ap;
     isMeasuring := isMeasuring ap;
     calibrationOffset := calibrationOffset ap;
     referenceLevel := referenceLevel ap;
     lastUpdateTime := lastUpdateTime ap;
     updateInterval := updateInterval ap;
     currentDecibels := currentDecibels ap |}.

Definition stopMeasuring (ap : Processor) : Processor :=
  with_measuring ap false (isActive ap).

Definition startMeasuring (ap : Processor) : Outcome Processor :=
  if negb (isInitialized ap)
  then Thrown "AudioProcessor not initialized. Call initialize() first."
  else
    let ap := if isMeasuring ap then stopMeasuring ap else ap in
    Returned (with_measuring ap true true).

Definition setCalibrationOffset (ap : Processor) (offset : number) : Processor :=
  with_calibrationOffset ap offset.

Definition resetCalibration (ap : Processor) : Processor :=
  with_calibrationOffset ap 0.

(** A [Uint8Array] element as a number. *)
Definition sample_value (b : Byte.byte) : number :=
  Fin (IZR (Z.of_N (Byte.to_N b))).

(** The body of the loop of [calculateRMS]. *)
Definition rms_step (sum : number) (b : Byte.byte) : number :=
  let amplitude := div (sub (sample_value b) 128) 128 in
  add sum (mul amplitude amplitude).

Definition calculateRMS (timeData : list Byte.byte) : number :=
  let sum := fold_left rms_step timeData (Fin 0) in
  Math_sqrt (div sum (of_nat (List.length timeData))).

Definition convertRMSToDecibels (rms : number) : number :=
  if leb rms 0 then NegInf
  else
    let db := mul 20 (Math_log10 rms) in
    add db 94.

(** [Math.max(20, Math.min(140, db))]. *)
Definition clamp (db : number) : number := Math_max 20 (Math_min 140 db).

(** [getCurrentDecibels]: [now] is [performance.now()], [sampling] what the
    analyser does if it is asked.  Returns the value and the processor
    afterwards. *)
Definition getCurrentDecibels (ap : Processor) (now : number) (sampling : Sampling)
  : number * Processor :=
  if negb (isInitialized ap) || negb (isMeasuring ap)
     || match analyser ap with None => true | Some _ => false end
  then (Fin 0, ap)
  else if ltb (sub now (lastUpdateTime ap)) (updateInterval ap)
  then (currentDecibels ap, ap)
  else
    match sampling with
    | SamplingThrows => (or_else (currentDecibels ap) 0, ap)
    | SampleFrame timeData =>
        let rms := calculateRMS timeData in
        let db := convertRMSToDecibels rms in
        let db := add db (calibrationOffset ap) in
        let db := clamp db in
        (db, with_reading ap db now)
    end.

(** [calibrate(referenceLevel)]; returns the new offset and the processor
    afterwards. *)
Definition calibrate (ap : Processor) (level : number)
    (now : number) (sampling : Sampling) : Outcome (number * Processor) :=
  if negb (isInitialized ap) || negb (isMeasuring ap)
  then Thrown "Cannot calibrate: AudioProcessor not initialized or not measuring"
  else
    let originalOffset := calibrationOffset ap in
    let ap := with_calibrationOffset ap 0 in
    let '(currentReading, ap) := getCurrentDecibels ap now sampling in
    let newOffset := sub level currentReading in
    let ap := with_calibrationOffset ap (add originalOffset newOffset) in
    let ap := with_referenceLevel ap level in
    Returned (calibrationOffset ap, ap).

(** [cleanup] when no node throws on release: every resource is dropped
    and the state is reset.  The calibration is kept. *)
Definition cleanup (ap : Processor) : Processor :=
  {| analyser := None;
     isInitialized := false;
     isActive := false;
     isMeasuring := false;
     calibrationOffset := calibrationOffset ap;
     referenceLevel := referenceLevel ap;
     lastUpdateTime := lastUpdateTime ap;
     updateInterval := updateInterval ap;
     currentDecibels := 0 |}.

(** [stop]. *)
Definition stop (ap : Processor) : Processor := cleanup (stopMeasuring ap).

(** [getCurrentDb], the legacy name. *)
Definition getCurrentDb (ap : Processor) (now : number) (sampling : Sampling)
  : number * Processor :=
  getCurrentDecibels ap now sampling.

End AudioProcessor.

(* ================================================================== *)
(** ** Calibrator *)
(* ================================================================== *)

Module Calibrator.

Definition calculateCalibrationOffset (measuredDb actualDb : number) : number :=
  sub actualDb measuredDb.

End Calibrator.

(* ================================================================== *)
(** ** Sorting with a comparator *)
(* ================================================================== *)

(** [arr.sort(cmp)] as a stable insertion sort: an element moves behind the
    next one exactly when the comparator is positive.  For a comparator
    that is a consistent order this is the result of every stable sort. *)
Fixpoint insert_by (cmp : number -> number -> number) (x : number)
    (sorted : list number) : list number :=
  match sorted with
  | [] => [x]
  | y :: rest =>
      if gtb (cmp x y) 0 then y :: insert_by cmp x rest else x :: y :: rest
  end.

Definition sort_by (cmp : number -> number -> number) (values : list number)
  : list number :=
  fold_right (insert_by cmp) [] values.

(** [(a, b) => a - b]. *)
Definition ascending (a b : number) : number := sub a b.

(* ================================================================== *)
(** ** PremiumFeatures *)
(* ================================================================== *)

Module PremiumFeatures.

Local Open Scope string_scope.

Record ExtendedMeasurement : Type := {
  timestamp : number;       (* milliseconds since the start *)
  db : number
}.

Definition calculatePercentile (values : list number) (percentile : number)
  : option number :=
  let sorted := sort_by ascending values in
  let index := mul (div percentile 100) (sub (of_nat (List.length sorted)) 1) in
  let lower := Math_floor index in
  let upper := Math_ceil index in
  if eqb lower upper then JS.index sorted lower
  else
    let weight := sub index lower in
    Some (add (mul (to_number (JS.index sorted lower)) (sub 1 weight))
              (mul (to_number (JS.index sorted upper)) weight)).

Definition calculateExposureRisk (db timeSeconds : number) : string :=
  let timeHours := div timeSeconds 3600 in
  if geb db 100 then "immediate-danger"
  else if geb db 95 then (if gtb timeHours (25 / 100) then "high" else "moderate")
  else if geb db 90 then (if gtb timeHours (5 / 10) then "high" else "moderate")
  else if geb db 85 then (if gtb timeHours 8 then "high" else "low")
  else "minimal".

Record TimeWeighted : Type := {
  value : number;
  totalTime : number;
  oshaCompliant : bool;
  exposureRisk : string
}.

(** The body of the loop of [calculateTimeWeightedExposure]. *)
Definition exposure_step (acc : number * number)
    (current next : ExtendedMeasurement) : number * number :=
  let '(totalEnergy, totalTime) := acc in
  let timeInterval := div (sub (timestamp next) (timestamp current)) 1000 in
  let energy := Math_pow10 (div (db current) 10) in
  (add totalEnergy (mul energy timeInterval), add totalTime timeInterval).

(** The loop over [i < length - 1]: every reading but the last, with its
    successor. *)
Fixpoint exposure_loop (ms : list ExtendedMeasurement) (acc : number * number)
  : number * number :=
  match ms with
  | current :: ((next :: _) as rest) =>
      exposure_loop rest (exposure_step acc current next)
  | _ => acc
  end.

(** [calculateTimeWeightedExposure]; [None] is [null]. *)
Definition calculateTimeWeightedExposure
    (extendedMeasurements : list ExtendedMeasurement) : option TimeWeighted :=
  match extendedMeasurements with
  | [] => None
  | _ =>
      let '(totalEnergy, totalTime) :=
        exposure_loop extendedMeasurements (Fin 0, Fin 0) in
      let timeWeightedDb :=
        if gtb totalTime 0
        then mul 10 (Math_log10 (div totalEnergy totalTime))
        else Fin 0 in
      Some {| value := timeWeightedDb;
              totalTime := totalTime;
              oshaCompliant := ltb timeWeightedDb 85;
              exposureRisk := calculateExposureRisk timeWeightedDb totalTime |}
  end.

(** [classifyNoiseLevel]. *)
Definition classifyNoiseLevel (db : number) : string :=
  if ltb db 30 then "whisper"
  else if ltb db 40 then "quiet"
  else if ltb db 50 then "calm"
  else if ltb db 60 then "moderate"
  else if ltb db 70 then "active"
  else if ltb db 80 then "loud"
  else if ltb db 85 then "very-loud"
  else if ltb db 90 then "warning"
  else "dangerous".

(** [calculateMedian]; [None] is [undefined]. *)
Definition calculateMedian (values : list number) : option number :=
  let sorted := sort_by ascending values in
  let mid := Math_floor (div (of_nat (List.length sorted)) 2) in
  if Nat.even (List.length sorted)
  then Some (div (add (to_number (JS.index sorted (sub mid 1)))
                      (to_number (JS.index sorted mid)))
                 2)
  else JS.index sorted mid.

(** [values.reduce((a, b) => a + b)] without an initial value: [None] is
    the [TypeError] raised on an empty array. *)
Definition reduce_add (values : list number) : option number :=
  match values with
  | [] => None
  | first :: rest => Some (fold_left add rest first)
  end.

(** [calculateVariance]; [None] when the reduction throws. *)
Definition calculateVariance (values : list number) : option number :=
  match reduce_add values with
  | None => None
  | Some total =>
      let mean := div total (of_nat (List.length values)) in
      let squaredDiffs := map (fun value => Math_pow2 (sub value mean)) values in
      match reduce_add squaredDiffs with
      | None => None
      | Some totalSq => Some (div totalSq (of_nat (List.length values)))
      end
  end.

(** A significant change found by [detectNoiseEvents]. *)
Record NoiseEvent : Type := {
  event_timestamp : number;
  event_type : string;
  magnitude : number;
  before : number;
  after : number
}.

(** The measurement state of the premium session.  The classification
    kept with a measurement is [classifyNoiseLevel] of its level and is not
    stored again. *)
Record Session : Type := {
  isActive : bool;
  sessionStartTime : option number;
  extendedMeasurements : list ExtendedMeasurement;
  noiseEvents : list NoiseEvent
}.

Definition constructor : Session :=
  {| isActive := false; sessionStartTime := None;
     extendedMeasurements := []; noiseEvents := [] |}.

(** [activate]; [now] is [Date.now()]. *)
Definition activate (s : Session) (now : number) : Session :=
  {| isActive := true; sessionStartTime := Some now;
     extendedMeasurements := []; noiseEvents := [] |}.

(** [arr.slice(-k)]. *)
Definition slice_last {A : Type} (k : nat) (arr : list A) : list A :=
  skipn (List.length arr - k) arr.

(** [detectNoiseEvents]. *)
Definition detectNoiseEvents (s : Session) (currentDb timestamp : number)
  : Session :=
  let recentMeasurements := slice_last 5 (extendedMeasurements s) in
  if Nat.ltb (List.length recentMeasurements) 2 then s
  else
    let avgRecent :=
      div (fold_left (fun sum m => add sum (db m)) recentMeasurements (Fin 0))
          (of_nat (List.length recentMeasurements)) in
    let dbChange := Math_abs (sub currentDb avgRecent) in
    if gtb dbChange 10
    then {| isActive := isActive s;
            sessionStartTime := sessionStartTime s;
            extendedMeasurements := extendedMeasurements s;
            noiseEvents :=
              noiseEvents s
              ++ [{| event_timestamp := timestamp;
                     event_type := if gtb currentDb avgRecent then "peak" else "drop";
                     magnitude := dbChange;
                     before := Math_round avgRecent;
                     after := Math_round currentDb |}] |}
    else s.

(** [collectDetailedData]: [currentDb] is what the processor answers and
    [timestamp] the time since the start of the session. *)
Definition collectDetailedData (s : Session) (currentDb timestamp : number)
  : Session :=
  let s :=
    {| isActive := isActive s;
       sessionStartTime := sessionStartTime s;
       extendedMeasurements :=
         extendedMeasurements s ++ [{| timestamp := timestamp; db := currentDb |}];
       noiseEvents := noiseEvents s |} in
  detectNoiseEvents s currentDb timestamp.

(** [assessDataConsistency]; [None] when the variance throws. *)
Definition assessDataConsistency (s : Session) : option string :=
  if Nat.ltb (List.length (extendedMeasurements s)) 10
  then Some "insufficient-data"
  else
    match calculateVariance (map db (extendedMeasurements s)) with
    | None => None
    | Some variance =>
        Some (if ltb variance 25 then "very-stable"
              else if ltb variance 100 then "stable"
              else if ltb variance 400 then "variable"
              else "highly-variable")
    end.

(** [assessDataQuality]: the score and the completeness.  The quotient
    and the product are rounded to binary64 as the machine does it: the
    whole number reported depends on it when the exact percentage lies at
    a half. *)
Definition data_quality_score (s : Session) : string * number :=
  let expectedSamples := mul 300 10 in
  let actualSamples := of_nat (List.length (extendedMeasurements s)) in
  let completeness := fmul (fdiv actualSamples expectedSamples) 100 in
  let quality := "excellent" in
  let quality := if ltb completeness 95 then "good" else quality in
  let quality := if ltb completeness 85 then "fair" else quality in
  let quality := if ltb completeness 70 then "poor" else quality in
  (quality, Math_round completeness).

End PremiumFeatures.

(* ================================================================== *)
(** ** MeasurementHistory *)
(* ================================================================== *)

Module History.

(** [calculatePercentile].  The index is taken as the machine computes it,
    with the quotient and the product rounded to binary64, because
    [Number.isInteger] of it decides between the stored value and the
    rounded interpolation: [(28 / 100) * 25] is not a whole number. *)
Definition calculatePercentile (values : list number) (percentile : number)
  : option number :=
  match values with
  | [] => Some (Fin 0)
  | _ =>
      let sorted := sort_by ascending values in
      let index := fmul (fdiv percentile 100) (sub (of_nat (List.length sorted)) 1) in
      if isInteger index then JS.index sorted index
      else
        let lower := Math_floor index in
        let upper := Math_ceil index in
        let weight := sub index lower in
        Some (div (Math_round
                     (mul (add (mul (to_number (JS.index sorted lower)) (sub 1 weight))
                               (mul (to_number (JS.index sorted upper)) weight))
                          10))
                  10)
  end.

Local Open Scope string_scope.

(** [calculateMean]: the mean rounded to one decimal. *)
Definition calculateMean (values : list number) : number :=
  match values with
  | [] => 0
  | _ =>
      div (Math_round
             (mul (div (sum_numbers values) (of_nat (List.length values))) 10))
          10
  end.

(** [calculateMedian]; [None] is [undefined]. *)
Definition calculateMedian (values : list number) : option number :=
  match values with
  | [] => Some (Fin 0)
  | _ =>
      let sorted := sort_by ascending values in
      let mid := Math_floor (div (of_nat (List.length sorted)) 2) in
      if Nat.even (List.length sorted)
      then Some (div (add (to_number (JS.index sorted (sub mid 1)))
                          (to_number (JS.index sorted mid)))
                     2)
      else JS.index sorted mid
  end.

(** [calculateStandardDeviation]. *)
Definition calculateStandardDeviation (values : list number) : number :=
  match values with
  | [] => 0
  | _ =>
      let mean := calculateMean values in
      let squaredDiffs := map (fun value => Math_pow2 (sub value mean)) values in
      let avgSquaredDiff := calculateMean squaredDiffs in
      div (Math_round (mul (Math_sqrt avgSquaredDiff) 10)) 10
  end.

(** A stored measurement.  A numeric field that is missing reads as NaN,
    a missing text as the empty text: both are falsy. *)
Record Entry : Type := {
  id : string;
  timestamp : number;
  averageDb : number;
  minDb : number;
  maxDb : number;
  duration : number;
  location : string;
  notes : string;
  isPremium : bool;
  sessionType : string
}.

(** The data handed to [addMeasurement]. *)
Record MeasurementData : Type := {
  data_timestamp : option number;
  data_averageDb : number;
  data_minDb : number;
  data_maxDb : number;
  data_duration : number;
  data_location : string;
  data_notes : string;
  data_isPremium : bool
}.

Record MeasurementHistory : Type := {
  measurements : list Entry;
  maxRecords : nat;
  locations : list string        (* a [Set], in insertion order *)
}.

Definition constructor : MeasurementHistory :=
  {| measurements := []; maxRecords := 50; locations := [] |}.

(** [Set.prototype.add]. *)
Definition set_add (x : string) (s : list string) : list string :=
  if existsb (String.eqb x) s then s else (s ++ [x])%list.

(** [addMeasurement]; [newId] is the generated id and [now] the current
    date.  Returns the stored measurement and the history afterwards. *)
Definition addMeasurement (h : MeasurementHistory) (measurementData : MeasurementData)
    (newId : string) (now : number) : Entry * MeasurementHistory :=
  let measurement :=
    {| id := newId;
       timestamp := match data_timestamp measurementData with
                    | Some t => t
                    | None => now
                    end;
       averageDb := data_averageDb measurementData;
       minDb := data_minDb measurementData;
       maxDb := data_maxDb measurementData;
       duration := or_else (data_duration measurementData) 30;
       location := if String.eqb (data_location measurementData) ""
                   then "Unknown Location"
                   else data_location measurementData;
       notes := data_notes measurementData;
       isPremium := data_isPremium measurementData || false;
       sessionType := if data_isPremium measurementData
                      then "Premium" else "Standard" |} in
  let locations :=
    if negb (String.eqb (location measurement) "Unknown Location")
    then set_add (location measurement) (locations h)
    else locations h in
  let measurements := measurement :: measurements h in
  let measurements :=
    if Nat.ltb (maxRecords h) (List.length measurements)
    then firstn (maxRecords h) measurements
    else measurements in
  (measurement,
   {| measurements := measurements;
      maxRecords := maxRecords h;
      locations := locations |}).

(** [clearHistory]. *)
Definition clearHistory (h : MeasurementHistory) : MeasurementHistory :=
  {| measurements := []; maxRecords := maxRecords h; locations := [] |}.

(** [m.averageDb || 0]. *)
Definition level_of (m : Entry) : number := or_else (averageDb m) 0.

(** [analyzeHealthPatterns]. *)
Record HealthPatterns : Type := {
  safeExposures : nat;
  moderateExposures : nat;
  highRiskExposures : nat;
  averageRiskLevel : string
}.

Definition analyzeHealthPatterns (ms : list Entry) : HealthPatterns :=
  let safe := List.length (filter (fun m => leb (level_of m) 70) ms) in
  let moderate :=
    List.length (filter (fun m => gtb (level_of m) 70 && leb (level_of m) 85) ms) in
  let highRisk := List.length (filter (fun m => gtb (level_of m) 85) ms) in
  let totalMeasurements := of_nat (List.length ms) in
  let highRiskPercentage := mul (div (of_nat highRisk) totalMeasurements) 100 in
  {| safeExposures := safe;
     moderateExposures := moderate;
     highRiskExposures := highRisk;
     averageRiskLevel :=
       if gtb highRiskPercentage 20 then "high"
       else if gtb highRiskPercentage 5
               || gtb (of_nat moderate) (mul totalMeasurements (5 / 10))
       then "moderate"
       else "low" |}.

(** The compliance counts of [getStatistics]. *)
Definition oshaCompliantMeasurements (ms : list Entry) : nat :=
  List.length (filter (fun m => leb (level_of m) 85) ms).

Definition highRiskMeasurements (ms : list Entry) : nat :=
  List.length (filter (fun m => gtb (level_of m) 85) ms).

(** [arr.slice(from, to)] for indices within the array. *)
Definition slice {A : Type} (from to : nat) (arr : list A) : list A :=
  firstn (to - from) (skipn from arr).

(** [analyzeTrends]. *)
Record TrendAnalysis : Type := {
  trend : string;
  change : number
}.

Definition analyzeTrends (ms : list Entry) : TrendAnalysis :=
  if Nat.ltb (List.length ms) 2
  then {| trend := "insufficient-data"; change := 0 |}
  else
    let recent := slice 0 (Nat.min 10 (List.length ms)) ms in
    let older := slice 10 (Nat.min 20 (List.length ms)) ms in
    if Nat.eqb (List.length older) 0
    then {| trend := "insufficient-data"; change := 0 |}
    else
      let recentAvg := calculateMean (map level_of recent) in
      let olderAvg := calculateMean (map level_of older) in
      let change := sub recentAvg olderAvg in
      let percentChange :=
        if ltb (Math_abs change) (1 / 10) then Fin 0
        else div (Math_round (mul (mul (div change olderAvg) 100) 10)) 10 in
      let trend :=
        if gtb (Math_abs percentChange) 10
        then (if gtb change 0 then "increasing" else "decreasing")
        else if gtb (Math_abs percentChange) 5
        then (if gtb change 0 then "slightly-increasing" else "slightly-decreasing")
        else "stable" in
      {| trend := trend; change := percentChange |}.

(** [assessLocationRisk]. *)
Definition assessLocationRisk (ms : list Entry) : string :=
  match ms with
  | [] => "unknown"
  | _ =>
      let avgDb := calculateMean (map level_of ms) in
      if leb avgDb 70 then "low"
      else if leb avgDb 85 then "moderate"
      else "high"
  end.

End History.

(* ================================================================== *)
(** ** The properties the specification words directly *)
(* ================================================================== *)

Module Spec.

Import NoiseClassifier.

(** The zone table of the specification: quiet [0,40), comfortable [40,55),
    moderate [55,70), loud [70,85), dangerous [85,100), emergency [100,oo). *)
Definition zone_range (z : zone) (v : number) : bool :=
  match z with
  | quiet => leb 0 v && ltb v 40
  | comfortable => leb 40 v && ltb v 55
  | moderate => leb 55 v && ltb v 70
  | loud => leb 70 v && ltb v 85
  | dangerous => leb 85 v && ltb v 100
  | emergency => leb 100 v
  end.

(** Adjacent entries of a table share their boundary:
    [zone[i].max == zone[i+1].min]. *)
Fixpoint contiguous (cs : list Classification) : Prop :=
  match cs with
  | a :: ((b :: _) as rest) => maxDb a = minDb b /\ contiguous rest
  | _ => True
  end.

(** The energy-weighted mean level of (dB value, duration) pairs:
    [10 * log10 (sum (10^(value/10) * duration) / sum duration)]. *)
Definition energy (valueDb : R) : R := Rpower 10 (valueDb / 10).

Definition energy_sum (l : list (R * R)) : R :=
  fold_right (fun p s => energy (fst p) * snd p + s) 0 l.

Definition time_sum (l : list (R * R)) : R :=
  fold_right (fun p s => snd p + s) 0 l.

Definition energy_mean_db (l : list (R * R)) : number :=
  mul 10 (Math_log10 (Fin (energy_sum l / time_sum l))).

(** The measurements of the classifier for a list of pairs. *)
Definition measurements_of (l : list (R * R)) : list Measurement :=
  map (fun p => {| db := Fin (fst p); duration := Fin (snd p) |}) l.

(** The duration the classifier counts for a measurement: 1 in place of a
    zero duration. *)
Definition counted (l : list (R * R)) : list (R * R) :=
  map (fun p => (fst p, if R_eqb (snd p) 0 then 1 else snd p)) l.

(** Timestamped readings (timestamp in ms, dB value), and the
    (dB value, duration in s) pairs between consecutive readings: each
    reading but the last is held until the next one. *)
Definition readings_of (l : list (R * R))
  : list PremiumFeatures.ExtendedMeasurement :=
  map (fun p => {| PremiumFeatures.timestamp := Fin (fst p);
                   PremiumFeatures.db := Fin (snd p) |}) l.

Fixpoint intervals (l : list (R * R)) : list (R * R) :=
  match l with
  | (t0, v0) :: (((t1, _) :: _) as rest) =>
      (v0, (t1 - t0) / 1000) :: intervals rest
  | _ => []
  end.

(** What a caller of the aggregator is told about the time-weighted
    average: a level, or that the data do not determine one. *)
Inductive TwaReport : Type :=
| InsufficientData
| Twa (level : number).

(** The report the specification asks for: insufficient data when the
    accumulated time is 0, the energy mean otherwise. *)
Definition twa_report (readings : list (R * R)) : TwaReport :=
  if R_eqb (time_sum (intervals readings)) 0 then InsufficientData
  else Twa (energy_mean_db (intervals readings)).

(** The report a caller reads off the premium result: [null] carries no
    level; an object carries its [value]. *)
Definition report_of (result : option PremiumFeatures.TimeWeighted) : TwaReport :=
  match result with
  | None => InsufficientData
  | Some tw => Twa (PremiumFeatures.value tw)
  end.




(** The level of a sample frame before calibration and clamping, and the
    reading the meter gives for it without calibration. *)
Definition raw_level (timeData : list Byte.byte) : number :=
  AudioProcessor.convertRMSToDecibels (AudioProcessor.calculateRMS timeData).

Definition uncalibrated_reading (timeData : list Byte.byte) : number :=
  AudioProcessor.clamp (raw_level timeData).

(** The processor services reads: it is initialised, measuring and holds an
    analyser. *)
Definition servicing (ap : AudioProcessor.Processor) : Prop :=
  AudioProcessor.isInitialized ap = true
  /\ AudioProcessor.isMeasuring ap = true
  /\ AudioProcessor.analyser ap <> None.

(** The rate gate is open at [now]: the update interval has elapsed since
    the time recorded as the last update. *)
Definition gate_open (ap : AudioProcessor.Processor) (now : number) : Prop :=
  ltb (sub now (AudioProcessor.lastUpdateTime ap)) (AudioProcessor.updateInterval ap)
  = false.

(** A frame of silence: every sample at the midpoint 128. *)
Definition silent (timeData : list Byte.byte) : Prop :=
  timeData <> [] /\ Forall (fun b => b = Byte.x80) timeData.

(** Linear interpolation between the order statistics around a fractional
    index: the values at the floor and at the ceiling of the index, weighted
    by the fractional part. *)
Definition interpolate (sorted : list R) (index : R) : R :=
  let lower := Z.to_nat (Zfloor index) in
  let upper := Z.to_nat (Zceil index) in
  let weight := index - IZR (Zfloor index) in
  nth lower sorted 0 * (1 - weight) + nth upper sorted 0 * weight.

(** The fractional index of percentile [p] among [n] values. *)
Definition percentile_index (p : R) (n : nat) : R := p / 100 * (INR n - 1).


End Spec.

(* ================================================================== *)
(** ** Gauge: the value shown and its animation *)
(* ================================================================== *)

Module Gauge.

(** The state of the gauge that decides the value it shows.
    [animationFrame] tells whether a frame callback is pending. *)
Record Gauge : Type := {
  minValue : number;
  maxValue : number;
  currentValue : number;
  targetValue : number;
  isAnimating : bool;
  animationFrame : bool
}.

(** The gauge as constructed with the default options. *)
Definition constructor : Gauge :=
  {| minValue := 0; maxValue := 140;
     currentValue := 0; targetValue := 0;
     isAnimating := false; animationFrame := false |}.

(** The closure [animate] of [animateToTarget]: one frame. *)
Definition animate (g : Gauge) : Gauge :=
  let diff := sub (targetValue g) (currentValue g) in
  let step := mul diff (15 / 100) in
  if gtb (Math_abs diff) (1 / 10)
  then {| minValue := minValue g; maxValue := maxValue g;
          currentValue := add (currentValue g) step;
          targetValue := targetValue g;
          isAnimating := isAnimating g;
          animationFrame := true |}
  else {| minValue := minValue g; maxValue := maxValue g;
          currentValue := targetValue g;
          targetValue := targetValue g;
          isAnimating := false;
          animationFrame := false |}.

(** [animateToTarget]: a pending frame is cancelled and the first frame
    runs at once. *)
Definition animateToTarget (g : Gauge) : Gauge :=
  animate {| minValue := minValue g; maxValue := maxValue g;
             currentValue := currentValue g;
             targetValue := targetValue g;
             isAnimating := true;
             animationFrame := false |}.

(** [update(value)], on the state of the gauge. *)
Definition update (g : Gauge) (value : number) : Gauge :=
  let g := {| minValue := minValue g; maxValue := maxValue g;
              currentValue := currentValue g;
              targetValue := Math_max (minValue g) (Math_min (maxValue g) value);
              isAnimating := isAnimating g;
              animationFrame := animationFrame g |} in
  if negb (isAnimating g)
     || gtb (Math_abs (sub (targetValue g) (currentValue g))) 5
  then animateToTarget g
  else g.

(** [setValue(value)]: no animation. *)
Definition setValue (g : Gauge) (value : number) : Gauge :=
  let v := Math_max (minValue g) (Math_min (maxValue g) value) in
  {| minValue := minValue g; maxValue := maxValue g;
     currentValue := v; targetValue := v;
     isAnimating := if animationFrame g then false else isAnimating g;
     animationFrame := false |}.

(** The browser runs the pending frame callback, if there is one. *)
Definition frame (g : Gauge) : Gauge :=
  if animationFrame g then animate g else g.

(** What the frames of an animation towards [t] that started at [c] have
    reached after [k] of them: the gauge rests on the target, or a frame is
    pending and the remaining distance is [(t - c) * 0.85^k], which the
    last frame found to be more than 0.1 before it moved. *)
Definition animation_state (c t : R) (k : nat) (g : Gauge) : Prop :=
  targetValue g = Fin t
  /\ ((animationFrame g = false /\ isAnimating g = false
       /\ currentValue g = Fin t)
      \/ (animationFrame g = true /\ isAnimating g = true
          /\ currentValue g = Fin (t - (t - c) * (85 / 100) ^ k)
          /\ ((1 <= k)%nat -> 85 / 1000 < Rabs ((t - c) * (85 / 100) ^ k)))).

End Gauge.

(** The completeness of [n] samples, in percent of the 3000 samples of a
    full session, as the machine computes it. *)
Definition machine_completeness (n : nat) : R :=
  to_double (to_double (INR n / 3000) * 100).

(** The exact arithmetic mean of real values, against which the rounded
    statistics of the history are measured. *)
Definition exact_mean (l : list R) : R :=
  fold_right Rplus 0 l / INR (List.length l).

(* ================================================================== *)
(** * Properties *)
(* ================================================================== *)

(* ------------------------------------------------------------------ *)
(** *** Deciding comparisons of reals in proofs *)

Lemma R_ltb_true x y : x < y -> R_ltb x y = true.
Proof. intro H; unfold R_ltb; destruct (Rlt_dec x y); [reflexivity | contradiction]. Qed.

Lemma R_ltb_false x y : y <= x -> R_ltb x y = false.
Proof. intro H; unfold R_ltb; destruct (Rlt_dec x y); [lra | reflexivity]. Qed.

Lemma R_leb_true x y : x <= y -> R_leb x y = true.
Proof. intro H; unfold R_leb; destruct (Rle_dec x y); [reflexivity | contradiction]. Qed.

Lemma R_leb_false x y : y < x -> R_leb x y = false.
Proof. intro H; unfold R_leb; destruct (Rle_dec x y); [lra | reflexivity]. Qed.

Lemma R_eqb_true x y : x = y -> R_eqb x y = true.
Proof. intro H; unfold R_eqb; destruct (Req_dec_T x y); [reflexivity | contradiction]. Qed.

Lemma R_eqb_false x y : x <> y -> R_eqb x y = false.
Proof. intro H; unfold R_eqb; destruct (Req_dec_T x y); [contradiction | reflexivity]. Qed.

Lemma R_ltb_spec x y : R_ltb x y = true <-> x < y.
Proof. unfold R_ltb; destruct (Rlt_dec x y); split; intros; try easy. Qed.

Lemma R_leb_spec x y : R_leb x y = true <-> x <= y.
Proof. unfold R_leb; destruct (Rle_dec x y); split; intros; try easy. Qed.

Lemma R_eqb_spec x y : R_eqb x y = true <-> x = y.
Proof. unfold R_eqb; destruct (Req_dec_T x y); split; intros; try easy. Qed.

(** Rewrites every real comparison whose outcome [lra] can settle. *)
Ltac rdecide :=
  repeat match goal with
  | |- context [R_ltb ?a ?b] =>
      first [ rewrite (R_ltb_true a b) by lra | rewrite (R_ltb_false a b) by lra ]
  | |- context [R_leb ?a ?b] =>
      first [ rewrite (R_leb_true a b) by lra | rewrite (R_leb_false a b) by lra ]
  | |- context [R_eqb ?a ?b] =>
      first [ rewrite (R_eqb_true a b) by lra | rewrite (R_eqb_false a b) by lra ]
  end.

(** Splits on every real comparison left in the goal, dropping the cases
    that contradict the context. *)
Ltac rsplit :=
  repeat match goal with
  | |- context [R_ltb ?a ?b] =>
      let H := fresh "C" in
      destruct (Rlt_dec a b) as [H | H];
      [ rewrite (R_ltb_true a b H) | rewrite (R_ltb_false a b) by lra ];
      try (exfalso; lra)
  | |- context [R_leb ?a ?b] =>
      let H := fresh "C" in
      destruct (Rle_dec a b) as [H | H];
      [ rewrite (R_leb_true a b H) | rewrite (R_leb_false a b) by lra ];
      try (exfalso; lra)
  end.

(* ================================================================== *)
(** ** Binary64 rounding *)
(* ================================================================== *)

Section Binary64.

Lemma Rabs_le_between (x b : R) : Rabs x <= b -> - b <= x <= b.
Proof. unfold Rabs. destruct (Rcase_abs x); lra. Qed.

Lemma ln_2_pos : 0 < ln 2.
Proof. generalize ln_lt_2. lra. Qed.

Lemma pow2_pos (e : Z) : 0 < powerRZ 2 e.
Proof. apply powerRZ_lt. lra. Qed.

Lemma pow2_add (a b : Z) : powerRZ 2 (a + b) = powerRZ 2 a * powerRZ 2 b.
Proof. apply powerRZ_add. lra. Qed.

Lemma pow2_nonneg_Z (z : Z) : (0 <= z)%Z -> powerRZ 2 z = IZR (2 ^ z).
Proof.
  intro Hz. rewrite <- (Z2Nat.id z Hz) at 1.
  rewrite <- pow_powerRZ. change 2 with (IZR 2). rewrite pow_IZR.
  rewrite Z2Nat.id by exact Hz. reflexivity.
Qed.

Lemma pow2_neg_Z (z : Z) : (0 <= z)%Z -> powerRZ 2 (- z) = / IZR (2 ^ z).
Proof.
  intro Hz.
  assert (H : powerRZ 2 (- z) * powerRZ 2 z = 1).
  { rewrite <- pow2_add. replace (- z + z)%Z with 0%Z by lia. reflexivity. }
  rewrite <- (pow2_nonneg_Z z Hz).
  assert (Hp := pow2_pos z).
  apply Rmult_eq_reg_r with (powerRZ 2 z); [ | lra].
  rewrite H. field. lra.
Qed.

Lemma pow2_ge_1 (z : Z) : (0 <= z)%Z -> 1 <= powerRZ 2 z.
Proof.
  intro Hz. rewrite <- (Z2Nat.id z Hz), <- pow_powerRZ.
  apply pow_R1_Rle. lra.
Qed.

Lemma pow2_le (a b : Z) : (a <= b)%Z -> powerRZ 2 a <= powerRZ 2 b.
Proof.
  intro H. replace b with (a + (b - a))%Z by lia. rewrite pow2_add.
  assert (H1 := pow2_ge_1 (b - a) ltac:(lia)). assert (H2 := pow2_pos a).
  nra.
Qed.

Lemma pow2_succ (a : Z) : powerRZ 2 (a + 1) = 2 * powerRZ 2 a.
Proof. rewrite pow2_add. change (powerRZ 2 1) with (2 * 1). ring. Qed.

Lemma ln_pow2 (e : Z) : ln (powerRZ 2 e) = IZR e * ln 2.
Proof.
  rewrite powerRZ_Rpower by lra. unfold Rpower. apply ln_exp.
Qed.

(** The binary exponent of a number between two powers of two. *)
Lemma log2_floor (x : R) (e : Z) :
  powerRZ 2 e <= x < powerRZ 2 (e + 1) -> Zfloor (ln x / ln 2) = e.
Proof.
  intros [Hlo Hhi]. assert (H2 := ln_2_pos). assert (Hp := pow2_pos e).
  apply Zfloor_eq.
  assert (L1 : IZR e * ln 2 <= ln x).
  { rewrite <- ln_pow2. destruct Hlo as [Hlo | <-]; [ | lra].
    left. apply ln_increasing; lra. }
  assert (L2 : ln x < (IZR e + 1) * ln 2).
  { rewrite <- plus_IZR, <- ln_pow2. apply ln_increasing; lra. }
  split.
  - apply Rmult_le_reg_r with (ln 2); [exact H2|].
    replace (ln x / ln 2 * ln 2) with (ln x) by (field; lra). exact L1.
  - apply Rmult_lt_reg_r with (ln 2); [exact H2|].
    replace (ln x / ln 2 * ln 2) with (ln x) by (field; lra). exact L2.
Qed.

(** Every positive number lies between two successive powers of two. *)
Lemma log2_floor_spec (x : R) :
  0 < x ->
  powerRZ 2 (Zfloor (ln x / ln 2)) <= x
  < powerRZ 2 (Zfloor (ln x / ln 2) + 1).
Proof.
  intro Hx. assert (H2 := ln_2_pos).
  assert (Hb := Zfloor_bound (ln x / ln 2)).
  set (e := Zfloor (ln x / ln 2)) in *.
  assert (L1 : IZR e * ln 2 <= ln x).
  { replace (ln x) with (ln x / ln 2 * ln 2) by (field; lra). nra. }
  assert (L2 : ln x < IZR (e + 1) * ln 2).
  { rewrite plus_IZR.
    replace (ln x) with (ln x / ln 2 * ln 2) by (field; lra). nra. }
  rewrite <- !ln_pow2 in *.
  split.
  - destruct L1 as [L1 | L1].
    + left. apply ln_lt_inv; [apply pow2_pos | exact Hx | exact L1].
    + right. apply ln_inv; [apply pow2_pos | exact Hx | exact L1].
  - apply ln_lt_inv; [exact Hx | apply pow2_pos | exact L2].
Qed.

Lemma round_half_even_error (y : R) :
  - / 2 <= IZR (round_half_even y) - y <= / 2.
Proof.
  unfold round_half_even. assert (Hb := Zfloor_bound y).
  set (f := Zfloor y) in *.
  destruct (Rlt_dec (y - IZR f) (/ 2)) as [H1 | H1].
  { rewrite (R_ltb_true _ _ H1). lra. }
  rewrite (R_ltb_false (y - IZR f) (/ 2)) by lra.
  destruct (Rlt_dec (/ 2) (y - IZR f)) as [H2 | H2].
  { rewrite (R_ltb_true _ _ H2). rewrite plus_IZR. lra. }
  rewrite (R_ltb_false (/ 2) (y - IZR f)) by lra.
  destruct (Z.even f); [ | rewrite plus_IZR]; lra.
Qed.

(** A number less than one half away from an integer rounds to it. *)
Lemma round_half_even_near (y : R) (m : Z) :
  Rabs (y - IZR m) < / 2 -> round_half_even y = m.
Proof.
  intro H. apply Rabs_def2 in H. destruct H as [Hu Hl].
  unfold round_half_even.
  destruct (Rle_dec (IZR m) y) as [C | C].
  - rewrite (Zfloor_eq m y) by lra.
    rewrite (R_ltb_true (y - IZR m) (/ 2)) by lra. reflexivity.
  - rewrite (Zfloor_eq (m - 1) y) by (rewrite minus_IZR; lra).
    rewrite minus_IZR.
    rewrite (R_ltb_false (y - (IZR m - 1)) (/ 2)) by lra.
    rewrite (R_ltb_true (/ 2) (y - (IZR m - 1))) by lra. lia.
Qed.

Lemma round_half_even_Z (m : Z) : round_half_even (IZR m) = m.
Proof.
  apply round_half_even_near.
  replace (IZR m - IZR m) with 0 by ring. rewrite Rabs_R0. lra.
Qed.

Lemma round_half_even_monotone (x y : R) :
  x <= y -> (round_half_even x <= round_half_even y)%Z.
Proof.
  intro Hxy.
  destruct (Z_le_gt_dec (round_half_even x) (round_half_even y)) as [H | H];
    [exact H | exfalso].
  assert (Hx := round_half_even_error x). assert (Hy := round_half_even_error y).
  assert (H1 : IZR (round_half_even y) + 1 <= IZR (round_half_even x)).
  { rewrite <- plus_IZR. apply IZR_le. lia. }
  assert (E : x = y) by lra.
  subst y. lia.
Qed.

Lemma to_double_0 : to_double 0 = 0.
Proof. unfold to_double. rewrite R_eqb_true by reflexivity. reflexivity. Qed.

(** The rounding of a number whose binary exponent and nearest significand
    are known. *)
Lemma to_double_eval (x : R) (e m : Z) :
  (-1022 <= e)%Z ->
  powerRZ 2 e <= Rabs x < powerRZ 2 (e + 1) ->
  Rabs (x / powerRZ 2 (e - 52) - IZR m) < / 2 ->
  to_double x = IZR m * powerRZ 2 (e - 52).
Proof.
  intros He Hx Hm. assert (Hp := pow2_pos e).
  unfold to_double.
  rewrite R_eqb_false
    by (intros ->; rewrite Rabs_R0 in Hx; lra).
  unfold exponent. rewrite (log2_floor _ e Hx).
  rewrite Z.max_l by lia. cbn zeta.
  rewrite (round_half_even_near _ m Hm). reflexivity.
Qed.

(** The numbers [m * 2^e] with a significand below [2^53] are binary64
    numbers: rounding leaves them as they are. *)
Lemma to_double_representable (m e : Z) :
  (Z.abs m < 2 ^ 53)%Z -> (-1074 <= e)%Z ->
  to_double (IZR m * powerRZ 2 e) = IZR m * powerRZ 2 e.
Proof.
  intros Hm He. assert (Hp := pow2_pos e).
  destruct (Z.eq_dec m 0) as [-> | Hm0].
  { rewrite Rmult_0_l. apply to_double_0. }
  set (x := IZR m * powerRZ 2 e).
  assert (Hx0 : x <> 0).
  { unfold x. assert (IZR m <> 0) by (apply not_0_IZR; exact Hm0). nra. }
  set (b := Z.log2 (Z.abs m)).
  assert (Hb : (2 ^ b <= Z.abs m < 2 ^ Z.succ b)%Z)
    by (apply Z.log2_spec; lia).
  assert (Hb0 : (0 <= b)%Z) by apply Z.log2_nonneg.
  assert (Hb52 : (b < 53)%Z) by (apply Z.log2_lt_pow2; lia).
  assert (Habs : Rabs x = IZR (Z.abs m) * powerRZ 2 e).
  { unfold x. rewrite Rabs_mult, (Rabs_right (powerRZ 2 e)) by lra.
    rewrite abs_IZR. reflexivity. }
  assert (Hrange : powerRZ 2 (b + e) <= Rabs x < powerRZ 2 (b + e + 1)).
  { rewrite Habs.
    replace (b + e + 1)%Z with (Z.succ b + e)%Z by lia.
    rewrite !pow2_add, (pow2_nonneg_Z b), (pow2_nonneg_Z (Z.succ b)) by lia.
    destruct Hb as [Hb1 Hb2]. apply IZR_le in Hb1. apply IZR_lt in Hb2.
    split.
    - apply Rmult_le_compat_r; [lra | exact Hb1].
    - apply Rmult_lt_compat_r; [lra | exact Hb2]. }
  unfold to_double. rewrite (R_eqb_false x 0 Hx0).
  unfold exponent. rewrite (log2_floor _ (b + e) Hrange). cbn zeta.
  set (k := (Z.max (b + e) (-1022) - 52)%Z).
  assert (Hk : (0 <= e - k)%Z) by (unfold k; lia).
  assert (Hq : x / powerRZ 2 k = IZR (m * 2 ^ (e - k))).
  { unfold x. rewrite mult_IZR, <- pow2_nonneg_Z by exact Hk.
    replace e with (e - k + k)%Z at 1 by lia. rewrite pow2_add.
    field. assert (Hk' := pow2_pos k). lra. }
  rewrite Hq, round_half_even_Z, mult_IZR, <- pow2_nonneg_Z by exact Hk.
  rewrite Rmult_assoc, <- pow2_add. replace (e - k + k)%Z with e by lia.
  reflexivity.
Qed.


(** The dyadic fractions with a small numerator are binary64 numbers. *)
Lemma to_double_dyadic (m : Z) (k : nat) :
  (Z.abs m < 2 ^ 53)%Z -> (k <= 1074)%nat ->
  to_double (IZR m / 2 ^ k) = IZR m / 2 ^ k.
Proof.
  intros Hm Hk.
  replace (IZR m / 2 ^ k) with (IZR m * powerRZ 2 (- Z.of_nat k)).
  - apply to_double_representable; [exact Hm | lia].
  - rewrite pow2_neg_Z by lia.
    replace (IZR (2 ^ Z.of_nat k)) with (2 ^ k); [reflexivity|].
    change 2 with (IZR 2). rewrite pow_IZR. reflexivity.
Qed.


Lemma exponent_spec (x : R) :
  0 < x ->
  x < powerRZ 2 (exponent x + 1)
  /\ (powerRZ 2 (exponent x) <= x \/ exponent x = (-1022)%Z).
Proof.
  intro Hx. unfold exponent. rewrite (Rabs_right x) by lra.
  destruct (log2_floor_spec x Hx) as [Hlo Hhi].
  set (f := Zfloor (ln x / ln 2)) in *.
  destruct (Z_le_gt_dec (-1022) f) as [H | H].
  - rewrite Z.max_l by lia. split; [exact Hhi | left; exact Hlo].
  - rewrite Z.max_r by lia. split; [ | right; reflexivity].
    apply Rlt_le_trans with (powerRZ 2 (f + 1)); [exact Hhi|].
    apply pow2_le. lia.
Qed.

Lemma exponent_monotone (x y : R) :
  0 < x -> x <= y -> (exponent x <= exponent y)%Z.
Proof.
  intros Hx Hxy. unfold exponent.
  rewrite (Rabs_right x), (Rabs_right y) by lra.
  apply Z.max_le_compat_r. apply Zfloor_le.
  assert (H2 := ln_2_pos).
  assert (Hln : ln x <= ln y).
  { destruct Hxy as [Hxy | <-]; [left; apply ln_increasing; lra | lra]. }
  apply Rmult_le_compat_r; [ | exact Hln].
  left. apply Rinv_0_lt_compat. exact H2.
Qed.

(** A positive number and its rounding lie in the same binade. *)
Lemma to_double_range (x : R) :
  0 < x ->
  0 <= to_double x <= powerRZ 2 (exponent x + 1)
  /\ (powerRZ 2 (exponent x) <= x -> powerRZ 2 (exponent x) <= to_double x).
Proof.
  intro Hx. destruct (exponent_spec x Hx) as [Hhi _].
  unfold to_double. rewrite R_eqb_false by lra. cbn zeta.
  set (e := exponent x) in *.
  assert (Hu := pow2_pos (e - 52)). set (u := powerRZ 2 (e - 52)) in *.
  assert (E1 : powerRZ 2 (e + 1) = IZR (2 ^ 53) * u).
  { unfold u. rewrite <- pow2_nonneg_Z, <- pow2_add by lia. f_equal. lia. }
  assert (E0 : powerRZ 2 e = IZR (2 ^ 52) * u).
  { unfold u. rewrite <- pow2_nonneg_Z, <- pow2_add by lia. f_equal. lia. }
  assert (Hy0 : 0 <= x / u) by (apply Rmult_le_pos; [lra | left; apply Rinv_0_lt_compat; exact Hu]).
  assert (Hy1 : x / u <= IZR (2 ^ 53)).
  { apply Rmult_le_reg_r with u; [exact Hu|].
    replace (x / u * u) with x by (field; lra). lra. }
  assert (R0 := round_half_even_monotone 0 (x / u) Hy0).
  change 0 with (IZR 0) in R0 at 1. rewrite round_half_even_Z in R0.
  assert (R1 := round_half_even_monotone (x / u) (IZR (2 ^ 53)) Hy1).
  rewrite round_half_even_Z in R1.
  apply IZR_le in R0. apply IZR_le in R1.
  split; [split|].
  - apply Rmult_le_pos; lra.
  - rewrite E1. apply Rmult_le_compat_r; lra.
  - intro Hlo. rewrite E0.
    assert (Hy2 : IZR (2 ^ 52) <= x / u).
    { apply Rmult_le_reg_r with u; [exact Hu|].
      replace (x / u * u) with x by (field; lra). lra. }
    assert (R2 := round_half_even_monotone _ _ Hy2).
    rewrite round_half_even_Z in R2. apply IZR_le in R2.
    apply Rmult_le_compat_r; lra.
Qed.

(** Rounding keeps the order of non-negative numbers. *)
Lemma to_double_monotone (x y : R) :
  0 <= x -> x <= y -> to_double x <= to_double y.
Proof.
  intros Hx Hxy.
  destruct Hx as [Hx | <-].
  2: { rewrite to_double_0. destruct Hxy as [Hy | <-].
       - apply (to_double_range y Hy).
       - rewrite to_double_0. lra. }
  assert (Hy : 0 < y) by lra.
  assert (He := exponent_monotone x y Hx Hxy).
  destruct (Z.eq_dec (exponent x) (exponent y)) as [E | E].
  - unfold to_double. rewrite !R_eqb_false by lra. cbn zeta. rewrite E.
    assert (Hu := pow2_pos (exponent y - 52)).
    set (u := powerRZ 2 (exponent y - 52)) in *.
    assert (Hq : x / u <= y / u).
    { apply Rmult_le_compat_r; [left; apply Rinv_0_lt_compat; exact Hu | exact Hxy]. }
    assert (R := round_half_even_monotone _ _ Hq). apply IZR_le in R.
    apply Rmult_le_compat_r; lra.
  - destruct (exponent_spec y Hy) as [_ [Hlo | Hmin]].
    + destruct (to_double_range x Hx) as [[_ Hxu] _].
      destruct (to_double_range y Hy) as [_ Hyl].
      specialize (Hyl Hlo).
      assert (Hp : powerRZ 2 (exponent x + 1) <= powerRZ 2 (exponent y))
        by (apply pow2_le; lia).
      lra.
    + exfalso. unfold exponent in *. lia.
Qed.

(** The relative error of rounding a normal number. *)
Lemma to_double_error (x : R) :
  powerRZ 2 (-1022) <= x ->
  Rabs (to_double x - x) <= x * powerRZ 2 (-53).
Proof.
  intro Hn. assert (Hx : 0 < x) by (generalize (pow2_pos (-1022)); lra).
  assert (Hlo : powerRZ 2 (exponent x) <= x).
  { destruct (exponent_spec x Hx) as [_ [Hlo | Hmin]];
      [exact Hlo | rewrite Hmin; exact Hn]. }
  unfold to_double. rewrite R_eqb_false by lra. cbn zeta.
  set (e := exponent x) in *.
  assert (Hu := pow2_pos (e - 52)). set (u := powerRZ 2 (e - 52)) in *.
  assert (Hr := round_half_even_error (x / u)).
  set (k := IZR (round_half_even (x / u))) in *.
  assert (E : k * u - x = (k - x / u) * u) by (field; lra).
  assert (Ue : u = powerRZ 2 e * powerRZ 2 (-52))
    by (unfold u; rewrite <- pow2_add; f_equal; lia).
  assert (P53 : powerRZ 2 (-52) = 2 * powerRZ 2 (-53))
    by (rewrite <- pow2_succ; f_equal).
  assert (Hp := pow2_pos (-53)). assert (Hpe := pow2_pos e).
  rewrite E. apply Rabs_le.
  assert (Hb : u / 2 <= x * powerRZ 2 (-53)).
  { rewrite Ue, P53. nra. }
  split; nra.
Qed.

End Binary64.

(** Replaces the powers of two with a literal exponent by their values. *)
Ltac pow2_eval :=
  repeat match goal with
  | |- context [powerRZ 2 ?z] =>
      let z' := eval vm_compute in z in
      lazymatch z' with
      | Z0 => change (powerRZ 2 z) with 1
      | Zpos ?p =>
          let n := eval vm_compute in (2 ^ z')%Z in
          replace (powerRZ 2 z) with (IZR n)
            by (symmetry; exact (pow2_nonneg_Z z' ltac:(lia)))
      | Zneg ?p =>
          let n := eval vm_compute in (2 ^ Zpos p)%Z in
          replace (powerRZ 2 z) with (/ IZR n)
            by (symmetry; exact (pow2_neg_Z (Zpos p) ltac:(lia)))
      end
  end.

(** Evaluates [to_double x] from the binary exponent [e] of [x] and the
    significand [m] nearest to it. *)
Ltac double_eval x e m :=
  rewrite (to_double_eval x e m);
  [ pow2_eval
  | lia
  | pow2_eval; rewrite Rabs_right by lra; lra
  | pow2_eval; apply Rabs_def1; lra ].

(* ================================================================== *)
(** ** Zone classification *)
(* ================================================================== *)

Section Classify.

Import NoiseClassifier.

(** The zone [classify] answers for a finite level, as a decision ladder. *)
Lemma classify_fin_cases (r : R) :
  range (entry (classify r)) =
    if R_leb 0 r && R_ltb r 40 then quiet
    else if R_leb 40 r && R_ltb r 55 then comfortable
    else if R_leb 55 r && R_ltb r 70 then moderate
    else if R_leb 70 r && R_ltb r 85 then loud
    else if R_leb 85 r && R_ltb r 100 then dangerous
    else emergency.
Proof.
  unfold classify, classifications.
  cbn [find_range minDb maxDb geb leb ltb].
  rsplit; cbn [andb]; reflexivity.
Qed.

Lemma classify_pos_inf : range (entry (classify PosInf)) = emergency.
Proof. reflexivity. Qed.

Lemma classify_neg_inf : range (entry (classify NegInf)) = emergency.
Proof. reflexivity. Qed.

Lemma classify_nan : range (entry (classify NaN)) = emergency.
Proof. reflexivity. Qed.

Lemma zone_range_fin_unique (r : R) (z1 z2 : zone) :
  Spec.zone_range z1 r = true -> Spec.zone_range z2 r = true -> z1 = z2.
Proof.
  destruct z1, z2; try reflexivity; cbn [Spec.zone_range leb ltb];
    rewrite ?andb_true_iff, ?R_leb_spec, ?R_ltb_spec; lra.
Qed.

Lemma classifications_contiguous : Spec.contiguous classifications.
Proof. cbn [Spec.contiguous classifications minDb maxDb]. repeat split. Qed.

(** C2.  The zone table is contiguous (every entry's [maxDb] is the next
    entry's [minDb], starting at 0), and for every level [v >= 0], finite or
    positive infinity, [classify] answers the one zone of
    quiet [0,40), comfortable [40,55), moderate [55,70), loud [70,85),
    dangerous [85,100), emergency [100,oo) that holds [v]; a level at or
    above the table's last bound (140) is answered with the top zone. *)
Theorem classify_zone_partition (v : number) (Hv : leb 0 v = true) :
  Spec.contiguous classifications
  /\ map range classifications
     = [quiet; comfortable; moderate; loud; dangerous; emergency]
  /\ map minDb classifications = map Fin [0; 40; 55; 70; 85; 100]
  /\ map maxDb classifications = map Fin [40; 55; 70; 85; 100; 140]
  /\ Spec.zone_range (range (entry (classify v))) v = true
  /\ (forall z, Spec.zone_range z v = true -> z = range (entry (classify v)))
  /\ (leb (maxDb (last_entry classifications)) v = true ->
      range (entry (classify v)) = emergency).
Proof.
  split; [exact classifications_contiguous|].
  split; [reflexivity|].
  split; [reflexivity|].
  split; [reflexivity|].
  assert (Hin : Spec.zone_range (range (entry (classify v))) v = true).
  { destruct v as [ | | | r]; try discriminate Hv.
    - reflexivity.
    - cbn [leb] in Hv. apply R_leb_spec in Hv.
      rewrite classify_fin_cases.
      rsplit; cbn [andb Spec.zone_range leb ltb]; rdecide; reflexivity. }
  split; [exact Hin|].
  split.
  - intros z Hz.
    destruct v as [ | | | r]; try discriminate Hv.
    + destruct z; try discriminate Hz. reflexivity.
    + exact (zone_range_fin_unique r _ _ Hz Hin).
  - intro Htop.
    destruct v as [ | | | r]; try discriminate Hv.
    + reflexivity.
    + cbn in Htop. apply R_leb_spec in Htop.
      rewrite classify_fin_cases. rdecide. reflexivity.
Qed.

Lemma classify_zone_partition_witness :
  leb 0 150 = true /\ range (entry (classify 150)) = emergency.
Proof.
  assert (H : leb 0 150 = true) by (cbn [leb]; apply R_leb_true; lra).
  split; [exact H|].
  apply (classify_zone_partition 150 H).
  unfold last_entry; cbn [last classifications maxDb leb].
  apply R_leb_true; lra.
Defined.

(** C3 (the code at a negative level).  [classify(-5)] finds no entry, as
    no range starts below 0, and answers with the last entry of the table,
    the emergency zone; the sibling ladder [getProgressColor] answers its
    lowest tier for the same level. *)
Theorem classify_negative_is_emergency :
  find_range classifications (Fin (-5)) = None
  /\ range (entry (classify (Fin (-5)))) = emergency
  /\ category (entry (classify (Fin (-5)))) = "Emergency Level"%string
  /\ range (entry (classify (Fin (-5)))) <> quiet
  /\ getProgressColor (Fin (-5)) = "#22c55e"%string.
Proof.
  assert (Hf : find_range classifications (Fin (-5)) = None).
  { unfold classifications. cbn [find_range minDb maxDb geb leb ltb].
    rdecide. reflexivity. }
  split; [exact Hf|].
  unfold classify. rewrite Hf. cbn [entry].
  split; [reflexivity|]. split; [reflexivity|]. split; [discriminate|].
  unfold getProgressColor. cbn [geb leb]. rdecide. reflexivity.
Qed.

(** Every finite negative level is answered with the emergency zone. *)
Lemma classify_below_zero (r : R) :
  r < 0 -> range (entry (classify r)) = emergency.
Proof.
  intro Hr. rewrite classify_fin_cases. rdecide. reflexivity.
Qed.

(** The levels of the health-system test script and the zones they get. *)
Lemma classify_test_levels :
  map (fun level : R => range (entry (classify level)))
      [35; 55; 65; 75; 85; 95; 105; 115]
  = [quiet; moderate; moderate; loud; dangerous; dangerous; emergency; emergency].
Proof.
  cbn [map]. rewrite !classify_fin_cases. rdecide. reflexivity.
Qed.

End Classify.

(* ================================================================== *)
(** ** Safe exposure time *)
(* ================================================================== *)

Section SafeExposure.

Import NoiseClassifier.

Lemma Fin_inj (x y : R) : Fin x = Fin y -> x = y.
Proof. intro H; injection H; trivial. Qed.

(** The ladder of [calculateSafeExposureTime] on a finite level. *)
Lemma calculateSafeExposureTime_fin (r : R) :
  calculateSafeExposureTime r =
    if R_leb r 90 then Fin 8
    else if R_leb r 92 then Fin 4
    else if R_leb r 95 then Fin 2
    else if R_leb r 97 then Fin 1
    else if R_leb r 100 then Fin (25 / 100)
    else if R_leb r 105 then Fin (17 / 1000)
    else Fin 0.
Proof.
  unfold calculateSafeExposureTime. cbn [leb].
  rsplit; reflexivity.
Qed.

(** C4, as the code has it.  The permissible time is 8 hours up to and
    including 90 dB, 4 hours above 90 up to 92 dB, 2 hours at 95 dB, 1 hour
    at 97 dB, a quarter of an hour at 100 dB, 0.017 hours (one minute to
    within two seconds) at 105 dB, and 0 above 105 dB. *)
Theorem safe_exposure_time_ladder :
  (forall r : R, r <= 90 -> calculateSafeExposureTime r = Fin 8)
  /\ calculateSafeExposureTime 85 = Fin 8
  /\ calculateSafeExposureTime 90 = Fin 8
  /\ (forall r : R, 90 < r <= 92 -> calculateSafeExposureTime r = Fin 4)
  /\ calculateSafeExposureTime 95 = Fin 2
  /\ calculateSafeExposureTime 97 = Fin 1
  /\ calculateSafeExposureTime 100 = Fin (25 / 100)
  /\ calculateSafeExposureTime 105 = Fin (17 / 1000)
  /\ Rabs (17 / 1000 * 60 - 1) <= 2 / 60
  /\ (forall r : R, 105 < r -> calculateSafeExposureTime r = Fin 0)
  /\ calculateSafeExposureTime PosInf = Fin 0.
Proof.
  repeat split;
    try (intros r Hr);
    try (rewrite calculateSafeExposureTime_fin; rdecide; reflexivity).
  unfold Rabs. destruct (Rcase_abs _); lra.
Qed.

Lemma safe_exposure_time_ladder_witness :
  calculateSafeExposureTime 60 = Fin 8
  /\ calculateSafeExposureTime 91 = Fin 4
  /\ calculateSafeExposureTime 110 = Fin 0.
Proof.
  destruct safe_exposure_time_ladder
    as (Hlow & _ & _ & Hmid & _ & _ & _ & _ & _ & Hhigh & _).
  split; [apply Hlow; lra|].
  split; [apply Hmid; lra | apply Hhigh; lra].
Defined.

(** C4, the reference point the code does not have: at 90 dB the code
    answers 8 hours, not 4. *)
Lemma safe_exposure_at_90_is_8_not_4 :
  calculateSafeExposureTime 90 = Fin 8
  /\ calculateSafeExposureTime 90 <> Fin 4.
Proof.
  assert (H : calculateSafeExposureTime 90 = Fin 8)
    by (rewrite calculateSafeExposureTime_fin; rdecide; reflexivity).
  split; [exact H|].
  rewrite H. intro E. apply Fin_inj in E. lra.
Qed.

End SafeExposure.

(* ================================================================== *)
(** ** Time-weighted average *)
(* ================================================================== *)

Section TimeWeightedAverage.

Import NoiseClassifier.

Lemma ln_10_pos : 0 < ln 10.
Proof. rewrite <- ln_1. apply ln_increasing; lra. Qed.

Lemma log10_increasing (x y : R) : 0 < x -> x < y -> log10 x < log10 y.
Proof.
  intros Hx Hxy. unfold log10.
  apply Rmult_lt_compat_r.
  - apply Rinv_0_lt_compat, ln_10_pos.
  - apply ln_increasing; assumption.
Qed.

(** [log10] between two rationals, from a comparison of integer powers. *)
Lemma log10_lower (x : R) (p q : nat) :
  0 < x -> (0 < q)%nat -> 10 ^ p < x ^ q -> INR p / INR q < log10 x.
Proof.
  intros Hx Hq Hpow.
  assert (Hq' : 0 < INR q) by (apply lt_0_INR; exact Hq).
  assert (H10 := ln_10_pos).
  assert (Hln : INR p * ln 10 < INR q * ln x).
  { rewrite <- !ln_pow by lra. apply ln_increasing; [apply pow_lt; lra | exact Hpow]. }
  unfold log10.
  apply Rmult_lt_reg_r with (INR q * ln 10); [apply Rmult_lt_0_compat; lra|].
  replace (INR p / INR q * (INR q * ln 10)) with (INR p * ln 10) by (field; lra).
  replace (ln x / ln 10 * (INR q * ln 10)) with (INR q * ln x) by (field; lra).
  exact Hln.
Qed.

Lemma log10_upper (x : R) (p q : nat) :
  0 < x -> (0 < q)%nat -> x ^ q < 10 ^ p -> log10 x < INR p / INR q.
Proof.
  intros Hx Hq Hpow.
  assert (Hq' : 0 < INR q) by (apply lt_0_INR; exact Hq).
  assert (H10 := ln_10_pos).
  assert (Hln : INR q * ln x < INR p * ln 10).
  { rewrite <- !ln_pow by lra. apply ln_increasing; [apply pow_lt; lra | exact Hpow]. }
  unfold log10.
  apply Rmult_lt_reg_r with (INR q * ln 10); [apply Rmult_lt_0_compat; lra|].
  replace (INR p / INR q * (INR q * ln 10)) with (INR p * ln 10) by (field; lra).
  replace (ln x / ln 10 * (INR q * ln 10)) with (INR q * ln x) by (field; lra).
  exact Hln.
Qed.

Lemma pow_lt_by_Z (a b : Z) (m n : nat) :
  (a ^ Z.of_nat m <? b ^ Z.of_nat n)%Z = true -> IZR a ^ m < IZR b ^ n.
Proof.
  intro H. rewrite !pow_IZR. apply IZR_lt, Z.ltb_lt, H.
Qed.

Lemma log10_shift (x : R) (k : nat) :
  0 < x -> log10 (x * 10 ^ k) = log10 x + INR k.
Proof.
  intro Hx. assert (H10 := ln_10_pos). unfold log10.
  rewrite ln_mult by (try apply pow_lt; lra).
  rewrite ln_pow by lra. field. lra.
Qed.

Lemma log10_505 : 2703 / 1000 < log10 505 < 2704 / 1000.
Proof.
  split.
  - replace (2703 / 1000) with (INR 2703 / INR 1000)
      by (rewrite !INR_IZR_INZ; reflexivity).
    apply log10_lower; [lra | lia |].
    apply pow_lt_by_Z. vm_compute. reflexivity.
  - replace (2704 / 1000) with (INR 2704 / INR 1000)
      by (rewrite !INR_IZR_INZ; reflexivity).
    apply log10_upper; [lra | lia |].
    apply pow_lt_by_Z. vm_compute. reflexivity.
Qed.

(** [10 * log10 ((10^8 + 10^10) / 2)] lies between 97.03 and 97.04. *)
Lemma log10_mean_80_100 :
  9703 / 1000 < log10 5050000000 < 9704 / 1000.
Proof.
  replace 5050000000 with (505 * 10 ^ 7) by lra.
  rewrite log10_shift by lra.
  replace (INR 7) with 7 by (rewrite INR_IZR_INZ; reflexivity).
  generalize log10_505. lra.
Qed.

Lemma div_fin (x y : R) : y <> 0 -> div (Fin x) (Fin y) = Fin (x / y).
Proof. intro Hy. cbn [div]. rewrite (R_eqb_false y 0 Hy). reflexivity. Qed.

(** One round of the classifier's loop on finite data. *)
Lemma twa_step_fin (e t v d : R) :
  twa_step (Fin e, Fin t) {| db := Fin v; duration := Fin d |}
  = (Fin (e + Spec.energy v * (if R_eqb d 0 then 1 else d)),
     Fin (t + (if R_eqb d 0 then 1 else d))).
Proof.
  unfold twa_step. cbn [db duration].
  rewrite div_fin by lra. cbn [Math_pow10].
  unfold or_else, truthy.
  destruct (R_eqb d 0); cbn [negb mul add]; reflexivity.
Qed.

Lemma twa_loop_fin (l : list (R * R)) : forall e t : R,
  fold_left twa_step (Spec.measurements_of l) (Fin e, Fin t)
  = (Fin (e + Spec.energy_sum (Spec.counted l)),
     Fin (t + Spec.time_sum (Spec.counted l))).
Proof.
  induction l as [ | [v d] l IH]; intros e t.
  - cbn. rewrite !Rplus_0_r. reflexivity.
  - cbn [Spec.measurements_of map fold_left fst snd].
    rewrite twa_step_fin.
    change (map _ l) with (Spec.measurements_of l).
    rewrite IH.
    cbn [Spec.counted map Spec.energy_sum Spec.time_sum fold_right fst snd].
    unfold Spec.energy_sum, Spec.time_sum, Spec.counted.
    f_equal; f_equal; ring.
Qed.

(** The classifier's average is the energy mean of the counted pairs. *)
Lemma calculateTimeWeightedAverage_counted (l : list (R * R)) :
  l <> [] -> Spec.time_sum (Spec.counted l) <> 0 ->
  calculateTimeWeightedAverage (Spec.measurements_of l)
  = Spec.energy_mean_db (Spec.counted l).
Proof.
  intros Hne HT.
  unfold calculateTimeWeightedAverage.
  destruct l as [ | p l]; [contradiction|].
  remember (p :: l) as pl eqn:Epl.
  destruct (Spec.measurements_of pl) as [ | m ms] eqn:Em.
  { subst pl. discriminate Em. }
  rewrite <- Em. rewrite twa_loop_fin.
  rewrite !Rplus_0_l.
  cbn [eqb]. rewrite (R_eqb_false _ 0 HT).
  rewrite div_fin by exact HT.
  reflexivity.
Qed.

Lemma counted_nonzero (l : list (R * R)) :
  Forall (fun p => snd p <> 0) l -> Spec.counted l = l.
Proof.
  induction 1 as [ | [v d] l Hd _ IH]; [reflexivity|].
  cbn [Spec.counted map fst snd] in *.
  rewrite (R_eqb_false d 0 Hd). f_equal. exact IH.
Qed.

Lemma energy_nat (n : nat) : Spec.energy (10 * INR n) = 10 ^ n.
Proof.
  unfold Spec.energy.
  replace (10 * INR n / 10) with (INR n) by (field; lra).
  apply Rpower_pow. lra.
Qed.

Lemma energy_80 : Spec.energy 80 = 10 ^ 8.
Proof.
  replace 80 with (10 * INR 8) by (rewrite INR_IZR_INZ; cbn; lra).
  apply energy_nat.
Qed.

Lemma energy_100 : Spec.energy 100 = 10 ^ 10.
Proof.
  replace 100 with (10 * INR 10) by (rewrite INR_IZR_INZ; cbn; lra).
  apply energy_nat.
Qed.

Lemma math_log10_pos (x : R) : 0 < x -> Math_log10 (Fin x) = Fin (log10 x).
Proof. intro Hx. cbn [Math_log10]. rdecide. reflexivity. Qed.

(** Two readings of 80 dB and 100 dB held equally long. *)
Lemma twa_80_100 (d : R) :
  d <> 0 ->
  calculateTimeWeightedAverage (Spec.measurements_of [(80, d); (100, d)])
  = Fin (10 * log10 5050000000).
Proof.
  intro Hd.
  rewrite calculateTimeWeightedAverage_counted; [ | discriminate | ].
  - rewrite counted_nonzero by (repeat constructor; exact Hd).
    unfold Spec.energy_mean_db.
    cbn [Spec.energy_sum Spec.time_sum fold_right fst snd].
    rewrite energy_80, energy_100.
    replace ((10 ^ 8 * d + (10 ^ 10 * d + 0)) / (d + (d + 0)))
      with 5050000000 by (field; lra).
    rewrite math_log10_pos by lra. reflexivity.
  - rewrite counted_nonzero by (repeat constructor; exact Hd).
    cbn [Spec.time_sum fold_right snd]. lra.
Qed.

Lemma exposure_step_fin (e t t0 v0 t1 v1 : R) :
  PremiumFeatures.exposure_step (Fin e, Fin t)
    {| PremiumFeatures.timestamp := Fin t0; PremiumFeatures.db := Fin v0 |}
    {| PremiumFeatures.timestamp := Fin t1; PremiumFeatures.db := Fin v1 |}
  = (Fin (e + Spec.energy v0 * ((t1 - t0) / 1000)), Fin (t + (t1 - t0) / 1000)).
Proof.
  unfold PremiumFeatures.exposure_step.
  cbn [PremiumFeatures.timestamp PremiumFeatures.db sub neg add].
  rewrite !div_fin by lra. cbn [Math_pow10 mul add].
  reflexivity.
Qed.

Lemma exposure_loop_cons (current next : PremiumFeatures.ExtendedMeasurement)
    (rest : list PremiumFeatures.ExtendedMeasurement) (acc : number * number) :
  PremiumFeatures.exposure_loop (current :: next :: rest) acc
  = PremiumFeatures.exposure_loop (next :: rest)
      (PremiumFeatures.exposure_step acc current next).
Proof. reflexivity. Qed.

Lemma exposure_loop_fin (l : list (R * R)) : forall e t : R,
  PremiumFeatures.exposure_loop (Spec.readings_of l) (Fin e, Fin t)
  = (Fin (e + Spec.energy_sum (Spec.intervals l)),
     Fin (t + Spec.time_sum (Spec.intervals l))).
Proof.
  induction l as [ | [t0 v0] l IH]; intros e t.
  - cbn. rewrite !Rplus_0_r. reflexivity.
  - destruct l as [ | [t1 v1] l'].
    + cbn. rewrite !Rplus_0_r. reflexivity.
    + specialize (IH (e + Spec.energy v0 * ((t1 - t0) / 1000))
                     (t + (t1 - t0) / 1000)).
      change (Spec.readings_of ((t0, v0) :: (t1, v1) :: l'))
        with ({| PremiumFeatures.timestamp := Fin t0; PremiumFeatures.db := Fin v0 |}
              :: {| PremiumFeatures.timestamp := Fin t1; PremiumFeatures.db := Fin v1 |}
              :: Spec.readings_of l').
      rewrite exposure_loop_cons, exposure_step_fin.
      change ({| PremiumFeatures.timestamp := Fin t1; PremiumFeatures.db := Fin v1 |}
              :: Spec.readings_of l')
        with (Spec.readings_of ((t1, v1) :: l')).
      rewrite IH.
      change (Spec.intervals ((t0, v0) :: (t1, v1) :: l'))
        with ((v0, (t1 - t0) / 1000) :: Spec.intervals ((t1, v1) :: l')).
      unfold Spec.energy_sum, Spec.time_sum. cbn [fold_right fst snd].
      f_equal; f_equal; ring.
Qed.

(** The premium result on finite readings, by the accumulated time. *)
Lemma calculateTimeWeightedExposure_fin (l : list (R * R)) :
  l <> [] ->
  PremiumFeatures.calculateTimeWeightedExposure (Spec.readings_of l)
  = let T := Spec.time_sum (Spec.intervals l) in
    let twDb := if R_ltb 0 T then Spec.energy_mean_db (Spec.intervals l)
                else Fin 0 in
    Some {| PremiumFeatures.value := twDb;
            PremiumFeatures.totalTime := Fin T;
            PremiumFeatures.oshaCompliant := ltb twDb 85;
            PremiumFeatures.exposureRisk :=
              PremiumFeatures.calculateExposureRisk twDb (Fin T) |}.
Proof.
  intro Hne.
  unfold PremiumFeatures.calculateTimeWeightedExposure.
  destruct (Spec.readings_of l) as [ | m ms] eqn:Em.
  { destruct l; [contradiction | discriminate Em]. }
  rewrite <- Em. rewrite exposure_loop_fin. rewrite !Rplus_0_l.
  cbn zeta. unfold gtb. cbn [ltb].
  destruct (R_ltb 0 (Spec.time_sum (Spec.intervals l))) eqn:HT.
  - apply R_ltb_spec in HT. rewrite div_fin by lra. reflexivity.
  - reflexivity.
Qed.

(** C1, as the code has it.  The classifier's time-weighted average of a
    non-empty sequence of (dB value, duration) measurements, a zero
    duration counting as 1, is the energy mean
    [10 * log10 (sum (10^(value/10) * duration) / sum duration)] when the
    counted total time is positive, hence of the measurements themselves when
    no duration is zero; the premium aggregator's value is the energy mean of
    the (value, gap to the next reading) pairs whenever their total time is
    positive.  Two readings of 80 dB and 100 dB of equal non-zero duration
    average to a level between 97.03 and 97.04 dB (within 0.05 dB of 96.99),
    not to 90 dB. *)
Theorem twa_is_energy_weighted :
  (forall l : list (R * R),
     l <> [] -> 0 < Spec.time_sum (Spec.counted l) ->
     calculateTimeWeightedAverage (Spec.measurements_of l)
     = Spec.energy_mean_db (Spec.counted l))
  /\ (forall l : list (R * R),
        l <> [] -> Forall (fun p => snd p <> 0) l -> 0 < Spec.time_sum l ->
        calculateTimeWeightedAverage (Spec.measurements_of l)
        = Spec.energy_mean_db l)
  /\ (forall l : list (R * R),
        0 < Spec.time_sum (Spec.intervals l) ->
        option_map PremiumFeatures.value
          (PremiumFeatures.calculateTimeWeightedExposure (Spec.readings_of l))
        = Some (Spec.energy_mean_db (Spec.intervals l)))
  /\ (forall d : R,
        d <> 0 ->
        exists twa : R,
          calculateTimeWeightedAverage (Spec.measurements_of [(80, d); (100, d)])
          = Fin twa
          /\ 9703 / 100 < twa < 9704 / 100
          /\ Rabs (twa - 9699 / 100) < 5 / 100
          /\ twa <> 90).
Proof.
  split; [ | split; [ | split]].
  - intros l Hne HT. apply calculateTimeWeightedAverage_counted; [exact Hne | lra].
  - intros l Hne Hnz HT.
    rewrite <- (counted_nonzero l Hnz) at 2.
    apply calculateTimeWeightedAverage_counted; [exact Hne|].
    rewrite (counted_nonzero l Hnz). lra.
  - intros l HT.
    assert (Hne : l <> []) by (intro E; subst l; cbn in HT; lra).
    rewrite (calculateTimeWeightedExposure_fin l Hne).
    cbn zeta. rewrite (R_ltb_true _ _ HT). reflexivity.
  - intros d Hd. exists (10 * log10 5050000000).
    split; [apply twa_80_100; exact Hd|].
    generalize log10_mean_80_100. intros [Hlo Hhi].
    split; [lra|]. split; [ | lra].
    unfold Rabs. destruct (Rcase_abs _); lra.
Qed.

Lemma twa_is_energy_weighted_witness :
  calculateTimeWeightedAverage (Spec.measurements_of [(60, 10); (90, 10); (70, 10)])
  = Spec.energy_mean_db [(60, 10); (90, 10); (70, 10)]
  /\ option_map PremiumFeatures.value
       (PremiumFeatures.calculateTimeWeightedExposure
          (Spec.readings_of [(0, 60); (10000, 90); (20000, 70); (30000, 70)]))
     = Some (Spec.energy_mean_db [(60, 10); (90, 10); (70, 10)]).
Proof.
  destruct twa_is_energy_weighted as (_ & Hnz & Hprem & _).
  split.
  - apply Hnz.
    + discriminate.
    + repeat constructor; cbn [snd]; lra.
    + cbn [Spec.time_sum fold_right snd]. lra.
  - replace [(60, 10); (90, 10); (70, 10)]
      with (Spec.intervals [(0, 60); (10000, 90); (20000, 70); (30000, 70)]).
    + apply Hprem. cbn [Spec.intervals Spec.time_sum fold_right snd]. lra.
    + cbn [Spec.intervals]. repeat f_equal; lra.
Defined.

(** C1 fails as stated on the classifier: with a zero duration in the
    sequence the total time is still positive, but the classifier counts
    the zero as 1 and does not return the energy mean of the measurements. *)
Lemma twa_zero_duration_counted_as_one :
  0 < Spec.time_sum [(80, 0); (100, 1)]
  /\ Spec.energy_mean_db [(80, 0); (100, 1)] = Fin 100
  /\ calculateTimeWeightedAverage (Spec.measurements_of [(80, 0); (100, 1)])
     = Fin (10 * log10 5050000000)
  /\ calculateTimeWeightedAverage (Spec.measurements_of [(80, 0); (100, 1)])
     <> Spec.energy_mean_db [(80, 0); (100, 1)].
Proof.
  assert (HT : 0 < Spec.time_sum [(80, 0); (100, 1)])
    by (cbn [Spec.time_sum fold_right snd]; lra).
  assert (Hspec : Spec.energy_mean_db [(80, 0); (100, 1)] = Fin 100).
  { unfold Spec.energy_mean_db.
    cbn [Spec.energy_sum Spec.time_sum fold_right fst snd].
    rewrite energy_80, energy_100.
    replace ((10 ^ 8 * 0 + (10 ^ 10 * 1 + 0)) / (0 + (1 + 0))) with (10 ^ 10)
      by (field; lra).
    rewrite math_log10_pos by (apply pow_lt; lra).
    cbn [mul]. f_equal. unfold log10. rewrite ln_pow by lra.
    replace (INR 10) with 10 by (rewrite INR_IZR_INZ; reflexivity).
    field. generalize ln_10_pos; lra. }
  assert (Hcode :
    calculateTimeWeightedAverage (Spec.measurements_of [(80, 0); (100, 1)])
    = Fin (10 * log10 5050000000)).
  { rewrite calculateTimeWeightedAverage_counted; [ | discriminate | ].
    - unfold Spec.energy_mean_db.
      cbn [Spec.counted map Spec.energy_sum Spec.time_sum fold_right fst snd].
      rdecide.
      rewrite energy_80, energy_100.
      replace ((10 ^ 8 * 1 + (10 ^ 10 * 1 + 0)) / (1 + (1 + 0)))
        with 5050000000 by (field; lra).
      rewrite math_log10_pos by lra. reflexivity.
    - cbn [Spec.counted map Spec.time_sum fold_right fst snd]. rdecide. lra. }
  split; [exact HT|]. split; [exact Hspec|]. split; [exact Hcode|].
  rewrite Hcode, Hspec. intro E. apply Fin_inj in E.
  generalize log10_mean_80_100. lra.
Qed.

End TimeWeightedAverage.

(* ================================================================== *)
(** ** Degenerate measurement sets *)
(* ================================================================== *)

Section Degenerate.

Import NoiseClassifier.

Lemma intervals_same_time (t0 : R) (l : list (R * R)) :
  Forall (fun p => fst p = t0) l -> Spec.time_sum (Spec.intervals l) = 0.
Proof.
  induction l as [ | [ta va] l IH]; intro Hall.
  - reflexivity.
  - destruct l as [ | [tb vb] l'].
    + reflexivity.
    + inversion Hall as [ | ? ? Ha Hrest]; subst.
      inversion Hrest as [ | ? ? Hb _]; subst.
      cbn [fst] in *.
      change (Spec.intervals ((ta, va) :: (tb, vb) :: l'))
        with ((va, (tb - ta) / 1000) :: Spec.intervals ((tb, vb) :: l')).
      unfold Spec.time_sum in *. cbn [fold_right snd].
      rewrite (IH Hrest). subst tb. lra.
Qed.

Lemma log10_energy (v : R) : log10 (Spec.energy v) = v / 10.
Proof.
  unfold log10, Spec.energy, Rpower. rewrite ln_exp.
  field. generalize ln_10_pos; lra.
Qed.

Lemma energy_pos (v : R) : 0 < Spec.energy v.
Proof. unfold Spec.energy, Rpower. apply exp_pos. Qed.

(** One measurement: the classifier returns that measurement's level. *)
Lemma calculateTimeWeightedAverage_single (v d : R) :
  calculateTimeWeightedAverage (Spec.measurements_of [(v, d)]) = Fin v.
Proof.
  assert (Hc : (if R_eqb d 0 then 1 else d) <> 0).
  { destruct (Req_dec_T d 0) as [E | E].
    - rewrite (R_eqb_true _ _ E). lra.
    - rewrite (R_eqb_false _ _ E). exact E. }
  rewrite calculateTimeWeightedAverage_counted; [ | discriminate | ].
  - unfold Spec.energy_mean_db.
    cbn [Spec.counted map Spec.energy_sum Spec.time_sum fold_right fst snd].
    set (c := if R_eqb d 0 then 1 else d) in *.
    replace ((Spec.energy v * c + 0) / (c + 0)) with (Spec.energy v)
      by (field; exact Hc).
    rewrite math_log10_pos by apply energy_pos.
    rewrite log10_energy. cbn [mul]. f_equal. field.
  - cbn [Spec.counted map Spec.time_sum fold_right fst snd]. lra.
Qed.

(** A counted total time of 0: the classifier returns 0. *)
Lemma calculateTimeWeightedAverage_no_time (l : list (R * R)) :
  l <> [] -> Spec.time_sum (Spec.counted l) = 0 ->
  calculateTimeWeightedAverage (Spec.measurements_of l) = Fin 0.
Proof.
  intros Hne HT.
  unfold calculateTimeWeightedAverage.
  destruct (Spec.measurements_of l) as [ | m ms] eqn:Em.
  { reflexivity. }
  rewrite <- Em. rewrite twa_loop_fin. rewrite !Rplus_0_l.
  cbn [eqb]. rewrite (R_eqb_true _ 0 HT). reflexivity.
Qed.

(** C5, as the code has it.  For a non-empty set of readings that all carry
    one timestamp (a single reading included) the premium aggregator returns
    an ordinary result object whose TWA value is the number 0, next to a
    total time of 0, a compliance flag and a risk computed from that 0;
    no insufficient-data status is reported.  The classifier's average of a
    single measurement is that measurement's own level, and it is the number
    0 when the counted total time is 0. *)
Theorem twa_degenerate_is_zero (l : list (R * R))
    (Hne : l <> []) (t0 : R) (Hsame : Forall (fun p => fst p = t0) l) :
  PremiumFeatures.calculateTimeWeightedExposure (Spec.readings_of l)
  = Some {| PremiumFeatures.value := Fin 0;
            PremiumFeatures.totalTime := Fin 0;
            PremiumFeatures.oshaCompliant := true;
            PremiumFeatures.exposureRisk := "minimal" |}
  /\ Spec.report_of
       (PremiumFeatures.calculateTimeWeightedExposure (Spec.readings_of l))
     = Spec.Twa (Fin 0)
  /\ (forall v d : R,
        calculateTimeWeightedAverage (Spec.measurements_of [(v, d)]) = Fin v)
  /\ (forall m : list (R * R),
        m <> [] -> Spec.time_sum (Spec.counted m) = 0 ->
        calculateTimeWeightedAverage (Spec.measurements_of m) = Fin 0).
Proof.
  assert (HT := intervals_same_time t0 l Hsame).
  assert (Hres :
    PremiumFeatures.calculateTimeWeightedExposure (Spec.readings_of l)
    = Some {| PremiumFeatures.value := Fin 0;
              PremiumFeatures.totalTime := Fin 0;
              PremiumFeatures.oshaCompliant := true;
              PremiumFeatures.exposureRisk := "minimal" |}).
  { rewrite (calculateTimeWeightedExposure_fin l Hne). cbn zeta.
    rewrite HT. rewrite (R_ltb_false 0 0) by lra.
    unfold PremiumFeatures.calculateExposureRisk.
    cbn [geb leb ltb]. rdecide. reflexivity. }
  split; [exact Hres|].
  split; [rewrite Hres; reflexivity|].
  split; [exact calculateTimeWeightedAverage_single|].
  exact calculateTimeWeightedAverage_no_time.
Qed.

Lemma twa_degenerate_is_zero_witness :
  option_map PremiumFeatures.value
    (PremiumFeatures.calculateTimeWeightedExposure
       (Spec.readings_of [(5000, 70); (5000, 95)]))
  = Some (Fin 0).
Proof.
  assert (Hne : [(5000, 70); (5000, 95)] <> @nil (R * R)) by discriminate.
  assert (Hsame : Forall (fun p : R * R => fst p = 5000) [(5000, 70); (5000, 95)])
    by (repeat constructor).
  rewrite (proj1 (twa_degenerate_is_zero _ Hne 5000 Hsame)).
  reflexivity.
Defined.

(** C5 fails as stated: a session of one reading has accumulated time 0,
    for which the specification asks an insufficient-data report, and the
    premium aggregator reports the level 0 with the compliance flag set. *)
Lemma single_reading_reports_zero :
  Spec.twa_report [(0, 70)] = Spec.InsufficientData
  /\ Spec.report_of
       (PremiumFeatures.calculateTimeWeightedExposure (Spec.readings_of [(0, 70)]))
     = Spec.Twa (Fin 0)
  /\ Spec.report_of
       (PremiumFeatures.calculateTimeWeightedExposure (Spec.readings_of [(0, 70)]))
     <> Spec.twa_report [(0, 70)]
  /\ option_map PremiumFeatures.oshaCompliant
       (PremiumFeatures.calculateTimeWeightedExposure (Spec.readings_of [(0, 70)]))
     = Some true.
Proof.
  assert (Hspec : Spec.twa_report [(0, 70)] = Spec.InsufficientData).
  { unfold Spec.twa_report. cbn [Spec.intervals Spec.time_sum fold_right].
    rewrite (R_eqb_true 0 0) by reflexivity. reflexivity. }
  assert (Hcode :
    PremiumFeatures.calculateTimeWeightedExposure (Spec.readings_of [(0, 70)])
    = Some {| PremiumFeatures.value := Fin 0;
              PremiumFeatures.totalTime := Fin 0;
              PremiumFeatures.oshaCompliant := true;
              PremiumFeatures.exposureRisk := "minimal" |}).
  { rewrite calculateTimeWeightedExposure_fin by discriminate. cbn zeta.
    cbn [Spec.intervals Spec.time_sum fold_right].
    rewrite (R_ltb_false 0 0) by lra.
    unfold PremiumFeatures.calculateExposureRisk.
    cbn [geb leb ltb]. rdecide. reflexivity. }
  rewrite Hcode, Hspec. cbn [Spec.report_of PremiumFeatures.value option_map
                             PremiumFeatures.oshaCompliant].
  repeat split. discriminate.
Qed.

End Degenerate.

(* ================================================================== *)
(** ** Compliance flags *)
(* ================================================================== *)

Section ComplianceFlags.

Import NoiseClassifier.









End ComplianceFlags.

(* ================================================================== *)
(** ** The level meter *)
(* ================================================================== *)

Section LevelMeter.

Import AudioProcessor.

Lemma add_zero_r (a : number) : add a (Fin 0) = a.
Proof. destruct a; cbn [add]; try reflexivity. rewrite Rplus_0_r. reflexivity. Qed.

Lemma clamp_neg_inf : clamp NegInf = Fin 20.
Proof. reflexivity. Qed.

Lemma clamp_in_range (x : R) : 20 <= x <= 140 -> clamp (Fin x) = Fin x.
Proof.
  intro Hx. unfold clamp, Math_min, Math_max. cbn [leb].
  destruct (Rle_dec 140 x) as [H | H].
  - rewrite (R_leb_true _ _ H). cbn [leb]. rdecide. f_equal. lra.
  - rewrite (R_leb_false 140 x) by lra. cbn [leb]. rdecide. reflexivity.
Qed.

Lemma clamp_fin (x : R) :
  clamp (Fin x) = Fin (if R_leb x 20 then 20 else if R_leb 140 x then 140 else x).
Proof.
  unfold clamp, Math_min, Math_max. cbn [leb].
  destruct (Rle_dec 140 x) as [H | H].
  - rewrite (R_leb_true _ _ H). cbn [leb]. rdecide. reflexivity.
  - rewrite (R_leb_false 140 x) by lra. cbn [leb].
    destruct (Rle_dec x 20) as [H' | H'].
    + rewrite (R_leb_true _ _ H'). destruct (Rle_dec 20 x) as [H2 | H2].
      * rewrite (R_leb_true _ _ H2). f_equal. lra.
      * rewrite (R_leb_false 20 x) by lra. reflexivity.
    + rewrite (R_leb_false x 20) by lra. rdecide. reflexivity.
Qed.

(** A reading that is a number lies within the clamp range. *)
Lemma clamp_range (a : number) :
  clamp a = NaN \/ exists x : R, clamp a = Fin x /\ 20 <= x <= 140.
Proof.
  destruct a as [ | | | x].
  - left. reflexivity.
  - right. exists 20. split; [reflexivity | lra].
  - right. exists 140. split; [ | lra].
    unfold clamp, Math_min, Math_max. cbn [leb]. rdecide. reflexivity.
  - right. rewrite clamp_fin. eexists. split; [reflexivity|].
    rsplit; lra.
Qed.

(** The loop of [calculateRMS] over equal samples. *)
Lemma rms_sum_constant (b : Byte.byte) (a : R) (timeData : list Byte.byte) :
  (forall s : R, rms_step (Fin s) b = Fin (s + a)) ->
  Forall (fun b' => b' = b) timeData ->
  forall s : R,
    fold_left rms_step timeData (Fin s) = Fin (s + INR (List.length timeData) * a).
Proof.
  intros Hstep Hall. induction Hall as [ | b' l Hb _ IH]; intro s.
  - cbn [fold_left List.length INR]. f_equal. ring.
  - subst b'. cbn [fold_left]. rewrite Hstep, IH.
    change (List.length (b :: l)) with (S (List.length l)).
    rewrite S_INR. f_equal. ring.
Qed.

Lemma rms_step_silence (s : R) : rms_step (Fin s) Byte.x80 = Fin (s + 0).
Proof.
  unfold rms_step.
  change (sample_value Byte.x80) with (Fin 128).
  cbn [sub neg add]. rewrite div_fin by lra. cbn [mul add].
  f_equal. field.
Qed.

Lemma rms_step_full_scale (s : R) : rms_step (Fin s) Byte.x00 = Fin (s + 1).
Proof.
  unfold rms_step.
  change (sample_value Byte.x00) with (Fin 0).
  cbn [sub neg add]. rewrite div_fin by lra. cbn [mul add].
  f_equal. field.
Qed.

Lemma length_pos_INR {A : Type} (l : list A) : l <> [] -> INR (List.length l) <> 0.
Proof. intro H. apply not_0_INR. destruct l; [contradiction | discriminate]. Qed.

Lemma calculateRMS_silence (timeData : list Byte.byte) :
  Spec.silent timeData -> calculateRMS timeData = Fin 0.
Proof.
  intros [Hne Hall]. unfold calculateRMS.
  rewrite (rms_sum_constant Byte.x80 0 timeData rms_step_silence Hall).
  unfold of_nat. rewrite div_fin by (apply length_pos_INR; exact Hne).
  cbn [Math_sqrt].
  replace ((0 + INR (List.length timeData) * 0) / INR (List.length timeData))
    with 0 by (field; apply length_pos_INR; exact Hne).
  rdecide. rewrite sqrt_0. reflexivity.
Qed.

(** A frame of samples at one end of the scale has RMS 1 and raw level
    94 dB. *)
Lemma calculateRMS_full_scale (timeData : list Byte.byte) :
  timeData <> [] -> Forall (fun b => b = Byte.x00) timeData ->
  calculateRMS timeData = Fin 1.
Proof.
  intros Hne Hall. unfold calculateRMS.
  rewrite (rms_sum_constant Byte.x00 1 timeData rms_step_full_scale Hall).
  unfold of_nat. rewrite div_fin by (apply length_pos_INR; exact Hne).
  cbn [Math_sqrt].
  replace ((0 + INR (List.length timeData) * 1) / INR (List.length timeData))
    with 1 by (field; apply length_pos_INR; exact Hne).
  rdecide. rewrite sqrt_1. reflexivity.
Qed.

Lemma convertRMSToDecibels_one : convertRMSToDecibels (Fin 1) = Fin 94.
Proof.
  unfold convertRMSToDecibels. cbn [leb]. rdecide.
  rewrite math_log10_pos by lra. cbn [mul add].
  unfold log10. rewrite ln_1. f_equal. field. generalize ln_10_pos; lra.
Qed.

(** A read that is serviced with the gate open samples the frame. *)
Lemma getCurrentDecibels_fresh (ap : Processor) (now : number)
    (timeData : list Byte.byte) :
  Spec.servicing ap -> Spec.gate_open ap now ->
  getCurrentDecibels ap now (SampleFrame timeData)
  = (clamp (add (Spec.raw_level timeData) (calibrationOffset ap)),
     with_reading ap
       (clamp (add (Spec.raw_level timeData) (calibrationOffset ap))) now).
Proof.
  intros (Hi & Hm & Ha) Hg. unfold getCurrentDecibels.
  rewrite Hi, Hm. destruct (analyser ap); [ | contradiction].
  cbn [negb orb]. unfold Spec.gate_open in Hg. rewrite Hg. reflexivity.
Qed.

(** A read that is serviced within the update interval answers the cached
    value and does not look at the frame. *)
Lemma getCurrentDecibels_cached (ap : Processor) (now : number)
    (sampling : Sampling) :
  Spec.servicing ap ->
  ltb (sub now (lastUpdateTime ap)) (updateInterval ap) = true ->
  getCurrentDecibels ap now sampling = (currentDecibels ap, ap).
Proof.
  intros (Hi & Hm & Ha) Hg. unfold getCurrentDecibels.
  rewrite Hi, Hm. destruct (analyser ap); [ | contradiction].
  cbn [negb orb]. rewrite Hg. reflexivity.
Qed.

Lemma Forall_repeat_eq {A : Type} (a : A) (n : nat) :
  Forall (fun b => b = a) (repeat a n).
Proof. induction n; cbn [repeat]; constructor; [reflexivity | assumption]. Qed.

Lemma repeat_nonempty {A : Type} (a : A) (n : nat) : repeat a (S n) <> [].
Proof. discriminate. Qed.

(** A processor that has been initialised without a stored calibration and
    has started measuring. *)
Lemma started_servicing :
  Spec.servicing (with_measuring (initialize constructor None) true true).
Proof. repeat split. discriminate. Qed.

Lemma started_gate_open (t : R) :
  1000 / 60 <= t ->
  Spec.gate_open (with_measuring (initialize constructor None) true true) (Fin t).
Proof.
  intro Ht. unfold Spec.gate_open.
  cbn [with_measuring initialize loadCalibration constructor
       lastUpdateTime updateInterval sub neg add ltb].
  apply R_ltb_false. lra.
Qed.

(** C9.  When the processor services the read with the gate open and its
    calibration offset is a number below positive infinity, and the sample
    frame is silence (a non-empty frame of samples at the midpoint 128),
    the RMS is 0, the conversion gives negative infinity, which stays
    negative infinity under the offset, and [getCurrentDecibels] returns
    the floor 20 and caches it; the result is a number and no exception is
    raised. *)
Theorem silence_reads_floor (ap : Processor) (now : number)
    (timeData : list Byte.byte)
    (Hserv : Spec.servicing ap) (Hgate : Spec.gate_open ap now)
    (Hoff : calibrationOffset ap <> NaN)
    (Hinf : calibrationOffset ap <> PosInf)
    (Hsil : Spec.silent timeData) :
  calculateRMS timeData = Fin 0
  /\ convertRMSToDecibels (calculateRMS timeData) = NegInf
  /\ add (convertRMSToDecibels (calculateRMS timeData)) (calibrationOffset ap)
     = NegInf
  /\ getCurrentDecibels ap now (SampleFrame timeData)
     = (Fin 20, with_reading ap (Fin 20) now)
  /\ fst (getCurrentDecibels ap now (SampleFrame timeData)) <> NaN.
Proof.
  assert (Hrms := calculateRMS_silence timeData Hsil).
  assert (Hdb : convertRMSToDecibels (calculateRMS timeData) = NegInf).
  { rewrite Hrms. unfold convertRMSToDecibels. cbn [leb]. rdecide. reflexivity. }
  assert (Hadd : add NegInf (calibrationOffset ap) = NegInf).
  { destruct (calibrationOffset ap); try reflexivity; contradiction. }
  assert (Hget : getCurrentDecibels ap now (SampleFrame timeData)
                 = (Fin 20, with_reading ap (Fin 20) now)).
  { rewrite (getCurrentDecibels_fresh ap now timeData Hserv Hgate).
    unfold Spec.raw_level. rewrite Hdb, Hadd.
    rewrite clamp_neg_inf. reflexivity. }
  split; [exact Hrms|]. split; [exact Hdb|].
  split; [rewrite Hdb; exact Hadd|].
  split; [exact Hget|].
  rewrite Hget. discriminate.
Qed.

Lemma silence_reads_floor_witness :
  fst (getCurrentDecibels (with_measuring (initialize constructor None) true true)
         (Fin 1000) (SampleFrame (repeat Byte.x80 2048)))
  = Fin 20.
Proof.
  assert (Hsil : Spec.silent (repeat Byte.x80 2048))
    by (split; [apply repeat_nonempty | apply Forall_repeat_eq]).
  assert (Hgate := started_gate_open 1000 ltac:(lra)).
  rewrite (proj1 (proj2 (proj2 (proj2
    (silence_reads_floor _ (Fin 1000) _ started_servicing Hgate
       ltac:(discriminate) ltac:(discriminate) Hsil))))).
  reflexivity.
Defined.

(** With a calibration offset of positive infinity, which
    [setCalibrationOffset] stores like any other number and which
    [loadCalibration] takes over from the storage as it is, the reading of
    silence is NaN: negative infinity plus positive infinity, which the
    clamp lets through. *)
Lemma silence_with_infinite_offset_reads_nan :
  Spec.silent (repeat Byte.x80 2048)
  /\ fst (getCurrentDecibels
            (setCalibrationOffset
               (with_measuring (initialize constructor None) true true) PosInf)
            (Fin 1000) (SampleFrame (repeat Byte.x80 2048)))
     = NaN
  /\ calibrationOffset
       (with_measuring (initialize constructor (Some PosInf)) true true)
     = PosInf
  /\ fst (getCurrentDecibels
            (with_measuring (initialize constructor (Some PosInf)) true true)
            (Fin 1000) (SampleFrame (repeat Byte.x80 2048)))
     = NaN.
Proof.
  assert (Hsil : Spec.silent (repeat Byte.x80 2048))
    by (split; [apply repeat_nonempty | apply Forall_repeat_eq]).
  assert (Hnan : forall ap : Processor,
            Spec.servicing ap -> Spec.gate_open ap (Fin 1000) ->
            calibrationOffset ap = PosInf ->
            fst (getCurrentDecibels ap (Fin 1000)
                   (SampleFrame (repeat Byte.x80 2048))) = NaN).
  { intros ap Hserv Hgate Hoff.
    rewrite (getCurrentDecibels_fresh ap (Fin 1000) _ Hserv Hgate).
    cbn [fst]. unfold Spec.raw_level.
    rewrite (calculateRMS_silence _ Hsil), Hoff.
    unfold convertRMSToDecibels. cbn [leb]. rdecide.
    reflexivity. }
  split; [exact Hsil|]. split; [ | split; [reflexivity|]].
  - apply Hnan; [repeat split; discriminate | | reflexivity].
    unfold Spec.gate_open.
    cbn [setCalibrationOffset with_measuring initialize loadCalibration
         with_calibrationOffset constructor lastUpdateTime updateInterval
         sub neg add ltb].
    apply R_ltb_false. lra.
  - apply Hnan; [repeat split; discriminate | | reflexivity].
    unfold Spec.gate_open.
    cbn [with_measuring initialize loadCalibration with_calibrationOffset
         constructor lastUpdateTime updateInterval sub neg add ltb].
    apply R_ltb_false. lra.
Qed.

(** C10.  A processor that is not initialised, not measuring or without an
    analyser answers 0 and is left as it was; 0 is below the floor 20 of the
    clamp range.  When the read is serviced, the gate is open and sampling
    throws, the answer is the cached value, or 0 when the cached value is 0
    or NaN, and the processor is left as it was.  A sampled reading that is
    a number lies between 20 and 140, so only an idle or failed read answers
    a value below the floor. *)
Theorem idle_or_failed_read (ap : Processor) (now : number) (sampling : Sampling) :
  (isInitialized ap = false -> getCurrentDecibels ap now sampling = (Fin 0, ap))
  /\ (isMeasuring ap = false -> getCurrentDecibels ap now sampling = (Fin 0, ap))
  /\ (analyser ap = None -> getCurrentDecibels ap now sampling = (Fin 0, ap))
  /\ ltb (Fin 0) (Fin 20) = true
  /\ (Spec.servicing ap -> Spec.gate_open ap now ->
      getCurrentDecibels ap now SamplingThrows
      = (or_else (currentDecibels ap) (Fin 0), ap)
      /\ (truthy (currentDecibels ap) = true ->
          fst (getCurrentDecibels ap now SamplingThrows) = currentDecibels ap)
      /\ (truthy (currentDecibels ap) = false ->
          fst (getCurrentDecibels ap now SamplingThrows) = Fin 0))
  /\ (Spec.servicing ap -> Spec.gate_open ap now ->
      forall timeData : list Byte.byte,
        fst (getCurrentDecibels ap now (SampleFrame timeData)) = NaN
        \/ exists x : R,
             fst (getCurrentDecibels ap now (SampleFrame timeData)) = Fin x
             /\ 20 <= x <= 140)
  /\ getCurrentDecibels constructor now sampling = (Fin 0, constructor).
Proof.
  split; [ | split; [ | split; [ | split; [ | split; [ | split]]]]].
  - intro H. unfold getCurrentDecibels. rewrite H. reflexivity.
  - intro H. unfold getCurrentDecibels. rewrite H.
    rewrite orb_true_r. reflexivity.
  - intro H. unfold getCurrentDecibels. rewrite H.
    rewrite orb_true_r. reflexivity.
  - cbn [ltb]. apply R_ltb_true. lra.
  - intros (Hi & Hm & Ha) Hg.
    assert (Hget : getCurrentDecibels ap now SamplingThrows
                   = (or_else (currentDecibels ap) (Fin 0), ap)).
    { unfold getCurrentDecibels. rewrite Hi, Hm.
      destruct (analyser ap); [ | contradiction].
      cbn [negb orb]. unfold Spec.gate_open in Hg. rewrite Hg. reflexivity. }
    split; [exact Hget|].
    rewrite Hget. cbn [fst]. unfold or_else.
    split; intro Ht; rewrite Ht; reflexivity.
  - intros Hserv Hg timeData.
    rewrite (getCurrentDecibels_fresh ap now timeData Hserv Hg). cbn [fst].
    apply clamp_range.
  - reflexivity.
Qed.

Lemma idle_or_failed_read_witness :
  getCurrentDecibels (stopMeasuring (with_measuring (initialize constructor None) true true))
    (Fin 1000) (SampleFrame (repeat Byte.x00 2048))
  = (Fin 0, stopMeasuring (with_measuring (initialize constructor None) true true))
  /\ getCurrentDecibels (with_measuring (initialize constructor None) true true)
       (Fin 1000) SamplingThrows
     = (Fin 0, with_measuring (initialize constructor None) true true).
Proof.
  split.
  - apply (proj1 (proj2 (idle_or_failed_read _ _ _))). reflexivity.
  - destruct (proj1 (proj2 (proj2 (proj2 (proj2
        (idle_or_failed_read
           (with_measuring (initialize constructor None) true true)
           (Fin 1000) SamplingThrows)))))
        started_servicing (started_gate_open 1000 ltac:(lra))) as (H & _ & _).
    rewrite H. unfold or_else, truthy.
    cbn [with_measuring initialize loadCalibration constructor currentDecibels].
    rewrite (R_eqb_true 0 0) by reflexivity. reflexivity.
Defined.

(** [calibrate] when its reading is sampled: the reading is taken with the
    offset set to 0, and the stored offset is the previous offset plus the
    difference to the reference. *)
Lemma calibrate_fresh (ap : Processor) (level now : number)
    (timeData : list Byte.byte) :
  Spec.servicing ap -> Spec.gate_open ap now ->
  calibrate ap level now (SampleFrame timeData)
  = let x := Spec.uncalibrated_reading timeData in
    let offset := add (calibrationOffset ap) (sub level x) in
    Returned
      (offset,
       with_referenceLevel
         (with_calibrationOffset
            (with_reading (with_calibrationOffset ap (Fin 0)) x now) offset)
         level).
Proof.
  intros Hserv Hg.
  assert (Hserv0 : Spec.servicing (with_calibrationOffset ap (Fin 0)))
    by exact Hserv.
  assert (Hg0 : Spec.gate_open (with_calibrationOffset ap (Fin 0)) now)
    by exact Hg.
  destruct Hserv as (Hi & Hm & _).
  unfold calibrate. rewrite Hi, Hm. cbn [negb orb].
  rewrite (getCurrentDecibels_fresh _ now timeData Hserv0 Hg0).
  cbn [with_calibrationOffset calibrationOffset].
  rewrite add_zero_r. reflexivity.
Qed.

(** The read that follows a calibration, once the gate has opened again. *)
Lemma read_after_calibrate (ap : Processor) (x offset level now now' : number)
    (timeData : list Byte.byte) :
  Spec.servicing ap ->
  ltb (sub now' now) (updateInterval ap) = false ->
  getCurrentDecibels
    (with_referenceLevel
       (with_calibrationOffset
          (with_reading (with_calibrationOffset ap (Fin 0)) x now) offset)
       level)
    now' (SampleFrame timeData)
  = (clamp (add (Spec.raw_level timeData) offset),
     with_reading
       (with_referenceLevel
          (with_calibrationOffset
             (with_reading (with_calibrationOffset ap (Fin 0)) x now) offset)
          level)
       (clamp (add (Spec.raw_level timeData) offset)) now').
Proof.
  intros Hserv Hg.
  rewrite getCurrentDecibels_fresh; [reflexivity | exact Hserv | exact Hg].
Qed.

(** C7, as the code has it.  When no offset is in effect (the stored
    offset is 0) and [calibrate(y)] samples the uncalibrated reading [x] of
    the frame, it succeeds and stores the offset [y - x], the value the
    calibrator module computes for the two levels; the next sampled reading
    of the same frame is the raw level plus [y - x], clamped to 20..140,
    which is [y] when the raw level is [x] itself and [y] lies in the clamp
    range. *)
Theorem calibrate_offset_and_next_reading (ap : Processor) (now now' : number)
    (timeData : list Byte.byte) (x y : R)
    (Hserv : Spec.servicing ap) (Hgate : Spec.gate_open ap now)
    (Hnext : ltb (sub now' now) (updateInterval ap) = false)
    (Hzero : calibrationOffset ap = Fin 0)
    (Hx : Spec.uncalibrated_reading timeData = Fin x) :
  exists ap' : Processor,
    calibrate ap (Fin y) now (SampleFrame timeData) = Returned (Fin (y - x), ap')
    /\ calibrationOffset ap' = Fin (y - x)
    /\ calibrationOffset ap' = Calibrator.calculateCalibrationOffset (Fin x) (Fin y)
    /\ referenceLevel ap' = Fin y
    /\ fst (getCurrentDecibels ap' now' (SampleFrame timeData))
       = clamp (add (Spec.raw_level timeData) (Fin (y - x)))
    /\ (Spec.raw_level timeData = Fin x -> 20 <= y <= 140 ->
        fst (getCurrentDecibels ap' now' (SampleFrame timeData)) = Fin y).
Proof.
  assert (Hoff : add (calibrationOffset ap)
                   (sub (Fin y) (Spec.uncalibrated_reading timeData))
                 = Fin (y - x)).
  { rewrite Hzero, Hx. cbn [sub neg add]. f_equal. lra. }
  exists (with_referenceLevel
            (with_calibrationOffset
               (with_reading (with_calibrationOffset ap (Fin 0))
                  (Spec.uncalibrated_reading timeData) now)
               (Fin (y - x)))
            (Fin y)).
  split.
  { rewrite (calibrate_fresh ap (Fin y) now timeData Hserv Hgate).
    cbn zeta. rewrite Hoff. reflexivity. }
  cbn [with_referenceLevel with_calibrationOffset calibrationOffset referenceLevel].
  split; [reflexivity|].
  split; [unfold Calibrator.calculateCalibrationOffset; reflexivity|].
  split; [reflexivity|].
  rewrite (read_after_calibrate ap _ _ _ now now' timeData Hserv Hnext).
  cbn [fst].
  split; [reflexivity|].
  intros Hraw Hy. rewrite Hraw. cbn [add].
  replace (x + (y - x)) with y by lra.
  apply clamp_in_range. exact Hy.
Qed.

Lemma calibrate_offset_and_next_reading_witness :
  exists ap' : Processor,
    calibrate (with_measuring (initialize constructor None) true true)
      (Fin 100) (Fin 1000) (SampleFrame (repeat Byte.x00 2048))
    = Returned (Fin (100 - 94), ap')
    /\ fst (getCurrentDecibels ap' (Fin 2000) (SampleFrame (repeat Byte.x00 2048)))
       = Fin 100.
Proof.
  assert (Hraw : Spec.raw_level (repeat Byte.x00 2048) = Fin 94).
  { unfold Spec.raw_level.
    rewrite calculateRMS_full_scale
      by (try apply repeat_nonempty; apply Forall_repeat_eq).
    apply convertRMSToDecibels_one. }
  assert (Hun : Spec.uncalibrated_reading (repeat Byte.x00 2048) = Fin 94)
    by (unfold Spec.uncalibrated_reading; rewrite Hraw;
        apply clamp_in_range; lra).
  assert (Hnext : ltb (sub (Fin 2000) (Fin 1000))
                    (updateInterval (with_measuring (initialize constructor None) true true))
                  = false).
  { cbn [with_measuring initialize loadCalibration constructor updateInterval
         sub neg add ltb]. apply R_ltb_false. lra. }
  destruct (calibrate_offset_and_next_reading
              (with_measuring (initialize constructor None) true true)
              (Fin 1000) (Fin 2000) (repeat Byte.x00 2048) 94 100
              started_servicing (started_gate_open 1000 ltac:(lra)) Hnext
              eq_refl Hun)
    as (ap' & Hcal & _ & _ & _ & _ & Hread).
  exists ap'. split; [exact Hcal|].
  apply Hread; [exact Hraw | lra].
Defined.

(** C7 fails as stated when an offset is already in effect: with a previous
    offset of 5 dB, a frame whose uncalibrated reading is 94 dB and the
    reference 100 dB, the stored offset is 11 dB, not 6 dB, and the next
    sampled reading of the same frame is 105 dB, not 100 dB. *)
Lemma calibrate_adds_previous_offset :
  let ap := setCalibrationOffset
              (with_measuring (initialize constructor None) true true) (Fin 5) in
  let frame := repeat Byte.x00 2048 in
  Spec.uncalibrated_reading frame = Fin 94
  /\ exists ap' : Processor,
       calibrate ap (Fin 100) (Fin 1000) (SampleFrame frame)
       = Returned (calibrationOffset ap', ap')
       /\ calibrationOffset ap' = Fin 11
       /\ calibrationOffset ap' <> Fin (100 - 94)
       /\ fst (getCurrentDecibels ap' (Fin 2000) (SampleFrame frame)) = Fin 105
       /\ fst (getCurrentDecibels ap' (Fin 2000) (SampleFrame frame)) <> Fin 100.
Proof.
  intros ap frame.
  assert (Hraw : Spec.raw_level frame = Fin 94).
  { unfold Spec.raw_level, frame.
    rewrite calculateRMS_full_scale
      by (try apply repeat_nonempty; apply Forall_repeat_eq).
    apply convertRMSToDecibels_one. }
  assert (Hun : Spec.uncalibrated_reading frame = Fin 94)
    by (unfold Spec.uncalibrated_reading; rewrite Hraw;
        apply clamp_in_range; lra).
  assert (Hserv : Spec.servicing ap) by (repeat split; discriminate).
  assert (Hgate : Spec.gate_open ap (Fin 1000))
    by (exact (started_gate_open 1000 ltac:(lra))).
  assert (Hnext : ltb (sub (Fin 2000) (Fin 1000)) (updateInterval ap) = false).
  { cbn [ap setCalibrationOffset with_calibrationOffset with_measuring initialize
         loadCalibration constructor updateInterval sub neg add ltb].
    apply R_ltb_false. lra. }
  split; [exact Hun|].
  exists (with_referenceLevel
            (with_calibrationOffset
               (with_reading (with_calibrationOffset ap (Fin 0))
                  (Spec.uncalibrated_reading frame) (Fin 1000))
               (add (calibrationOffset ap)
                    (sub (Fin 100) (Spec.uncalibrated_reading frame))))
            (Fin 100)).
  split; [rewrite (calibrate_fresh ap (Fin 100) (Fin 1000) frame Hserv Hgate);
          reflexivity|].
  cbn [with_referenceLevel with_calibrationOffset calibrationOffset].
  rewrite (read_after_calibrate ap _ _ _ (Fin 1000) (Fin 2000) frame Hserv Hnext).
  cbn [fst]. rewrite Hun, Hraw.
  change (calibrationOffset ap) with (Fin 5).
  cbn [sub neg add].
  replace (5 + (100 + Ropp 94)) with 11 by lra.
  replace (94 + 11) with 105 by lra.
  rewrite (clamp_in_range 105) by lra.
  split; [reflexivity|].
  split; [intro E; apply Fin_inj in E; lra|].
  split; [reflexivity|].
  intro E; apply Fin_inj in E; lra.
Qed.

(** With no offset in effect the reading of silence is the floor, and
    calibrating against it cannot lift the next reading of silence off the
    floor. *)
Lemma calibrate_on_silence :
  let ap := with_measuring (initialize constructor None) true true in
  let frame := repeat Byte.x80 2048 in
  Spec.uncalibrated_reading frame = Fin 20
  /\ exists ap' : Processor,
       calibrate ap (Fin 94) (Fin 1000) (SampleFrame frame)
       = Returned (calibrationOffset ap', ap')
       /\ calibrationOffset ap' = Fin (94 - 20)
       /\ fst (getCurrentDecibels ap' (Fin 2000) (SampleFrame frame)) = Fin 20.
Proof.
  intros ap frame.
  assert (Hsil : Spec.silent frame)
    by (split; [apply repeat_nonempty | apply Forall_repeat_eq]).
  assert (Hraw : Spec.raw_level frame = NegInf).
  { unfold Spec.raw_level. rewrite (calculateRMS_silence frame Hsil).
    unfold convertRMSToDecibels. cbn [leb]. rdecide. reflexivity. }
  assert (Hun : Spec.uncalibrated_reading frame = Fin 20)
    by (unfold Spec.uncalibrated_reading; rewrite Hraw; reflexivity).
  assert (Hnext : ltb (sub (Fin 2000) (Fin 1000)) (updateInterval ap) = false).
  { cbn [ap with_measuring initialize loadCalibration constructor updateInterval
         sub neg add ltb]. apply R_ltb_false. lra. }
  split; [exact Hun|].
  exists (with_referenceLevel
            (with_calibrationOffset
               (with_reading (with_calibrationOffset ap (Fin 0))
                  (Spec.uncalibrated_reading frame) (Fin 1000))
               (add (calibrationOffset ap)
                    (sub (Fin 94) (Spec.uncalibrated_reading frame))))
            (Fin 94)).
  split; [rewrite (calibrate_fresh ap (Fin 94) (Fin 1000) frame
                     started_servicing (started_gate_open 1000 ltac:(lra)));
          reflexivity|].
  cbn [with_referenceLevel with_calibrationOffset calibrationOffset].
  rewrite (read_after_calibrate ap _ _ _ (Fin 1000) (Fin 2000) frame
             started_servicing Hnext).
  cbn [fst]. rewrite Hun, Hraw.
  change (calibrationOffset ap) with (Fin 0).
  cbn [sub neg add]. split; [f_equal; lra | reflexivity].
Qed.

(** The sum of squares accumulated by [calculateRMS] is a non-negative
    finite number. *)
Lemma rms_sum_finite (timeData : list Byte.byte) : forall s : R,
  0 <= s ->
  exists s' : R, fold_left rms_step timeData (Fin s) = Fin s' /\ 0 <= s'.
Proof.
  induction timeData as [ | b l IH]; intros s Hs.
  - exists s. split; [reflexivity | exact Hs].
  - cbn [fold_left]. unfold rms_step at 2. unfold sample_value.
    cbn [sub neg add]. rewrite div_fin by lra. cbn [mul add].
    apply IH.
    set (a := (IZR (Z.of_N (Byte.to_N b)) + - (128)) / 128).
    generalize (Rle_0_sqr a). unfold Rsqr. lra.
Qed.

(** The reading of a non-empty frame without calibration is a number
    between 20 and 140. *)
Lemma uncalibrated_reading_finite (timeData : list Byte.byte) :
  timeData <> [] ->
  exists x : R, Spec.uncalibrated_reading timeData = Fin x /\ 20 <= x <= 140.
Proof.
  intro Hne.
  destruct (rms_sum_finite timeData 0 (Rle_refl 0)) as (s & Hs & Hs0).
  unfold Spec.uncalibrated_reading, Spec.raw_level, calculateRMS.
  rewrite Hs. unfold of_nat.
  rewrite div_fin by (apply length_pos_INR; exact Hne).
  assert (Hq : 0 <= s / INR (List.length timeData)).
  { apply Rmult_le_pos; [exact Hs0|].
    apply Rlt_le, Rinv_0_lt_compat.
    assert (H := length_pos_INR timeData Hne).
    assert (H' := pos_INR (List.length timeData)). lra. }
  cbn [Math_sqrt]. rewrite (R_ltb_false _ 0 Hq).
  unfold convertRMSToDecibels. cbn [leb].
  destruct (clamp_range
              (if R_leb (sqrt (s / INR (List.length timeData))) 0 then NegInf
               else add (mul (Fin 20)
                           (Math_log10 (Fin (sqrt (s / INR (List.length timeData))))))
                        (Fin 94)))
    as [Hnan | Hfin]; [ | exact Hfin].
  exfalso. revert Hnan.
  destruct (R_leb (sqrt (s / INR (List.length timeData))) 0) eqn:Hle.
  - rewrite clamp_neg_inf. discriminate.
  - assert (Hpos : 0 < sqrt (s / INR (List.length timeData))).
    { destruct (Rle_dec (sqrt (s / INR (List.length timeData))) 0) as [H | H].
      - rewrite (R_leb_true _ _ H) in Hle. discriminate.
      - lra. }
    rewrite math_log10_pos by exact Hpos. cbn [mul add].
    rewrite clamp_fin. discriminate.
Qed.

(** A sampled reading of a non-empty frame under a finite offset is a
    number between 20 and 140: never NaN. *)
Lemma sampled_reading_finite (ap : Processor) (now : number)
    (timeData : list Byte.byte) (offset : R) :
  Spec.servicing ap -> Spec.gate_open ap now ->
  calibrationOffset ap = Fin offset -> timeData <> [] ->
  exists x : R,
    fst (getCurrentDecibels ap now (SampleFrame timeData)) = Fin x
    /\ 20 <= x <= 140.
Proof.
  intros Hserv Hg Hoff Hne.
  rewrite (getCurrentDecibels_fresh ap now timeData Hserv Hg). cbn [fst].
  rewrite Hoff.
  destruct (clamp_range (add (Spec.raw_level timeData) (Fin offset)))
    as [Hnan | Hfin]; [ | exact Hfin].
  exfalso. revert Hnan.
  destruct (uncalibrated_reading_finite timeData Hne) as (x & Hx & _).
  unfold Spec.uncalibrated_reading in Hx.
  destruct (Spec.raw_level timeData) as [ | | | r]; cbn [add].
  - discriminate Hx.
  - rewrite clamp_neg_inf. discriminate.
  - destruct (clamp_range PosInf) as [H | (z & H & _)];
      rewrite H; [rewrite H in Hx|]; discriminate.
  - rewrite clamp_fin. discriminate.
Qed.

End LevelMeter.

(* ================================================================== *)
(** ** Percentiles *)
(* ================================================================== *)

Section Percentiles.

Lemma gtb_ascending (x y : R) :
  gtb (ascending (Fin x) (Fin y)) (Fin 0) = R_ltb y x.
Proof.
  unfold gtb, ascending. cbn [sub neg add ltb].
  destruct (Rlt_dec y x) as [H | H].
  - rewrite (R_ltb_true y x H). apply R_ltb_true. lra.
  - rewrite (R_ltb_false y x) by lra. apply R_ltb_false. lra.
Qed.

(** Inserting into a sorted list of finite values. *)
Lemma insert_by_sorted (x : R) (s : list R) :
  Sorted Rle s ->
  exists s' : list R,
    insert_by ascending (Fin x) (map Fin s) = map Fin s'
    /\ Permutation (x :: s) s'
    /\ Sorted Rle s'
    /\ HdRel Rle (match s with [] => x | y :: _ => Rmin x y end) s'.
Proof.
  induction s as [ | y s IH]; intro Hs.
  - exists [x]. cbn. repeat split; try constructor; auto. lra.
  - cbn [map insert_by]. rewrite gtb_ascending.
    inversion Hs as [ | ? ? Hs' Hhd]; subst.
    destruct (Rlt_dec y x) as [H | H].
    + rewrite (R_ltb_true y x H).
      destruct (IH Hs') as (s' & Heq & Hperm & Hsorted & Hhd').
      exists (y :: s'). rewrite Heq. split; [reflexivity|].
      split; [ | split].
      * rewrite perm_swap. apply perm_skip. exact Hperm.
      * constructor; [exact Hsorted|].
        destruct s as [ | z s].
        -- inversion Hhd' as [ | ? ? Hle]; subst; constructor. lra.
        -- inversion Hhd as [ | ? ? Hyz]; subst.
           inversion Hhd' as [ | ? ? Hle]; subst; constructor.
           unfold Rmin in Hle. destruct (Rle_dec x z); lra.
      * constructor. unfold Rmin. destruct (Rle_dec x y); lra.
    + rewrite (R_ltb_false y x) by lra.
      exists (x :: y :: s). split; [reflexivity|].
      split; [apply Permutation_refl|].
      split.
      * constructor; [exact Hs|]. constructor. lra.
      * constructor. unfold Rmin. destruct (Rle_dec x y); lra.
Qed.

(** [sort] with the ascending comparator sorts finite values. *)
Lemma sort_by_ascending_sorts (l : list R) :
  exists s : list R,
    sort_by ascending (map Fin l) = map Fin s
    /\ Permutation l s
    /\ Sorted Rle s.
Proof.
  induction l as [ | x l (s & Heq & Hperm & Hsorted)].
  - exists []. repeat split; constructor.
  - unfold sort_by in *. cbn [map fold_right]. rewrite Heq.
    destruct (insert_by_sorted x s Hsorted) as (s' & Heq' & Hperm' & Hsorted' & _).
    exists s'. split; [exact Heq'|]. split; [ | exact Hsorted'].
    apply Permutation_trans with (x :: s); [apply perm_skip; exact Hperm | exact Hperm'].
Qed.

Lemma index_fin {A : Type} (arr : list A) (z : Z) :
  (0 <= z)%Z -> JS.index arr (Fin (IZR z)) = nth_error arr (Z.to_nat z).
Proof.
  intro Hz. unfold JS.index. rewrite ZfloorZ.
  rewrite (R_eqb_true _ _ eq_refl).
  rewrite (R_leb_true 0 (IZR z)) by (apply IZR_le; exact Hz).
  reflexivity.
Qed.

Lemma nth_error_fin (s : list R) (k : nat) :
  (k < List.length s)%nat ->
  nth_error (map Fin s) k = Some (Fin (nth k s 0)).
Proof.
  intro Hk. rewrite nth_error_map.
  rewrite (nth_error_nth' s 0 Hk). reflexivity.
Qed.

(** The bounds of the floor and the ceiling of an index within an array. *)
Lemma index_bounds (idx : R) (n : nat) :
  0 <= idx <= INR n - 1 ->
  (0 <= Zfloor idx)%Z /\ (0 <= Zceil idx)%Z
  /\ (Z.to_nat (Zfloor idx) < n)%nat /\ (Z.to_nat (Zceil idx) < n)%nat.
Proof.
  intros [H0 Hn].
  assert (Hf := Zfloor_bound idx). assert (Hc := Zceil_bound idx).
  assert (Hf0 : (0 <= Zfloor idx)%Z) by (apply Zfloor_lub; exact H0).
  assert (Hc0 : (0 <= Zceil idx)%Z) by (apply le_IZR; lra).
  rewrite INR_IZR_INZ in Hn.
  assert (Hfn : (Zfloor idx < Z.of_nat n)%Z) by (apply lt_IZR; lra).
  assert (Hcn : (Zceil idx < Z.of_nat n)%Z).
  { apply lt_IZR.
    assert (IZR (Zceil idx) - 1 < IZR (Z.of_nat n) - 1) by lra.
    lra. }
  repeat split; try assumption; lia.
Qed.

(** The premium percentile over values whose sorted order is known. *)
Lemma premium_percentile_sorted (values : list number) (s : list R) (p : R) :
  sort_by ascending values = map Fin s ->
  0 <= Spec.percentile_index p (List.length s) <= INR (List.length s) - 1 ->
  PremiumFeatures.calculatePercentile values (Fin p)
  = Some (Fin (Spec.interpolate s (Spec.percentile_index p (List.length s)))).
Proof.
  intros Hsort Hidx.
  unfold PremiumFeatures.calculatePercentile. rewrite Hsort.
  rewrite length_map. unfold of_nat.
  rewrite div_fin by lra. cbn [sub neg add mul].
  replace (p / 100 * (INR (List.length s) + - (1)))
    with (Spec.percentile_index p (List.length s))
    by (unfold Spec.percentile_index; ring).
  set (idx := Spec.percentile_index p (List.length s)) in *.
  destruct (index_bounds idx (List.length s) Hidx) as (Hf0 & Hc0 & Hfn & Hcn).
  assert (Hfc := Zfloor_ceil_bound idx).
  cbn [Math_floor Math_ceil eqb].
  rewrite !index_fin by assumption.
  rewrite !nth_error_fin by assumption.
  unfold Spec.interpolate. fold idx.
  destruct (Req_dec_T (IZR (Zfloor idx)) (IZR (Zceil idx))) as [E | E].
  - rewrite (R_eqb_true _ _ E).
    assert (Ez : Zfloor idx = Zceil idx) by (apply eq_IZR; exact E).
    rewrite <- Ez. do 2 f_equal.
    replace (idx - IZR (Zfloor idx)) with 0 by lra. ring.
  - rewrite (R_eqb_false _ _ E).
    cbn [to_number sub neg add mul]. do 2 f_equal.
Qed.

Lemma percentile_index_bounds (p : R) (n : nat) :
  (0 < n)%nat -> 0 <= p <= 100 ->
  0 <= Spec.percentile_index p n <= INR n - 1.
Proof.
  intros Hn Hp. unfold Spec.percentile_index.
  assert (1 <= INR n) by (replace 1 with (INR 1) by reflexivity; apply le_INR; lia).
  split; nra.
Qed.

Lemma Zceil_IZR (z : Z) : Zceil (IZR z) = z.
Proof. apply Zceil_eq. lra. Qed.

Lemma interpolate_at_integer (s : list R) (k : nat) :
  Spec.interpolate s (INR k) = nth k s 0.
Proof.
  unfold Spec.interpolate. rewrite INR_IZR_INZ, ZfloorZ, Zceil_IZR, Nat2Z.id.
  ring.
Qed.

(** Both percentile functions at an index that is a whole number. *)
Lemma premium_percentile_integer (values : list number) (s : list R)
    (p : R) (k : nat) :
  sort_by ascending values = map Fin s ->
  Spec.percentile_index p (List.length s) = INR k ->
  (k < List.length s)%nat ->
  PremiumFeatures.calculatePercentile values (Fin p) = Some (Fin (nth k s 0)).
Proof.
  intros Hsort Hidx Hk.
  rewrite (premium_percentile_sorted values s p Hsort).
  - rewrite Hidx, interpolate_at_integer. reflexivity.
  - rewrite Hidx. split; [apply pos_INR|].
    assert (INR (S k) <= INR (List.length s)) by (apply le_INR; lia).
    rewrite S_INR in *. lra.
Qed.









Lemma sort_sample :
  sort_by ascending (map Fin [10; 20; 30; 40; 50]) = map Fin [10; 20; 30; 40; 50].
Proof.
  unfold sort_by. cbn [map fold_right].
  repeat (cbn [insert_by]; rewrite gtb_ascending; rdecide). reflexivity.
Qed.







End Percentiles.

(* ================================================================== *)
(** * Further properties of the code *)
(* ================================================================== *)

(* ================================================================== *)
(** ** Exposure time, dose and personal risk *)
(* ================================================================== *)

Section ExposureDose.

Import NoiseClassifier.

(** X1.  The permissible exposure time never grows with the level: a louder
    finite level is allowed at most as many hours as a quieter one. *)
Theorem safe_exposure_time_antitone (a b : R) (Hab : a <= b) :
  leb (calculateSafeExposureTime b) (calculateSafeExposureTime a) = true.
Proof.
  rewrite !calculateSafeExposureTime_fin.
  rsplit; cbn [leb]; apply R_leb_true; lra.
Qed.

Lemma safe_exposure_time_antitone_witness :
  leb (calculateSafeExposureTime 96) (calculateSafeExposureTime 91) = true.
Proof. apply safe_exposure_time_antitone. lra. Defined.

(** The dose on finite arguments: full when no exposure is safe, the share
    of the permissible time otherwise, capped at 100. *)
Lemma calculateExposureDose_fin (t d : R) :
  calculateExposureDose t d
  = Fin (if R_leb t 90 then Rmin 100 (d / 3600 / 8 * 100)
         else if R_leb t 92 then Rmin 100 (d / 3600 / 4 * 100)
         else if R_leb t 95 then Rmin 100 (d / 3600 / 2 * 100)
         else if R_leb t 97 then Rmin 100 (d / 3600 / 1 * 100)
         else if R_leb t 100 then Rmin 100 (d / 3600 / (25 / 100) * 100)
         else if R_leb t 105 then Rmin 100 (d / 3600 / (17 / 1000) * 100)
         else 100).
Proof.
  unfold calculateExposureDose. rewrite calculateSafeExposureTime_fin.
  rewrite div_fin by lra.
  rsplit; cbn [eqb]; rdecide; try reflexivity;
    rewrite div_fin by lra; cbn [mul]; unfold Math_min; cbn [leb];
    unfold Rmin;
    match goal with
    | |- context [Rle_dec ?x ?y] =>
        destruct (Rle_dec x y) as [H | H];
        [ rewrite (R_leb_true x y H) | rewrite (R_leb_false x y) by lra ]
    end; reflexivity.
Qed.

(** For a finite level and a non-negative duration the dose is a
    percentage between 0 and 100; it is 100 whenever the level is above
    105 dB, whatever the duration. *)
Lemma exposure_dose_range (t d : R) (Hd : 0 <= d) :
  (exists dose : R,
     calculateExposureDose t d = Fin dose /\ 0 <= dose <= 100)
  /\ (105 < t -> calculateExposureDose t d = Fin 100).
Proof.
  rewrite calculateExposureDose_fin. split.
  - eexists. split; [reflexivity|].
    rsplit; unfold Rmin;
      try match goal with
          | |- context [Rle_dec ?x ?y] => destruct (Rle_dec x y)
          end; lra.
  - intro Ht. rdecide. reflexivity.
Qed.

(** For a fixed non-negative duration the dose never falls when the level
    rises. *)
Lemma exposure_dose_increasing (a b d : R) (Hab : a <= b) (Hd : 0 <= d) :
  leb (calculateExposureDose a d) (calculateExposureDose b d) = true.
Proof.
  rewrite !calculateExposureDose_fin. cbn [leb]. apply R_leb_true.
  rsplit; unfold Rmin;
    repeat match goal with
           | |- context [Rle_dec ?x ?y] => destruct (Rle_dec x y)
           end; lra.
Qed.

(** X2.  For a finite level and a non-negative duration the dose is a
    percentage between 0 and 100, and 100 whenever the level is above
    105 dB, whatever the duration; for a fixed duration the dose never
    falls when the level rises. *)
Theorem exposure_dose_bounded_monotone (a b d : R)
    (Hab : a <= b) (Hd : 0 <= d) :
  (exists dose : R,
     calculateExposureDose a d = Fin dose /\ 0 <= dose <= 100)
  /\ (105 < a -> calculateExposureDose a d = Fin 100)
  /\ leb (calculateExposureDose a d) (calculateExposureDose b d) = true.
Proof.
  destruct (exposure_dose_range a d Hd) as [Hrange Hfull].
  split; [exact Hrange|]. split; [exact Hfull|].
  apply exposure_dose_increasing; assumption.
Qed.

Lemma exposure_dose_bounded_monotone_witness :
  calculateExposureDose 110 0 = Fin 100
  /\ leb (calculateExposureDose 110 0) (calculateExposureDose 120 0) = true.
Proof.
  destruct (exposure_dose_bounded_monotone 110 120 0 ltac:(lra) ltac:(lra))
    as (_ & Hfull & Hmono).
  split; [apply Hfull; lra | exact Hmono].
Defined.

End ExposureDose.

(** Splits on the real comparisons between terms without a conditional,
    innermost first. *)
Ltac no_conditional t :=
  lazymatch t with
  | context [if _ then _ else _] => fail
  | _ => idtac
  end.

Ltac rsplit_inner :=
  repeat match goal with
  | |- context [R_ltb ?a ?b] =>
      no_conditional a; no_conditional b;
      let H := fresh "C" in
      destruct (Rlt_dec a b) as [H | H];
      [ rewrite (R_ltb_true a b H) | rewrite (R_ltb_false a b) by lra ];
      try (exfalso; lra)
  | |- context [R_leb ?a ?b] =>
      no_conditional a; no_conditional b;
      let H := fresh "C" in
      destruct (Rle_dec a b) as [H | H];
      [ rewrite (R_leb_true a b H) | rewrite (R_leb_false a b) by lra ];
      try (exfalso; lra)
  end.

Section PersonalRisk.

Import NoiseClassifier.

(** The score of [calculatePersonalRisk] on finite arguments. *)
Lemma calculatePersonalRisk_fin (twa maxDb count : R) :
  risk_score (calculatePersonalRisk twa maxDb count)
  = Fin ((if R_leb 90 twa then 40 else if R_leb 85 twa then 25 else 0)
         + (if R_leb 100 maxDb then 30 else if R_leb 85 maxDb then 15 else 0)
         + (if R_leb 10 count && R_leb 75 twa then 20 else 0))
  /\ risk_level (calculatePersonalRisk twa maxDb count)
     = (let s := (if R_leb 90 twa then 40 else if R_leb 85 twa then 25 else 0)
                 + (if R_leb 100 maxDb then 30 else if R_leb 85 maxDb then 15 else 0)
                 + (if R_leb 10 count && R_leb 75 twa then 20 else 0) in
        if R_leb 60 s then "high"
        else if R_leb 30 s then "moderate"
        else if R_leb 15 s then "low" else "minimal")%string.
Proof.
  unfold calculatePersonalRisk. cbn [geb leb].
  destruct (R_leb 90 twa), (R_leb 85 twa), (R_leb 100 maxDb), (R_leb 85 maxDb),
    (R_leb 10 count), (R_leb 75 twa);
    cbn [andb add risk_score risk_level geb leb];
    (split; [f_equal; lra|]);
    cbn zeta; rdecide; reflexivity.
Qed.

(** The personal risk score of finite statistics lies between 0 and 90,
    and the level is "high" only when the time-weighted average is at
    least 85 dB. *)
Lemma personal_risk_range (twa maxDb count : R) :
  (exists s : R,
     risk_score (calculatePersonalRisk twa maxDb count) = Fin s /\ 0 <= s <= 90)
  /\ (risk_level (calculatePersonalRisk twa maxDb count) = "high"%string ->
      85 <= twa)
  /\ (twa < 85 -> maxDb < 85 -> count < 10 ->
      risk_level (calculatePersonalRisk twa maxDb count) = "minimal"%string).
Proof.
  destruct (calculatePersonalRisk_fin twa maxDb count) as [Hs Hl].
  rewrite Hs, Hl. cbn zeta. split; [ | split].
  - eexists. split; [reflexivity|].
    rsplit_inner; cbn [andb]; lra.
  - rsplit_inner; cbn [andb]; rdecide; intro H; try lra; discriminate H.
  - intros H1 H2 H3. rdecide. cbn [andb]. rdecide. reflexivity.
Qed.

(** The personal risk score never falls when the time-weighted average
    rises, the peak and the number of measurements being equal. *)
Lemma personal_risk_increasing (twa twa' maxDb count : R) (Hle : twa <= twa') :
  leb (risk_score (calculatePersonalRisk twa maxDb count))
      (risk_score (calculatePersonalRisk twa' maxDb count)) = true.
Proof.
  rewrite (proj1 (calculatePersonalRisk_fin twa maxDb count)).
  rewrite (proj1 (calculatePersonalRisk_fin twa' maxDb count)).
  cbn [leb]. apply R_leb_true.
  rsplit_inner; cbn [andb]; lra.
Qed.

(** X3.  The personal risk score of finite statistics lies between 0 and
    90 and never falls when the time-weighted average rises, the peak and
    the number of measurements being equal.  The level is "high" only when
    the time-weighted average is at least 85 dB (peaks and frequency alone
    never make the risk high), and "minimal" when the average and the peak
    are below 85 dB and there are fewer than ten measurements. *)
Theorem personal_risk_high_needs_twa (twa twa' maxDb count : R)
    (Hle : twa <= twa') :
  (exists s : R,
     risk_score (calculatePersonalRisk twa maxDb count) = Fin s /\ 0 <= s <= 90)
  /\ (risk_level (calculatePersonalRisk twa maxDb count) = "high"%string ->
      85 <= twa)
  /\ (twa < 85 -> maxDb < 85 -> count < 10 ->
      risk_level (calculatePersonalRisk twa maxDb count) = "minimal"%string)
  /\ leb (risk_score (calculatePersonalRisk twa maxDb count))
         (risk_score (calculatePersonalRisk twa' maxDb count)) = true.
Proof.
  destruct (personal_risk_range twa maxDb count) as (Hs & Hhigh & Hmin).
  split; [exact Hs|]. split; [exact Hhigh|]. split; [exact Hmin|].
  apply personal_risk_increasing. exact Hle.
Qed.

Lemma personal_risk_high_needs_twa_witness :
  risk_level (calculatePersonalRisk 70 80 3) = "minimal"%string
  /\ leb (risk_score (calculatePersonalRisk 70 80 3))
         (risk_score (calculatePersonalRisk 91 80 3)) = true.
Proof.
  destruct (personal_risk_high_needs_twa 70 91 80 3 ltac:(lra))
    as (_ & _ & Hmin & Hmono).
  split; [apply Hmin; lra | exact Hmono].
Defined.

End PersonalRisk.

(* ================================================================== *)
(** ** Indicators, goals and alerts *)
(* ================================================================== *)

Section Indicators.

Import NoiseClassifier.

(** X4.  For every level from 0 upwards, positive infinity included, the
    warning of the visual indicators follows the zone of [classify]: it is
    shown exactly in the loud, dangerous and emergency zones, its severity
    is "critical" in the emergency zone and "high" in the dangerous zone,
    and the progress bar never exceeds 100 percent. *)
Theorem visual_warning_follows_zone (v : number) (Hv : leb 0 v = true) :
  warning_show (getVisualIndicators v)
  = match range (entry (classify v)) with
    | loud | dangerous | emergency => true
    | _ => false
    end
  /\ warning_severity (getVisualIndicators v)
     = match range (entry (classify v)) with
       | emergency => "critical"
       | dangerous => "high"
       | _ => "moderate"
       end%string
  /\ leb (progress_percentage (getVisualIndicators v)) 100 = true.
Proof.
  destruct v as [ | | | r]; try discriminate Hv.
  - cbn [getVisualIndicators warning_show warning_severity progress_percentage].
    rewrite classify_pos_inf. cbn [geb leb div].
    rewrite (R_ltb_false 100 0) by lra. cbn [mul]. unfold scale_inf.
    rdecide. cbn [Bool.eqb]. unfold Math_min. cbn [leb].
    repeat split. apply R_leb_true. lra.
  - cbn [leb] in Hv. apply R_leb_spec in Hv.
    cbn [getVisualIndicators warning_show warning_severity progress_percentage].
    rewrite classify_fin_cases. rewrite div_fin by lra.
    cbn [geb leb mul]. unfold Math_min. cbn [leb].
    rsplit; cbn [andb leb]; rdecide; repeat split;
      try reflexivity; apply R_leb_true; lra.
Qed.

Lemma visual_warning_follows_zone_witness :
  warning_show (getVisualIndicators 90) = true.
Proof.
  assert (H : leb 0 90 = true) by (cbn [leb]; apply R_leb_true; lra).
  rewrite (proj1 (visual_warning_follows_zone 90 H)).
  rewrite classify_fin_cases. rdecide. reflexivity.
Defined.

(** The progress towards the 85 dB limit. *)
Lemma progress_towards_85_full (x : number) :
  leb x 85 = true <-> progress_towards_85 x = Fin 100.
Proof.
  unfold progress_towards_85.
  destruct x as [ | | | r]; cbn [sub neg add].
  - cbn. split; discriminate.
  - unfold div, mul, scale_inf, Math_min, Math_max. cbn [leb].
    rdecide. cbn [Bool.eqb leb]. rdecide. split; reflexivity.
  - unfold div, mul, scale_inf, Math_min, Math_max. cbn [leb].
    rdecide. cbn [Bool.eqb leb]. rdecide. split; [discriminate|].
    intro H. apply Fin_inj in H. lra.
  - rewrite div_fin by lra. cbn [mul leb]. unfold Math_min. cbn [leb].
    destruct (Rle_dec r 85) as [H | H].
    + rewrite (R_leb_true r 85 H). rewrite (R_leb_true 100 _) by lra.
      unfold Math_max. cbn [leb]. rdecide. split; reflexivity.
    + rewrite (R_leb_false r 85) by lra. rewrite (R_leb_false 100 _) by lra.
      unfold Math_max. cbn [leb]. split; [discriminate|].
      destruct (Rle_dec 0 ((85 + - r + 15) / 15 * 100)) as [H0 | H0].
      * rewrite (R_leb_true _ _ H0). intro E. apply Fin_inj in E. lra.
      * rewrite (R_leb_false 0 _) by lra. intro E. apply Fin_inj in E. lra.
Qed.

(** X5.  In the health goals the daily-limit goal and the peak-reduction
    goal are met exactly when their progress is 100 percent, for every
    time-weighted average and every set of measurements. *)
Theorem health_goal_met_iff_full_progress (twa : number)
    (measurements : list Measurement) :
  (goal_met (dailyLimit (assessHealthGoals twa measurements)) = true
   <-> goal_progress (dailyLimit (assessHealthGoals twa measurements))
       = Some (Fin 100))
  /\ (goal_met (peakReduction (assessHealthGoals twa measurements)) = true
      <-> goal_progress (peakReduction (assessHealthGoals twa measurements))
          = Some (Fin 100)).
Proof.
  cbn [assessHealthGoals dailyLimit peakReduction goal_met goal_progress].
  split.
  - rewrite progress_towards_85_full. split; intro H; [rewrite H | injection H]; auto.
  - rewrite progress_towards_85_full. split; intro H; [rewrite H | injection H]; auto.
Qed.

(** X6.  Whenever the dashboard's OSHA test fails for a time-weighted
    average that is a number, the alerts start with the critical alert on
    the OSHA limit; at most three alerts are raised. *)
Theorem alerts_cover_osha_failure (twa maxDb : number) (consistent : bool) :
  (twa <> NaN -> leb twa 90 = false ->
   exists rest : list Alert,
     generateHealthAlerts twa maxDb consistent
     = {| alert_type := "critical";
          alert_message := "Daily noise exposure exceeds OSHA limits";
          alert_action := "Reduce exposure time or use hearing protection" |}
       :: rest)
  /\ (List.length (generateHealthAlerts twa maxDb consistent) <= 3)%nat.
Proof.
  split.
  - intros Hnan Hle. unfold generateHealthAlerts.
    assert (Hge : geb twa 90 = true).
    { destruct twa as [ | | | r]; try contradiction; try discriminate Hle;
        try reflexivity.
      cbn [geb leb] in *. apply R_leb_true.
      destruct (Rle_dec r 90) as [H | H];
        [rewrite (R_leb_true _ _ H) in Hle; discriminate | lra]. }
    rewrite Hge. eexists. reflexivity.
  - unfold generateHealthAlerts.
    destruct (geb twa 90), (geb maxDb 100), (consistent && geb twa 80);
      cbn; lia.
Qed.

Lemma alerts_cover_osha_failure_witness :
  exists rest : list Alert,
    generateHealthAlerts 95 80 false
    = {| alert_type := "critical";
         alert_message := "Daily noise exposure exceeds OSHA limits";
         alert_action := "Reduce exposure time or use hearing protection" |}
      :: rest.
Proof.
  apply (proj1 (alerts_cover_osha_failure 95 80 false)).
  - discriminate.
  - cbn [leb]. apply R_leb_false. lra.
Defined.

End Indicators.

(* ================================================================== *)
(** ** Averages, variance and trend of the classifier *)
(* ================================================================== *)

Section ClassifierStatistics.

Import NoiseClassifier.

Lemma sum_numbers_fin_from (l : list R) : forall s : R,
  fold_left add (map Fin l) (Fin s) = Fin (s + fold_right Rplus 0 l).
Proof.
  induction l as [ | x l IH]; intro s; cbn [map fold_left fold_right add].
  - rewrite Rplus_0_r. reflexivity.
  - rewrite IH. f_equal. ring.
Qed.

Lemma sum_numbers_fin (l : list R) :
  sum_numbers (map Fin l) = Fin (fold_right Rplus 0 l).
Proof.
  unfold sum_numbers. rewrite sum_numbers_fin_from. f_equal. ring.
Qed.

Lemma sum_squares_nonneg (m : R) (l : list R) :
  0 <= fold_right Rplus 0 (map (fun x => (x + - m) * (x + - m)) l).
Proof.
  induction l as [ | x l IH]; cbn [map fold_right]; [lra|].
  generalize (Rle_0_sqr (x + - m)). unfold Rsqr. lra.
Qed.

(** The variance of finite values, as a real. *)
Lemma calculateVariance_fin (l : list R) :
  l <> [] ->
  calculateVariance (map Fin l)
  = let mean := fold_right Rplus 0 l / INR (List.length l) in
    Fin (fold_right Rplus 0 (map (fun x => (x + - mean) * (x + - mean)) l)
         / INR (List.length l)).
Proof.
  intro Hne. unfold calculateVariance.
  rewrite sum_numbers_fin, length_map. unfold of_nat.
  rewrite div_fin by (apply length_pos_INR; exact Hne).
  rewrite map_map. cbn [sub neg add Math_pow2].
  rewrite <- (map_map (fun x => (x + - (fold_right Rplus 0 l / INR (List.length l)))
                               * (x + - (fold_right Rplus 0 l / INR (List.length l))))
                      Fin).
  rewrite sum_numbers_fin.
  rewrite div_fin by (apply length_pos_INR; exact Hne).
  reflexivity.
Qed.

Lemma sum_repeat (c : R) (n : nat) : fold_right Rplus 0 (repeat c n) = INR n * c.
Proof.
  induction n as [ | n IH].
  - cbn. ring.
  - cbn [repeat fold_right]. rewrite IH, S_INR. ring.
Qed.

(** X7.  The variance of a non-empty list of finite values is a
    non-negative number, and it is 0 for equal values; fewer than three
    daily averages never count as consistent exposure. *)
Theorem variance_nonnegative (l : list R) (Hne : l <> []) :
  (exists v : R, calculateVariance (map Fin l) = Fin v /\ 0 <= v)
  /\ (forall (c : R) (n : nat),
        calculateVariance (map Fin (repeat c (S n))) = Fin 0)
  /\ (forall days : list (list number),
        (List.length days < 3)%nat -> isConsistentExposure days = false).
Proof.
  split; [ | split].
  - rewrite (calculateVariance_fin l Hne). cbn zeta.
    eexists. split; [reflexivity|].
    apply Rmult_le_pos; [apply sum_squares_nonneg|].
    apply Rlt_le, Rinv_0_lt_compat.
    generalize (length_pos_INR l Hne) (pos_INR (List.length l)). lra.
  - intros c n.
    rewrite calculateVariance_fin by discriminate. cbn zeta.
    rewrite repeat_length, sum_repeat. f_equal.
    assert (Hn : INR (S n) <> 0) by (apply not_0_INR; discriminate).
    replace (INR (S n) * c / INR (S n)) with c by (field; exact Hn).
    assert (Hz : forall k, fold_right Rplus 0
                   (map (fun x => (x + - c) * (x + - c)) (repeat c k)) = 0).
    { induction k as [ | k IHk]; cbn [repeat map fold_right]; [reflexivity|].
      rewrite IHk. ring. }
    rewrite Hz. field. exact Hn.
  - intros days Hlen. unfold isConsistentExposure.
    rewrite length_map.
    destruct (Nat.ltb_spec (List.length days) 3) as [H | H]; [reflexivity | lia].
Qed.

Lemma variance_nonnegative_witness :
  exists v : R, calculateVariance (map Fin [60; 70; 80]) = Fin v /\ 0 <= v.
Proof.
  apply (proj1 (variance_nonnegative [60; 70; 80] ltac:(discriminate))).
Defined.

(** The trend of measurements whose first five and last five levels are
    the same finite values. *)
Lemma calculateTrend_same_windows (ms : list Measurement) (l : list R) :
  (5 <= List.length ms)%nat ->
  map db (firstn 5 ms) = map Fin l ->
  map db (skipn (List.length ms - 5) ms) = map Fin l ->
  calculateTrend ms
  = if R_eqb (fold_right Rplus 0 l / INR (List.length l)) 0
    then "decreasing"%string else "stable"%string.
Proof.
  intros Hlen Hfirst Hlast.
  assert (Hl : List.length l = 5%nat).
  { rewrite <- (length_map Fin l), <- Hfirst, length_map, length_firstn. lia. }
  unfold calculateTrend.
  destruct (Nat.ltb_spec (List.length ms) 5) as [H | _]; [lia|].
  rewrite Hfirst, Hlast, sum_numbers_fin, length_map. unfold of_nat.
  assert (H5 : INR (List.length l) <> 0) by (rewrite Hl; apply not_0_INR; discriminate).
  rewrite div_fin by exact H5.
  set (a := fold_right Rplus 0 l / INR (List.length l)).
  cbn [sub neg add].
  destruct (Req_dec_T a 0) as [E | E].
  - rewrite (R_eqb_true _ _ E). rewrite E.
    cbn [div]. rewrite (R_eqb_true 0 0) by reflexivity.
    rewrite (R_eqb_true (0 + - 0) 0) by lra.
    reflexivity.
  - rewrite (R_eqb_false _ _ E). rewrite div_fin by exact E.
    cbn [mul Math_abs ltb].
    replace ((a + - a) / a * 100) with 0 by (field; exact E).
    rewrite Rabs_R0. rewrite (R_ltb_true 0 5) by lra. reflexivity.
Qed.

(** X8.  Fewer than five measurements give the trend "insufficient-data".
    Exactly five finite measurements always give "stable" when their mean
    level is not 0, whatever the levels, because the recent and the earlier
    window are then the same five measurements; with a mean of 0 the
    division by the earlier mean fails and the answer is "decreasing". *)
Theorem trend_of_five_measurements (l : list R) :
  ((List.length l < 5)%nat ->
   calculateTrend (map (fun v => {| db := Fin v; duration := Fin 1 |}) l)
   = "insufficient-data"%string)
  /\ (List.length l = 5%nat ->
      calculateTrend (map (fun v => {| db := Fin v; duration := Fin 1 |}) l)
      = if R_eqb (fold_right Rplus 0 l / 5) 0
        then "decreasing"%string else "stable"%string).
Proof.
  split.
  - intro Hlen. unfold calculateTrend. rewrite length_map.
    destruct (Nat.ltb_spec (List.length l) 5) as [_ | H]; [reflexivity | lia].
  - intro Hlen.
    rewrite (calculateTrend_same_windows _ l).
    + rewrite Hlen. replace (INR 5) with 5 by (rewrite INR_IZR_INZ; reflexivity).
      reflexivity.
    + rewrite length_map. lia.
    + rewrite firstn_all2 by (rewrite length_map; lia).
      rewrite map_map. reflexivity.
    + rewrite length_map, Hlen. cbn [Nat.sub skipn].
      rewrite map_map. reflexivity.
Qed.

Lemma trend_of_five_measurements_witness :
  calculateTrend (map (fun v => {| db := Fin v; duration := Fin 1 |})
                      [40; 50; 60; 90; 100])
  = "stable"%string.
Proof.
  rewrite (proj2 (trend_of_five_measurements [40; 50; 60; 90; 100]) eq_refl).
  cbn [fold_right]. rewrite R_eqb_false by lra. reflexivity.
Defined.


End ClassifierStatistics.

(* ================================================================== *)
(** ** Range of the time-weighted average *)
(* ================================================================== *)

Section TwaRange.

Import NoiseClassifier.

Lemma energy_monotone (a b : R) : a <= b -> Spec.energy a <= Spec.energy b.
Proof.
  intro H. unfold Spec.energy. apply Rle_Rpower; lra.
Qed.

Lemma log10_monotone (x y : R) : 0 < x -> x <= y -> log10 x <= log10 y.
Proof.
  intros Hx [Hlt | Heq].
  - apply Rlt_le, log10_increasing; assumption.
  - subst y. apply Rle_refl.
Qed.

Lemma energy_sum_between (lo hi : R) (l : list (R * R)) :
  Forall (fun p => 0 < snd p) l ->
  Forall (fun p => lo <= fst p <= hi) l ->
  Spec.energy lo * Spec.time_sum l <= Spec.energy_sum l
  /\ Spec.energy_sum l <= Spec.energy hi * Spec.time_sum l
  /\ 0 <= Spec.time_sum l.
Proof.
  intros Hd Hv. induction l as [ | [v d] l IH].
  - cbn. lra.
  - inversion Hd as [ | ? ? Hd0 Hd']; subst.
    inversion Hv as [ | ? ? Hv0 Hv']; subst.
    cbn [fst snd] in *.
    destruct (IH Hd' Hv') as (H1 & H2 & H3).
    unfold Spec.energy_sum, Spec.time_sum in *. cbn [fold_right fst snd].
    assert (Ea := energy_monotone lo v (proj1 Hv0)).
    assert (Eb := energy_monotone v hi (proj2 Hv0)).
    assert (Ep := energy_pos lo).
    repeat split; nra.
Qed.

(** X10.  For a non-empty sequence of measurements with positive durations
    the classifier's time-weighted average is a number between the lowest
    and the highest level of the sequence. *)
Theorem twa_between_extremes (l : list (R * R)) (lo hi : R)
    (Hne : l <> [])
    (Hd : Forall (fun p => 0 < snd p) l)
    (Hv : Forall (fun p => lo <= fst p <= hi) l) :
  exists twa : R,
    calculateTimeWeightedAverage (Spec.measurements_of l) = Fin twa
    /\ lo <= twa <= hi.
Proof.
  assert (Hnz : Forall (fun p : R * R => snd p <> 0) l).
  { eapply Forall_impl; [ | exact Hd]. cbn. intros p Hp. lra. }
  destruct (energy_sum_between lo hi l Hd Hv) as (H1 & H2 & H3).
  assert (HT : 0 < Spec.time_sum l).
  { destruct l as [ | [v d] l']; [contradiction|].
    inversion Hd as [ | ? ? Hd0 Hd']; subst. cbn [snd] in Hd0.
    destruct (energy_sum_between lo hi l' Hd'
                ltac:(inversion Hv; assumption)) as (_ & _ & H3').
    unfold Spec.time_sum in *. cbn [fold_right snd]. lra. }
  rewrite calculateTimeWeightedAverage_counted;
    [ | exact Hne | rewrite (counted_nonzero l Hnz); lra].
  rewrite (counted_nonzero l Hnz). unfold Spec.energy_mean_db.
  assert (Hlo : Spec.energy lo <= Spec.energy_sum l / Spec.time_sum l).
  { apply Rmult_le_reg_r with (Spec.time_sum l); [exact HT|].
    replace (Spec.energy_sum l / Spec.time_sum l * Spec.time_sum l)
      with (Spec.energy_sum l) by (field; lra).
    exact H1. }
  assert (Hhi : Spec.energy_sum l / Spec.time_sum l <= Spec.energy hi).
  { apply Rmult_le_reg_r with (Spec.time_sum l); [exact HT|].
    replace (Spec.energy_sum l / Spec.time_sum l * Spec.time_sum l)
      with (Spec.energy_sum l) by (field; lra).
    exact H2. }
  assert (Hpos : 0 < Spec.energy_sum l / Spec.time_sum l)
    by (generalize (energy_pos lo); lra).
  rewrite math_log10_pos by exact Hpos. cbn [mul].
  eexists. split; [reflexivity|].
  assert (L1 := log10_monotone _ _ (energy_pos lo) Hlo).
  assert (L2 := log10_monotone _ _ Hpos Hhi).
  rewrite log10_energy in L1, L2. lra.
Qed.

Lemma twa_between_extremes_witness :
  exists twa : R,
    calculateTimeWeightedAverage
      (Spec.measurements_of [(60, 10); (90, 10); (70, 10)]) = Fin twa
    /\ 60 <= twa <= 90.
Proof.
  apply twa_between_extremes.
  - discriminate.
  - repeat constructor; cbn [snd]; lra.
  - repeat constructor; cbn [fst]; lra.
Defined.

(** The loop of the premium aggregator reads the level of every reading
    but the last. *)
Lemma exposure_loop_last_level (ms : list PremiumFeatures.ExtendedMeasurement)
    (x x' : PremiumFeatures.ExtendedMeasurement) :
  PremiumFeatures.timestamp x = PremiumFeatures.timestamp x' ->
  forall acc : number * number,
    PremiumFeatures.exposure_loop (ms ++ [x]) acc
    = PremiumFeatures.exposure_loop (ms ++ [x']) acc.
Proof.
  intro Ht. induction ms as [ | m ms IH]; intro acc.
  - reflexivity.
  - destruct ms as [ | m' ms'].
    + cbn [app]. rewrite !exposure_loop_cons.
      unfold PremiumFeatures.exposure_step. rewrite Ht. reflexivity.
    + cbn [app] in *. rewrite !exposure_loop_cons. apply IH.
Qed.

(** X11.  The premium time-weighted exposure does not depend on the level
    of the last reading, only on its timestamp: each reading counts from its
    own timestamp up to the next reading. *)
Theorem premium_twa_ignores_last_level
    (ms : list PremiumFeatures.ExtendedMeasurement)
    (x x' : PremiumFeatures.ExtendedMeasurement)
    (Ht : PremiumFeatures.timestamp x = PremiumFeatures.timestamp x') :
  PremiumFeatures.calculateTimeWeightedExposure (ms ++ [x])
  = PremiumFeatures.calculateTimeWeightedExposure (ms ++ [x']).
Proof.
  unfold PremiumFeatures.calculateTimeWeightedExposure.
  rewrite (exposure_loop_last_level ms x x' Ht).
  destruct ms; reflexivity.
Qed.

Lemma premium_twa_ignores_last_level_witness :
  PremiumFeatures.calculateTimeWeightedExposure
    (Spec.readings_of [(0, 60); (1000, 70)] ++ Spec.readings_of [(2000, 20)])
  = PremiumFeatures.calculateTimeWeightedExposure
      (Spec.readings_of [(0, 60); (1000, 70)] ++ Spec.readings_of [(2000, 140)]).
Proof.
  apply (premium_twa_ignores_last_level
           (Spec.readings_of [(0, 60); (1000, 70)])).
  reflexivity.
Defined.

Lemma exposure_risk_below_85 (v t : number) :
  ltb v 85 = true -> PremiumFeatures.calculateExposureRisk v t = "minimal"%string.
Proof.
  intro H. unfold PremiumFeatures.calculateExposureRisk.
  destruct v as [ | | | r]; try discriminate H.
  - reflexivity.
  - cbn [ltb] in H. apply R_ltb_spec in H.
    cbn [geb leb]. rdecide. reflexivity.
Qed.

(** X12.  In every result of the premium aggregator the two verdicts
    agree: a result flagged OSHA compliant carries the exposure risk
    "minimal". *)
Theorem premium_compliant_is_minimal_risk
    (ms : list PremiumFeatures.ExtendedMeasurement)
    (tw : PremiumFeatures.TimeWeighted)
    (Hres : PremiumFeatures.calculateTimeWeightedExposure ms = Some tw)
    (Hosha : PremiumFeatures.oshaCompliant tw = true) :
  PremiumFeatures.exposureRisk tw = "minimal"%string.
Proof.
  unfold PremiumFeatures.calculateTimeWeightedExposure in Hres.
  destruct ms as [ | m ms]; [discriminate Hres|].
  destruct (PremiumFeatures.exposure_loop (m :: ms) (Fin 0, Fin 0))
    as [totalEnergy totalTime].
  injection Hres as Hres. subst tw.
  exact (exposure_risk_below_85 _ _ Hosha).
Qed.

Lemma premium_compliant_is_minimal_risk_witness :
  option_map PremiumFeatures.exposureRisk
    (PremiumFeatures.calculateTimeWeightedExposure (Spec.readings_of [(0, 70)]))
  = Some "minimal"%string.
Proof.
  destruct (PremiumFeatures.calculateTimeWeightedExposure
              (Spec.readings_of [(0, 70)])) as [tw | ] eqn:E.
  - cbn [option_map]. f_equal.
    apply (premium_compliant_is_minimal_risk _ tw E).
    rewrite calculateTimeWeightedExposure_fin in E by discriminate.
    cbn zeta in E. cbn [Spec.intervals Spec.time_sum fold_right] in E.
    rewrite (R_ltb_false 0 0) in E by lra.
    injection E as <-. cbn [PremiumFeatures.oshaCompliant ltb].
    apply R_ltb_true. lra.
  - discriminate E.
Defined.

End TwaRange.

(* ================================================================== *)
(** ** The level meter: rate gate, range and life cycle *)
(* ================================================================== *)

Section MeterLifeCycle.

Import AudioProcessor.

(** X13.  Rate gate: after a read that sampled a frame at time [now], every
    further read before the update interval has elapsed answers the same
    value and leaves the processor as it is, whatever the analyser would
    deliver. *)
Theorem rate_gate_repeats_reading (ap : Processor) (now now' : number)
    (timeData : list Byte.byte) (sampling' : Sampling)
    (Hserv : Spec.servicing ap) (Hgate : Spec.gate_open ap now)
    (Hwithin : ltb (sub now' now) (updateInterval ap) = true) :
  getCurrentDecibels
    (snd (getCurrentDecibels ap now (SampleFrame timeData))) now' sampling'
  = getCurrentDecibels ap now (SampleFrame timeData).
Proof.
  rewrite (getCurrentDecibels_fresh ap now timeData Hserv Hgate). cbn [snd].
  apply getCurrentDecibels_cached; [exact Hserv | exact Hwithin].
Qed.

Lemma rate_gate_repeats_reading_witness :
  getCurrentDecibels
    (snd (getCurrentDecibels
            (with_measuring (initialize constructor None) true true)
            (Fin 1000) (SampleFrame (repeat Byte.x80 2048))))
    (Fin 1010) (SampleFrame (repeat Byte.x00 2048))
  = getCurrentDecibels (with_measuring (initialize constructor None) true true)
      (Fin 1000) (SampleFrame (repeat Byte.x80 2048)).
Proof.
  apply rate_gate_repeats_reading.
  - exact started_servicing.
  - apply started_gate_open. lra.
  - cbn [with_measuring initialize loadCalibration constructor updateInterval
         sub neg add ltb]. apply R_ltb_true. lra.
Defined.

Lemma sample_amplitude_square (b : Byte.byte) :
  let a := (IZR (Z.of_N (Byte.to_N b)) + - (128)) / 128 in
  0 <= a * a <= 1.
Proof.
  cbn zeta.
  assert (Hb : (0 <= Z.of_N (Byte.to_N b) <= 255)%Z).
  { split; [apply N2Z.is_nonneg|].
    generalize (Byte.to_N_bounded b). lia. }
  assert (H0 : 0 <= IZR (Z.of_N (Byte.to_N b))) by (apply IZR_le; lia).
  assert (H1 : IZR (Z.of_N (Byte.to_N b)) <= 255) by (apply IZR_le; lia).
  set (x := IZR (Z.of_N (Byte.to_N b))) in *.
  assert (Hy : -1 <= (x + - (128)) / 128 <= 1) by lra.
  set (y := (x + - (128)) / 128) in *.
  split; nra.
Qed.

Lemma rms_sum_bounded (timeData : list Byte.byte) : forall s : R,
  0 <= s ->
  exists s' : R,
    fold_left rms_step timeData (Fin s) = Fin s'
    /\ s <= s' <= s + INR (List.length timeData).
Proof.
  induction timeData as [ | b l IH]; intros s Hs.
  - exists s. cbn [fold_left List.length INR]. split; [reflexivity | lra].
  - cbn [fold_left]. unfold rms_step at 2. unfold sample_value.
    cbn [sub neg add]. rewrite div_fin by lra. cbn [mul add].
    assert (Ha := sample_amplitude_square b). cbn zeta in Ha.
    set (q := (IZR (Z.of_N (Byte.to_N b)) + - (128)) / 128
              * ((IZR (Z.of_N (Byte.to_N b)) + - (128)) / 128)) in *.
    destruct (IH (s + q) ltac:(lra)) as (s' & Hs' & Hb).
    exists s'. split; [exact Hs'|].
    change (List.length (b :: l)) with (S (List.length l)).
    rewrite S_INR. lra.
Qed.

(** X14.  For every non-empty sample frame the RMS is a number between 0
    and 1, so the reading without calibration lies between 20 and 94 dB:
    above 94 dB the meter can only read with a positive calibration
    offset. *)
Theorem uncalibrated_reading_at_most_94 (timeData : list Byte.byte)
    (Hne : timeData <> []) :
  (exists rms : R, calculateRMS timeData = Fin rms /\ 0 <= rms <= 1)
  /\ (exists x : R,
        Spec.uncalibrated_reading timeData = Fin x /\ 20 <= x <= 94).
Proof.
  destruct (rms_sum_bounded timeData 0 (Rle_refl 0)) as (s & Hs & Hb).
  assert (Hn : 0 < INR (List.length timeData)).
  { generalize (length_pos_INR timeData Hne) (pos_INR (List.length timeData)). lra. }
  assert (Hq : 0 <= s / INR (List.length timeData) <= 1).
  { split.
    - apply Rmult_le_pos; [lra | apply Rlt_le, Rinv_0_lt_compat; exact Hn].
    - apply Rmult_le_reg_r with (INR (List.length timeData)); [exact Hn|].
      replace (s / INR (List.length timeData) * INR (List.length timeData))
        with s by (field; lra).
      lra. }
  assert (Hrms : calculateRMS timeData = Fin (sqrt (s / INR (List.length timeData)))).
  { unfold calculateRMS. rewrite Hs. unfold of_nat.
    rewrite div_fin by lra. cbn [Math_sqrt].
    rewrite (R_ltb_false _ 0) by lra. reflexivity. }
  assert (Hsq : 0 <= sqrt (s / INR (List.length timeData)) <= 1).
  { split; [apply sqrt_pos|].
    rewrite <- sqrt_1. apply sqrt_le_1_alt. lra. }
  split.
  - eexists. split; [exact Hrms | exact Hsq].
  - unfold Spec.uncalibrated_reading, Spec.raw_level. rewrite Hrms.
    unfold convertRMSToDecibels. cbn [leb].
    set (r := sqrt (s / INR (List.length timeData))) in *.
    destruct (Rle_dec r 0) as [H0 | H0].
    + rewrite (R_leb_true r 0 H0). rewrite clamp_neg_inf.
      exists 20. split; [reflexivity | lra].
    + rewrite (R_leb_false r 0) by lra.
      rewrite math_log10_pos by lra. cbn [mul add].
      assert (Hlog : log10 r <= 0).
      { replace 0 with (log10 1) by (unfold log10; rewrite ln_1; field;
                                     generalize ln_10_pos; lra).
        apply log10_monotone; lra. }
      rewrite clamp_fin. eexists. split; [reflexivity|].
      rsplit; lra.
Qed.

Lemma uncalibrated_reading_at_most_94_witness :
  exists x : R,
    Spec.uncalibrated_reading (repeat Byte.xff 2048) = Fin x /\ 20 <= x <= 94.
Proof.
  apply (proj2 (uncalibrated_reading_at_most_94 (repeat Byte.xff 2048)
                  (repeat_nonempty Byte.xff 2047))).
Defined.

(** X15.  After [stopMeasuring], [stop] or [cleanup] every read, also
    under the legacy name [getCurrentDb], answers 0 without touching the
    processor and [calibrate] throws; after [stop] or
    [cleanup] the measurement cannot be started again without a new
    initialisation.  Stopping and cleaning up twice is the same as once. *)
Theorem stopped_meter (ap : Processor) (now level : number) (sampling : Sampling) :
  getCurrentDecibels (stopMeasuring ap) now sampling = (Fin 0, stopMeasuring ap)
  /\ getCurrentDecibels (stop ap) now sampling = (Fin 0, stop ap)
  /\ getCurrentDecibels (cleanup ap) now sampling = (Fin 0, cleanup ap)
  /\ getCurrentDb (stop ap) now sampling = (Fin 0, stop ap)
  /\ calibrate (stopMeasuring ap) level now sampling
     = Thrown "Cannot calibrate: AudioProcessor not initialized or not measuring"
  /\ startMeasuring (stop ap)
     = Thrown "AudioProcessor not initialized. Call initialize() first."
  /\ startMeasuring (cleanup ap)
     = Thrown "AudioProcessor not initialized. Call initialize() first."
  /\ stopMeasuring (stopMeasuring ap) = stopMeasuring ap
  /\ cleanup (cleanup ap) = cleanup ap
  /\ stop (stop ap) = stop ap.
Proof.
  repeat split.
  - unfold getCurrentDecibels.
    cbn [stopMeasuring with_measuring isInitialized isMeasuring negb].
    rewrite orb_true_r. reflexivity.
  - unfold calibrate.
    cbn [stopMeasuring with_measuring isInitialized isMeasuring negb].
    rewrite orb_true_r. reflexivity.
Qed.

(** X16.  Starting an initialised processor succeeds and leaves it
    measuring; starting it again, which first stops the running
    measurement, gives the same processor: a restart is not an error and
    changes nothing. *)
Theorem restart_is_idempotent (ap : Processor) (Hinit : isInitialized ap = true) :
  exists ap1 : Processor,
    startMeasuring ap = Returned ap1
    /\ isMeasuring ap1 = true
    /\ isInitialized ap1 = true
    /\ calibrationOffset ap1 = calibrationOffset ap
    /\ startMeasuring ap1 = Returned ap1.
Proof.
  unfold startMeasuring. rewrite Hinit. cbn [negb].
  eexists. split; [reflexivity|].
  destruct (isMeasuring ap);
    cbn [stopMeasuring with_measuring isMeasuring isInitialized isActive
         calibrationOffset];
    rewrite ?Hinit; repeat split.
Qed.

Lemma restart_is_idempotent_witness :
  exists ap1 : Processor,
    startMeasuring (initialize constructor None) = Returned ap1
    /\ startMeasuring ap1 = Returned ap1.
Proof.
  destruct (restart_is_idempotent (initialize constructor None) eq_refl)
    as (ap1 & H1 & _ & _ & _ & H2).
  exists ap1. split; assumption.
Defined.

(** X17.  A meter that was initialised with a stored calibration that is a
    finite number, or with none, or with one that does not parse, and then
    started, answers every sampled non-empty frame with a number between 20
    and 140: an unreadable calibration is replaced by 0 and never shows up
    as NaN. *)
Theorem started_meter_reads_in_range (stored : option number) (ap : Processor)
    (now : number) (timeData : list Byte.byte)
    (Hstored : stored = None \/ stored = Some NaN
               \/ exists o : R, stored = Some (Fin o))
    (Hstart : startMeasuring (initialize constructor stored) = Returned ap)
    (Hgate : Spec.gate_open ap now)
    (Hne : timeData <> []) :
  exists x : R,
    fst (getCurrentDecibels ap now (SampleFrame timeData)) = Fin x
    /\ 20 <= x <= 140.
Proof.
  unfold startMeasuring in Hstart.
  cbn [initialize isInitialized negb isMeasuring loadCalibration] in Hstart.
  assert (Hoff : exists o : R,
             calibrationOffset (loadCalibration constructor stored) = Fin o).
  { destruct Hstored as [-> | [-> | (o & ->)]].
    - exists 0. reflexivity.
    - exists 0. reflexivity.
    - cbn [loadCalibration with_calibrationOffset calibrationOffset].
      unfold or_else, truthy.
      destruct (R_eqb o 0); cbn [negb]; eexists; reflexivity. }
  destruct Hoff as (o & Ho).
  assert (Hm : isMeasuring (loadCalibration constructor stored) = false)
    by (destruct stored; reflexivity).
  rewrite Hm in Hstart. injection Hstart as <-.
  apply (sampled_reading_finite _ now timeData o).
  - repeat split. discriminate.
  - exact Hgate.
  - exact Ho.
  - exact Hne.
Qed.

Lemma started_meter_reads_in_range_witness :
  exists x : R,
    fst (getCurrentDecibels (with_measuring (initialize constructor (Some NaN)) true true)
           (Fin 1000) (SampleFrame (repeat Byte.x00 2048))) = Fin x
    /\ 20 <= x <= 140.
Proof.
  apply (started_meter_reads_in_range (Some NaN)).
  - right. left. reflexivity.
  - reflexivity.
  - unfold Spec.gate_open.
    cbn [with_measuring initialize loadCalibration with_calibrationOffset
         constructor lastUpdateTime updateInterval sub neg add ltb].
    apply R_ltb_false. lra.
  - apply repeat_nonempty.
Defined.

End MeterLifeCycle.

(* ================================================================== *)
(** ** Median and percentiles of the premium analysis *)
(* ================================================================== *)

Section PremiumStatistics.

Lemma nth_in_bounds (s : list R) (lo hi : R) (k : nat) :
  Forall (fun x => lo <= x <= hi) s -> (k < List.length s)%nat ->
  lo <= nth k s 0 <= hi.
Proof.
  intros Hall Hk. rewrite Forall_forall in Hall.
  apply Hall, nth_In, Hk.
Qed.

(** For non-empty finite values and a percentile between 0 and 100 the
    premium percentile is a number between any two bounds of the values. *)
Lemma percentile_between (l : list R) (p lo hi : R)
    (Hne : l <> []) (Hp : 0 <= p <= 100)
    (Hall : Forall (fun x => lo <= x <= hi) l) :
  exists v : R,
    PremiumFeatures.calculatePercentile (map Fin l) (Fin p) = Some (Fin v)
    /\ lo <= v <= hi.
Proof.
  destruct (sort_by_ascending_sorts l) as (s & Hsort & Hperm & _).
  assert (Hlen : (0 < List.length s)%nat).
  { rewrite <- (Permutation_length Hperm). destruct l; [contradiction | cbn; lia]. }
  assert (Hidx := percentile_index_bounds p (List.length s) Hlen Hp).
  rewrite (premium_percentile_sorted (map Fin l) s p Hsort Hidx).
  eexists. split; [reflexivity|].
  assert (Hs : Forall (fun x => lo <= x <= hi) s)
    by (eapply Permutation_Forall; eassumption).
  unfold Spec.interpolate.
  set (idx := Spec.percentile_index p (List.length s)) in *.
  destruct (index_bounds idx (List.length s) Hidx) as (_ & _ & Hfn & Hcn).
  assert (Ha := nth_in_bounds s lo hi _ Hs Hfn).
  assert (Hb := nth_in_bounds s lo hi _ Hs Hcn).
  assert (Hw := Zfloor_bound idx).
  set (w := idx - IZR (Zfloor idx)) in *.
  assert (Hw' : 0 <= w < 1) by (unfold w; lra).
  split; nra.
Qed.

Lemma sorted_head_least (x : R) (s : list R) :
  Sorted Rle (x :: s) -> Forall (fun y => x <= y) (x :: s).
Proof.
  intro Hs. apply Sorted_StronglySorted in Hs.
  - inversion Hs as [ | ? ? _ Hall]; subst.
    constructor; [apply Rle_refl | exact Hall].
  - intros a b c. apply Rle_trans.
Qed.

Lemma sorted_last_greatest (s : list R) :
  Sorted Rle s -> forall k : nat, (k < List.length s)%nat ->
  nth k s 0 <= nth (List.length s - 1) s 0.
Proof.
  intro Hs. apply Sorted_StronglySorted in Hs;
    [ | intros a b c; apply Rle_trans].
  induction Hs as [ | x s Hs IH Hall]; intros k Hk; [cbn in Hk; lia|].
  cbn [List.length] in *. replace (S (List.length s) - 1)%nat with (List.length s) by lia.
  destruct s as [ | y s'].
  - destruct k; [apply Rle_refl | cbn in Hk; lia].
  - cbn [List.length nth].
    destruct k as [ | k].
    + rewrite Forall_forall in Hall. apply Hall.
      apply (nth_In (y :: s') 0). cbn [List.length]. lia.
    + specialize (IH k ltac:(cbn [List.length] in *; lia)).
      cbn [List.length] in IH.
      replace (S (List.length s') - 1)%nat with (List.length s') in IH by lia.
      exact IH.
Qed.

(** For non-empty finite values the premium percentile 0 is the smallest
    value and the percentile 100 the largest one. *)
Lemma percentile_0_and_100 (l : list R) (Hne : l <> []) :
  exists least greatest : R,
    PremiumFeatures.calculatePercentile (map Fin l) (Fin 0) = Some (Fin least)
    /\ PremiumFeatures.calculatePercentile (map Fin l) (Fin 100)
       = Some (Fin greatest)
    /\ In least l /\ In greatest l
    /\ Forall (fun x => least <= x <= greatest) l.
Proof.
  destruct (sort_by_ascending_sorts l) as (s & Hsort & Hperm & Hsorted).
  assert (Hlen : (0 < List.length s)%nat).
  { rewrite <- (Permutation_length Hperm). destruct l; [contradiction | cbn; lia]. }
  exists (nth 0 s 0), (nth (List.length s - 1) s 0).
  split; [ | split; [ | split; [ | split]]].
  - apply (premium_percentile_integer (map Fin l) s 0 0 Hsort); [ | exact Hlen].
    unfold Spec.percentile_index. cbn [INR]. lra.
  - apply (premium_percentile_integer (map Fin l) s 100 (List.length s - 1) Hsort);
      [ | lia].
    unfold Spec.percentile_index. rewrite minus_INR by lia. cbn [INR]. lra.
  - apply (Permutation_in _ (Permutation_sym Hperm)). apply nth_In. exact Hlen.
  - apply (Permutation_in _ (Permutation_sym Hperm)). apply nth_In. lia.
  - apply (Permutation_Forall (Permutation_sym Hperm)).
    rewrite Forall_forall. intros x Hx.
    destruct (In_nth s x 0 Hx) as (k & Hk & <-).
    split.
    + destruct s as [ | y s']; [cbn in Hlen; lia|].
      assert (Hleast := sorted_head_least y s' Hsorted).
      rewrite Forall_forall in Hleast.
      change (nth 0 (y :: s') 0) with y.
      apply Hleast. apply nth_In. exact Hk.
    + apply sorted_last_greatest; assumption.
Qed.

(** X18.  For non-empty finite values the premium percentile 0 is the
    smallest value and the percentile 100 the largest one (each is one of
    the values and bounds all of them), and every percentile between 0 and
    100 is a number between these two. *)
Theorem percentile_extremes (l : list R) (p : R)
    (Hne : l <> []) (Hp : 0 <= p <= 100) :
  exists least greatest v : R,
    PremiumFeatures.calculatePercentile (map Fin l) (Fin 0) = Some (Fin least)
    /\ PremiumFeatures.calculatePercentile (map Fin l) (Fin 100)
       = Some (Fin greatest)
    /\ In least l /\ In greatest l
    /\ Forall (fun x => least <= x <= greatest) l
    /\ PremiumFeatures.calculatePercentile (map Fin l) (Fin p) = Some (Fin v)
    /\ least <= v <= greatest.
Proof.
  destruct (percentile_0_and_100 l Hne)
    as (least & greatest & H0 & H100 & Hl & Hg & Hall).
  destruct (percentile_between l p least greatest Hne Hp Hall) as (v & Hv & Hb).
  exists least, greatest, v. repeat split; try assumption; apply Hb.
Qed.

Lemma percentile_extremes_witness :
  exists least greatest v : R,
    PremiumFeatures.calculatePercentile (map Fin [70; 40; 55]) (Fin 0)
    = Some (Fin least)
    /\ PremiumFeatures.calculatePercentile (map Fin [70; 40; 55]) (Fin 100)
       = Some (Fin greatest)
    /\ In least [70; 40; 55] /\ In greatest [70; 40; 55]
    /\ Forall (fun x => least <= x <= greatest) [70; 40; 55]
    /\ PremiumFeatures.calculatePercentile (map Fin [70; 40; 55]) (Fin 90)
       = Some (Fin v)
    /\ least <= v <= greatest.
Proof. apply percentile_extremes; [discriminate | lra]. Defined.

Lemma INR_half (n : nat) :
  INR n = 2 * INR (n / 2) + INR (n mod 2) /\ (n mod 2 < 2)%nat.
Proof.
  split.
  - rewrite (Nat.div_mod_eq n 2) at 1.
    rewrite plus_INR, mult_INR. cbn [INR]. ring.
  - apply Nat.mod_upper_bound. discriminate.
Qed.

Lemma half_floor (n : nat) : Zfloor (INR n / 2) = Z.of_nat (n / 2).
Proof.
  destruct (INR_half n) as [Hn Hr].
  apply Zfloor_eq. rewrite <- INR_IZR_INZ.
  assert (H0 := pos_INR (n mod 2)).
  assert (H1 : INR (n mod 2) < 2).
  { replace 2 with (INR 2) by (cbn [INR]; lra). apply lt_INR. exact Hr. }
  lra.
Qed.

Lemma even_mod (n : nat) : Nat.even n = true -> (n mod 2 = 0)%nat.
Proof.
  intro H. apply Nat.even_spec in H. destruct H as [k ->].
  rewrite Nat.mul_comm. apply Nat.Div0.mod_mul.
Qed.

Lemma odd_mod (n : nat) : Nat.even n = false -> (n mod 2 = 1)%nat.
Proof.
  intro H.
  assert (Ho : Nat.odd n = true) by (rewrite <- Nat.negb_even, H; reflexivity).
  apply Nat.odd_spec in Ho. destruct Ho as [k ->].
  rewrite Nat.add_comm, Nat.mul_comm. rewrite Nat.Div0.mod_add. reflexivity.
Qed.

(** The premium median over values whose sorted order is known. *)
Lemma premium_median_sorted (values : list number) (s : list R) :
  sort_by ascending values = map Fin s -> s <> [] ->
  PremiumFeatures.calculateMedian values
  = Some (Fin (if Nat.even (List.length s)
               then (nth (List.length s / 2 - 1) s 0
                     + nth (List.length s / 2) s 0) / 2
               else nth (List.length s / 2) s 0)).
Proof.
  intros Hsort Hne.
  unfold PremiumFeatures.calculateMedian. rewrite Hsort, length_map.
  unfold of_nat. rewrite div_fin by lra. cbn [Math_floor].
  rewrite half_floor.
  set (n := List.length s). set (q := (n / 2)%nat).
  assert (Hn : (0 < n)%nat) by (unfold n; destruct s; [contradiction | cbn; lia]).
  assert (Hdm := Nat.div_mod_eq n 2). fold q in Hdm.
  destruct (Nat.even n) eqn:He.
  - apply even_mod in He. 
    assert (Hq : (1 <= q)%nat) by lia.
    cbn [sub neg add].
    replace (IZR (Z.of_nat q) + - (1)) with (IZR (Z.of_nat q - 1))
      by (rewrite minus_IZR; lra).
    rewrite !index_fin by lia.
    rewrite !nth_error_fin by (fold n; lia).
    cbn [to_number add]. rewrite div_fin by lra.
    replace (Z.to_nat (Z.of_nat q - 1)) with (q - 1)%nat by lia.
    rewrite Nat2Z.id. reflexivity.
  - apply odd_mod in He.
    rewrite index_fin by lia. rewrite Nat2Z.id.
    apply nth_error_fin. fold n. lia.
Qed.

(** X19.  For non-empty finite values the premium median is the premium
    50th percentile. *)
Theorem premium_median_is_percentile_50 (l : list R) (Hne : l <> []) :
  PremiumFeatures.calculateMedian (map Fin l)
  = PremiumFeatures.calculatePercentile (map Fin l) (Fin 50).
Proof.
  destruct (sort_by_ascending_sorts l) as (s & Hsort & Hperm & _).
  assert (Hs : s <> []).
  { intro E. subst s. apply Permutation_length in Hperm.
    destruct l; [contradiction | discriminate]. }
  rewrite (premium_median_sorted _ s Hsort Hs).
  set (n := List.length s).
  assert (Hn : (0 < n)%nat) by (unfold n; destruct s; [contradiction | cbn; lia]).
  destruct (INR_half n) as [HnR _].
  assert (Hdm := Nat.div_mod_eq n 2).
  set (q := (n / 2)%nat) in *.
  destruct (Nat.even n) eqn:He.
  - apply even_mod in He. rewrite He in HnR. cbn [INR] in HnR.
    assert (Hq : (1 <= q)%nat) by lia.
    assert (HqR : 1 <= INR q)
      by (replace 1 with (INR 1) by reflexivity; apply le_INR; exact Hq).
    assert (Hidx : Spec.percentile_index 50 n = INR q - / 2)
      by (unfold Spec.percentile_index; lra).
    rewrite (premium_percentile_sorted _ s 50 Hsort).
    + fold n. rewrite Hidx. unfold Spec.interpolate.
      assert (Hf : Zfloor (INR q - / 2) = (Z.of_nat q - 1)%Z).
      { apply Zfloor_eq. rewrite minus_IZR, <- INR_IZR_INZ. lra. }
      assert (Hc : Zceil (INR q - / 2) = Z.of_nat q).
      { apply Zceil_eq. rewrite <- INR_IZR_INZ. lra. }
      rewrite Hf, Hc, minus_IZR, <- INR_IZR_INZ, Nat2Z.id.
      replace (Z.to_nat (Z.of_nat q - 1)) with (q - 1)%nat by lia.
      do 2 f_equal. field.
    + fold n. rewrite Hidx. lra.
  - apply odd_mod in He. rewrite He in HnR. cbn [INR] in HnR.
    symmetry.
    apply (premium_percentile_integer _ s 50 q Hsort).
    + fold n. unfold Spec.percentile_index. lra.
    + fold n. lia.
Qed.

Lemma premium_median_is_percentile_50_witness :
  PremiumFeatures.calculateMedian (map Fin [70; 40; 55; 90])
  = PremiumFeatures.calculatePercentile (map Fin [70; 40; 55; 90]) (Fin 50).
Proof. apply premium_median_is_percentile_50. discriminate. Defined.

End PremiumStatistics.

(* ================================================================== *)
(** ** Noise events of the premium session *)
(* ================================================================== *)

Section NoiseEvents.

Import PremiumFeatures.

Lemma Forall_skipn_keeps {A : Type} (P : A -> Prop) (n : nat) (l : list A) :
  Forall P l -> Forall P (skipn n l).
Proof.
  revert l. induction n as [ | n IH]; intros l H; [exact H|].
  destruct l as [ | x l]; [constructor|].
  cbn [skipn]. apply IH. inversion H; assumption.
Qed.

Lemma sum_steady_levels (c : R) (ms : list ExtendedMeasurement) :
  Forall (fun m => db m = Fin c) ms ->
  forall s : R,
    fold_left (fun sum m => add sum (db m)) ms (Fin s)
    = Fin (s + INR (List.length ms) * c).
Proof.
  induction 1 as [ | m ms Hm _ IH]; intro s.
  - cbn [fold_left List.length INR]. f_equal. ring.
  - cbn [fold_left]. rewrite Hm. cbn [add]. rewrite IH.
    change (List.length (m :: ms)) with (S (List.length ms)).
    rewrite S_INR. f_equal. ring.
Qed.

(** No event is detected for the level that all stored measurements have. *)
Lemma detect_steady (s : Session) (c : R) (t : number) :
  Forall (fun m => db m = Fin c) (extendedMeasurements s) ->
  detectNoiseEvents s (Fin c) t = s.
Proof.
  intro Hall. unfold detectNoiseEvents.
  set (recent := slice_last 5 (extendedMeasurements s)).
  assert (Hrecent : Forall (fun m => db m = Fin c) recent)
    by (apply Forall_skipn_keeps; exact Hall).
  destruct (Nat.ltb_spec (List.length recent) 2) as [ | Hlen]; [reflexivity|].
  rewrite (sum_steady_levels c recent Hrecent). unfold of_nat.
  assert (Hk : INR (List.length recent) <> 0)
    by (apply not_0_INR; lia).
  rewrite div_fin by exact Hk.
  cbn [sub neg add Math_abs]. unfold gtb. cbn [ltb].
  replace (c + - ((0 + INR (List.length recent) * c) / INR (List.length recent)))
    with 0 by (field; exact Hk).
  rewrite Rabs_R0. rewrite (R_ltb_false 10 0) by lra. reflexivity.
Qed.

Lemma collect_steady (s : Session) (c : R) (t : number) :
  Forall (fun m => db m = Fin c) (extendedMeasurements s) ->
  noiseEvents (collectDetailedData s (Fin c) t) = noiseEvents s
  /\ extendedMeasurements (collectDetailedData s (Fin c) t)
     = (extendedMeasurements s ++ [{| timestamp := t; db := Fin c |}])%list.
Proof.
  intro Hall. unfold collectDetailedData.
  rewrite detect_steady.
  - split; reflexivity.
  - cbn [extendedMeasurements]. apply Forall_app. split; [exact Hall|].
    constructor; [reflexivity | constructor].
Qed.

Lemma run_steady (c : R) (ts : list number) : forall s : Session,
  Forall (fun m => db m = Fin c) (extendedMeasurements s) ->
  noiseEvents (fold_left (fun s t => collectDetailedData s (Fin c) t) ts s)
  = noiseEvents s
  /\ map db (extendedMeasurements
               (fold_left (fun s t => collectDetailedData s (Fin c) t) ts s))
     = (map db (extendedMeasurements s) ++ repeat (Fin c) (List.length ts))%list.
Proof.
  induction ts as [ | t ts IH]; intros s Hall.
  - cbn. rewrite app_nil_r. split; reflexivity.
  - cbn [fold_left].
    destruct (collect_steady s c t Hall) as [He Hm].
    destruct (IH (collectDetailedData s (Fin c) t)) as [He' Hm'].
    + rewrite Hm. apply Forall_app. split; [exact Hall|].
      constructor; [reflexivity | constructor].
    + split; [rewrite He', He; reflexivity|].
      rewrite Hm', Hm, map_app, <- app_assoc. reflexivity.
Qed.

Lemma reduce_add_fin (l : list R) :
  l <> [] -> reduce_add (map Fin l) = Some (Fin (fold_right Rplus 0 l)).
Proof.
  destruct l as [ | x l]; [contradiction | intros _].
  cbn [map reduce_add]. rewrite sum_numbers_fin_from. reflexivity.
Qed.

(** The premium variance of finite values, as a real. *)
Lemma premium_variance_fin (x : R) (l : list R) :
  calculateVariance (map Fin (x :: l))
  = let mean := fold_right Rplus 0 (x :: l) / INR (List.length (x :: l)) in
    Some (Fin (fold_right Rplus 0
                 (map (fun y => (y + - mean) * (y + - mean)) (x :: l))
               / INR (List.length (x :: l)))).
Proof.
  assert (Hn : INR (List.length (x :: l)) <> 0)
    by (apply not_0_INR; discriminate).
  unfold calculateVariance. rewrite reduce_add_fin by discriminate.
  rewrite length_map. unfold of_nat. rewrite div_fin by exact Hn.
  rewrite map_map. cbn [sub neg add Math_pow2].
  set (mean := fold_right Rplus 0 (x :: l) / INR (List.length (x :: l))).
  rewrite <- (map_map (fun y => (y + - mean) * (y + - mean)) Fin).
  rewrite reduce_add_fin by discriminate.
  rewrite div_fin by exact Hn. reflexivity.
Qed.

Lemma premium_variance_steady (c : R) (n : nat) :
  calculateVariance (repeat (Fin c) (S n)) = Some (Fin 0).
Proof.
  assert (Hrep : forall k, repeat (Fin c) k = map Fin (repeat c k))
    by (intro k; induction k; cbn; [ | f_equal]; auto).
  rewrite Hrep. cbn [repeat]. rewrite premium_variance_fin. cbn zeta.
  change (c :: repeat c n) with (repeat c (S n)).
  rewrite repeat_length, sum_repeat.
  assert (Hn : INR (S n) <> 0) by (apply not_0_INR; discriminate).
  replace (INR (S n) * c / INR (S n)) with c by (field; exact Hn).
  assert (Hz : forall k, fold_right Rplus 0
                 (map (fun y => (y + - c) * (y + - c)) (repeat c k)) = 0).
  { induction k as [ | k IHk]; cbn [repeat map fold_right]; [reflexivity|].
    rewrite IHk. ring. }
  rewrite Hz. do 2 f_equal. field. exact Hn.
Qed.

(** X20.  A steady signal never raises a noise event: when a session that
    was just activated collects the same finite level at every sample, the
    list of noise events stays empty after any number of samples, every
    sample is stored, and from ten samples on the data are rated
    "very-stable". *)
Theorem steady_session_has_no_events (c : R) (start : number) (ts : list number) :
  let session :=
    fold_left (fun s t => collectDetailedData s (Fin c) t) ts
              (activate constructor start) in
  noiseEvents session = []
  /\ map db (extendedMeasurements session) = repeat (Fin c) (List.length ts)
  /\ ((10 <= List.length ts)%nat ->
      assessDataConsistency session = Some "very-stable"%string).
Proof.
  cbn zeta.
  destruct (run_steady c ts (activate constructor start) (Forall_nil _))
    as [He Hm].
  change (map db (extendedMeasurements (activate constructor start))
          ++ repeat (Fin c) (List.length ts))%list
    with (repeat (Fin c) (List.length ts)) in Hm.
  split; [exact He|]. split; [exact Hm|].
  intro Hlen. unfold assessDataConsistency.
  assert (Hl : List.length
                 (extendedMeasurements
                    (fold_left (fun s t => collectDetailedData s (Fin c) t) ts
                       (activate constructor start)))
               = List.length ts).
  { rewrite <- (length_map db), Hm, repeat_length. reflexivity. }
  rewrite Hl.
  destruct (Nat.ltb_spec (List.length ts) 10) as [H | _]; [lia|].
  rewrite Hm.
  destruct (List.length ts) as [ | n]; [lia|].
  rewrite premium_variance_steady. cbn [ltb].
  rewrite (R_ltb_true 0 25) by lra. reflexivity.
Qed.

Lemma steady_session_has_no_events_witness :
  assessDataConsistency
    (fold_left (fun s t => collectDetailedData s (Fin 62) t)
               (map (fun k => Fin (INR k * 100)) (seq 0 12))
               (activate constructor (Fin 0)))
  = Some "very-stable"%string.
Proof.
  apply (steady_session_has_no_events 62 (Fin 0)
           (map (fun k => Fin (INR k * 100)) (seq 0 12))).
  rewrite length_map, length_seq. lia.
Defined.



End NoiseEvents.

(* ================================================================== *)
(** ** The quality of the data of a session *)
(* ================================================================== *)

Section DataQuality.

Import PremiumFeatures.

(** The machine's completeness at the three thresholds of the score, and
    at 3015 samples, where the exact percentage is 100.5. *)
Lemma completeness_70 : to_double (to_double (70 / 100) * 100) = 70.
Proof.
  double_eval (70 / 100) (-1)%Z 6305039478318694%Z.
  double_eval (6305039478318694 * / 9007199254740992 * 100)
              6%Z 4925812092436480%Z.
  lra.
Qed.

Lemma completeness_85 : to_double (to_double (85 / 100) * 100) = 85.
Proof.
  double_eval (85 / 100) (-1)%Z 7656119366529843%Z.
  double_eval (7656119366529843 * / 9007199254740992 * 100)
              6%Z 5981343255101440%Z.
  lra.
Qed.

Lemma completeness_95 : to_double (to_double (95 / 100) * 100) = 95.
Proof.
  double_eval (95 / 100) (-1)%Z 8556839292003942%Z.
  double_eval (8556839292003942 * / 9007199254740992 * 100)
              6%Z 6685030696878080%Z.
  lra.
Qed.

Lemma completeness_3015 :
  to_double (to_double (3015 / 3000) * 100)
  = 7072058789855231 / 70368744177664.
Proof.
  double_eval (3015 / 3000) 0%Z 4526117625507348%Z.
  double_eval (4526117625507348 * / 4503599627370496 * 100)
              6%Z 7072058789855231%Z.
  lra.
Qed.

(** The machine's completeness between two fractions of a full session. *)
Lemma completeness_at_least (x0 c0 : R) (n : nat) :
  0 <= x0 -> x0 <= INR n / 3000 ->
  to_double (to_double x0 * 100) = c0 ->
  c0 <= machine_completeness n.
Proof.
  intros H0 Hx <-. unfold machine_completeness.
  assert (H1 : to_double 0 <= to_double x0)
    by (apply to_double_monotone; lra).
  rewrite to_double_0 in H1.
  assert (H2 : to_double x0 <= to_double (INR n / 3000))
    by (apply to_double_monotone; lra).
  apply to_double_monotone; lra.
Qed.

Lemma completeness_at_most (m1 m2 : Z) (k1 k2 : nat) (n : nat) :
  INR n / 3000 <= IZR m1 / 2 ^ k1 ->
  IZR m1 / 2 ^ k1 * 100 = IZR m2 / 2 ^ k2 ->
  (Z.abs m1 < 2 ^ 53)%Z -> (k1 <= 1074)%nat ->
  (Z.abs m2 < 2 ^ 53)%Z -> (k2 <= 1074)%nat ->
  machine_completeness n <= IZR m2 / 2 ^ k2.
Proof.
  intros Hx E Hm1 Hk1 Hm2 Hk2. unfold machine_completeness.
  assert (Hn : 0 <= INR n / 3000).
  { assert (Hp := pos_INR n). lra. }
  assert (H0 : to_double 0 <= to_double (INR n / 3000))
    by (apply to_double_monotone; lra).
  rewrite to_double_0 in H0.
  assert (H1 : to_double (INR n / 3000) <= to_double (IZR m1 / 2 ^ k1))
    by (apply to_double_monotone; lra).
  rewrite (to_double_dyadic m1 k1 Hm1 Hk1) in H1.
  rewrite <- (to_double_dyadic m2 k2 Hm2 Hk2), <- E.
  apply to_double_monotone; lra.
Qed.

(** The machine's completeness is close to the exact percentage. *)
Lemma completeness_error (n : nat) :
  (Z.of_nat n < 2 ^ 32)%Z ->
  Rabs (machine_completeness n - INR n / 30) <= / 120.
Proof.
  intro Hn. unfold machine_completeness.
  destruct n as [ | n'].
  { cbn [INR]. replace (0 / 3000) with 0 by lra.
    rewrite to_double_0, Rmult_0_l, to_double_0.
    replace (0 - 0 / 30) with 0 by lra. rewrite Rabs_R0. lra. }
  set (n := S n') in *.
  assert (N1 : 1 <= INR n).
  { change 1 with (INR 1). apply le_INR. unfold n. lia. }
  assert (N2 : INR n < 4294967296).
  { rewrite INR_IZR_INZ. apply IZR_lt. exact Hn. }
  assert (Ha := to_double_error (INR n / 3000)).
  set (a := to_double (INR n / 3000)) in *.
  assert (Hc := to_double_error (a * 100)).
  set (c := to_double (a * 100)) in *.
  revert Ha Hc. pow2_eval. intros Ha Hc.
  specialize (Ha ltac:(lra)). apply Rabs_le_between in Ha.
  specialize (Hc ltac:(lra)). apply Rabs_le_between in Hc.
  apply Rabs_le. lra.
Qed.

(** X22.  The quality score of a session is decided by the number of
    stored samples alone, against the 3000 samples of a full session:
    "poor" below 2100 samples, "fair" below 2550, "good" below 2850 and
    "excellent" from 2850 on, also beyond 3000.  The completeness reported
    is a whole number within one half of the number of samples divided by
    30 and is not capped at 100: from 3016 samples on it is above 100.  At
    3015 samples, where the exact percentage is 100.5, it is 100: the
    machine's quotient and product fall just below the half. *)
Theorem data_quality_by_sample_count (s : Session) :
  let n := List.length (extendedMeasurements s) in
  fst (data_quality_score s)
  = (if (n <? 2100)%nat then "poor"
     else if (n <? 2550)%nat then "fair"
     else if (n <? 2850)%nat then "good" else "excellent")%string
  /\ (exists k : Z,
        snd (data_quality_score s) = Fin (IZR k)
        /\ ((Z.of_nat n < 2 ^ 32)%Z ->
            Rabs (IZR k - INR n / 30) <= / 2
            /\ ((3016 <= n)%nat -> (100 < k)%Z)))
  /\ (n = 3015%nat -> snd (data_quality_score s) = Fin 100).
Proof.
  cbn zeta. unfold data_quality_score. cbn [fst snd]. unfold of_nat, fmul, fdiv.
  cbn [mul]. rewrite div_fin by lra. cbn [rounded mul ltb Math_round].
  set (n := List.length (extendedMeasurements s)).
  replace (to_double (to_double (INR n / (300 * 10)) * 100))
    with (machine_completeness n)
    by (unfold machine_completeness; do 3 f_equal; lra).
  assert (E1 : INR 2100 = 2100) by (rewrite INR_IZR_INZ; reflexivity).
  assert (E2 : INR 2550 = 2550) by (rewrite INR_IZR_INZ; reflexivity).
  assert (E3 : INR 2850 = 2850) by (rewrite INR_IZR_INZ; reflexivity).
  split; [ | split].
  - destruct (Nat.ltb_spec n 2100) as [H1 | H1].
    { assert (Hn : INR n <= INR 2099) by (apply le_INR; lia).
      assert (E0 : INR 2099 = 2099) by (rewrite INR_IZR_INZ; reflexivity).
      assert (U := completeness_at_most 1433 35825 11 9 n).
      simpl pow in U.
      specialize (U ltac:(lra) ltac:(lra) ltac:(reflexivity) ltac:(lia)
                    ltac:(reflexivity) ltac:(lia)).
      rdecide. reflexivity. }
    apply le_INR in H1.
    assert (L70 := completeness_at_least (70 / 100) 70 n
                     ltac:(lra) ltac:(lra) completeness_70).
    destruct (Nat.ltb_spec n 2550) as [H2 | H2].
    { assert (Hn : INR n <= INR 2549) by (apply le_INR; lia).
      assert (E0 : INR 2549 = 2549) by (rewrite INR_IZR_INZ; reflexivity).
      assert (U := completeness_at_most 3481 87025 12 10 n).
      simpl pow in U.
      specialize (U ltac:(lra) ltac:(lra) ltac:(reflexivity) ltac:(lia)
                    ltac:(reflexivity) ltac:(lia)).
      rdecide. reflexivity. }
    apply le_INR in H2.
    assert (L85 := completeness_at_least (85 / 100) 85 n
                     ltac:(lra) ltac:(lra) completeness_85).
    destruct (Nat.ltb_spec n 2850) as [H3 | H3].
    { assert (Hn : INR n <= INR 2849) by (apply le_INR; lia).
      assert (E0 : INR 2849 = 2849) by (rewrite INR_IZR_INZ; reflexivity).
      assert (U := completeness_at_most 1945 48625 11 9 n).
      simpl pow in U.
      specialize (U ltac:(lra) ltac:(lra) ltac:(reflexivity) ltac:(lia)
                    ltac:(reflexivity) ltac:(lia)).
      rdecide. reflexivity. }
    apply le_INR in H3.
    assert (L95 := completeness_at_least (95 / 100) 95 n
                     ltac:(lra) ltac:(lra) completeness_95).
    rdecide. reflexivity.
  - eexists. split; [reflexivity|].
    intro Hn. assert (He := completeness_error n Hn). apply Rabs_le_between in He.
    assert (Hf := Zfloor_bound (machine_completeness n + / 2)).
    set (k := Zfloor (machine_completeness n + / 2)) in *.
    assert (Hup : (30 * k <= Z.of_nat n + 15)%Z).
    { assert (H : (30 * k < Z.of_nat n + 16)%Z); [ | lia].
      apply lt_IZR. rewrite mult_IZR, plus_IZR, <- INR_IZR_INZ. lra. }
    assert (Hlo : (Z.of_nat n - 15 <= 30 * k)%Z).
    { assert (H : (Z.of_nat n - 16 < 30 * k)%Z); [ | lia].
      apply lt_IZR. rewrite mult_IZR, minus_IZR, <- INR_IZR_INZ. lra. }
    split.
    + apply IZR_le in Hup. apply IZR_le in Hlo.
      rewrite mult_IZR, plus_IZR, <- INR_IZR_INZ in Hup.
      rewrite mult_IZR, minus_IZR, <- INR_IZR_INZ in Hlo.
      apply Rabs_le. lra.
    + intro H. lia.
  - intro H3015. rewrite H3015. unfold machine_completeness.
    replace (INR 3015 / 3000) with (3015 / 3000)
      by (rewrite INR_IZR_INZ; reflexivity).
    rewrite completeness_3015. f_equal.
    change 100 with (IZR 100). f_equal. apply Zfloor_eq. lra.
Qed.

End DataQuality.

(* ================================================================== *)
(** ** The measurement history *)
(* ================================================================== *)

Section HistoryProperties.

Import History.

(** What one addition does to the history. *)
Lemma addMeasurement_inserts (h : MeasurementHistory)
    (data : MeasurementData) (newId : string) (now : number) :
  let m := fst (addMeasurement h data newId now) in
  let h' := snd (addMeasurement h data newId now) in
  measurements h' = firstn (maxRecords h) (m :: measurements h)
  /\ (List.length (measurements h') <= maxRecords h)%nat
  /\ maxRecords h' = maxRecords h
  /\ truthy (duration m) = true
  /\ (~ In "Unknown Location"%string (locations h) ->
      ~ In "Unknown Location"%string (locations h')).
Proof.
  cbn zeta. unfold addMeasurement. cbn [fst snd measurements maxRecords locations].
  set (m := {| id := newId; timestamp := _; averageDb := _; minDb := _;
               maxDb := _; duration := _; location := _; notes := _;
               isPremium := _; sessionType := _ |}).
  split; [ | split; [ | split; [ | split]]].
  - destruct (Nat.ltb_spec (maxRecords h) (List.length (m :: History.measurements h)))
      as [H | H]; [reflexivity|].
    symmetry. apply firstn_all2. exact H.
  - destruct (Nat.ltb_spec (maxRecords h) (List.length (m :: History.measurements h)))
      as [H | H]; [ | exact H].
    rewrite length_firstn. lia.
  - reflexivity.
  - cbn [m duration]. unfold or_else.
    destruct (truthy (data_duration data)) eqn:Hd; [exact Hd|].
    cbn [truthy]. rewrite R_eqb_false by lra. reflexivity.
  - intro Hnot.
    destruct (String.eqb (location m) "Unknown Location") eqn:Hloc;
      cbn [negb]; [exact Hnot|].
    unfold set_add. destruct (existsb _ _); [exact Hnot|].
    intro Hin. apply in_app_or in Hin. destruct Hin as [Hin | [Hin | []]].
    + contradiction.
    + rewrite <- Hin in Hloc. rewrite String.eqb_refl in Hloc. discriminate.
Qed.

(** X23.  Adding a measurement puts it in front of the stored ones and
    cuts the list at the record limit, so that the history never holds more
    than [maxRecords] entries and drops the oldest first; the stored
    duration is never 0 or NaN (30 seconds stand in), and the placeholder
    location is never entered into the set of locations. *)
Theorem add_measurement_keeps_limit (h : MeasurementHistory)
    (data : MeasurementData) (newId : string) (now : number) :
  let m := fst (addMeasurement h data newId now) in
  let h' := snd (addMeasurement h data newId now) in
  measurements h' = firstn (maxRecords h) (m :: measurements h)
  /\ (List.length (measurements h') <= maxRecords h)%nat
  /\ maxRecords h' = maxRecords h
  /\ truthy (duration m) = true
  /\ (~ In "Unknown Location"%string (locations h) ->
      ~ In "Unknown Location"%string (locations h')).
Proof. exact (addMeasurement_inserts h data newId now). Qed.

(** The history after a run of additions. *)
Lemma add_run_length (inputs : list (MeasurementData * string * number)) :
  forall h : MeasurementHistory,
    (List.length (measurements h) <= maxRecords h)%nat ->
    let h' := fold_left (fun h i => snd (addMeasurement h (fst (fst i))
                                           (snd (fst i)) (snd i)))
                        inputs h in
    List.length (measurements h')
    = Nat.min (List.length (measurements h) + List.length inputs) (maxRecords h)
    /\ maxRecords h' = maxRecords h.
Proof.
  induction inputs as [ | [[data newId] now] inputs IH]; intros h Hh; cbn zeta.
  - cbn [fold_left List.length]. split; [lia | reflexivity].
  - cbn [fold_left fst snd].
    destruct (addMeasurement_inserts h data newId now)
      as (Hms & Hlen & Hmax & _).
    cbn zeta in Hms, Hlen, Hmax.
    set (h1 := snd (addMeasurement h data newId now)) in *.
    destruct (IH h1 ltac:(rewrite Hmax; exact Hlen)) as [IH1 IH2].
    cbn zeta in IH1, IH2.
    split; [ | rewrite IH2; exact Hmax].
    rewrite IH1, Hmax, Hms, length_firstn.
    cbn [List.length]. lia.
Qed.

(** X24.  Starting from an empty history with the limit of 50 records,
    after [n] additions the history holds [min n 50] measurements; after
    [clearHistory] a history holds nothing, keeps its record limit and
    fills up to it again in the same way. *)
Theorem history_holds_at_most_50
    (inputs : list (MeasurementData * string * number))
    (h : MeasurementHistory) :
  List.length
    (measurements
       (fold_left (fun h i => snd (addMeasurement h (fst (fst i))
                                     (snd (fst i)) (snd i)))
                  inputs constructor))
  = Nat.min (List.length inputs) 50
  /\ List.length
       (measurements
          (fold_left (fun h i => snd (addMeasurement h (fst (fst i))
                                        (snd (fst i)) (snd i)))
                     inputs (clearHistory h)))
     = Nat.min (List.length inputs) (maxRecords h).
Proof.
  split.
  - destruct (add_run_length inputs constructor) as [H _].
    + cbn. lia.
    + exact H.
  - destruct (add_run_length inputs (clearHistory h)) as [H _].
    + cbn. lia.
    + exact H.
Qed.

Lemma level_of_number (m : Entry) : level_of m <> NaN.
Proof.
  unfold level_of, or_else, truthy.
  destruct (averageDb m) as [ | | | r]; try discriminate.
  destruct (R_eqb r 0); discriminate.
Qed.

(** Of the three bands of a level that is a number exactly one holds. *)
Lemma level_bands (v : number) :
  v <> NaN ->
  (leb v 70 = true /\ (gtb v 70 && leb v 85) = false /\ gtb v 85 = false)
  \/ (leb v 70 = false /\ (gtb v 70 && leb v 85) = true /\ gtb v 85 = false)
  \/ (leb v 70 = false /\ (gtb v 70 && leb v 85) = false /\ gtb v 85 = true).
Proof.
  intro Hv. destruct v as [ | | | r]; [contradiction | | | ].
  - left. repeat split.
  - right. right. repeat split.
  - unfold gtb. cbn [leb ltb].
    destruct (Rle_dec r 70) as [H1 | H1].
    + left. rewrite (R_leb_true r 70 H1).
      rewrite (R_ltb_false 70 r), (R_ltb_false 85 r) by lra.
      repeat split.
    + destruct (Rle_dec r 85) as [H2 | H2].
      * right. left. rewrite (R_leb_false r 70), (R_ltb_true 70 r) by lra.
        rewrite (R_leb_true r 85 H2), (R_ltb_false 85 r) by lra.
        repeat split.
      * right. right. rewrite (R_leb_false r 70), (R_ltb_true 70 r) by lra.
        rewrite (R_leb_false r 85), (R_ltb_true 85 r) by lra.
        repeat split.
Qed.

Lemma osha_band (v : number) :
  v <> NaN -> leb v 85 = negb (gtb v 85).
Proof.
  intro Hv. destruct v as [ | | | r]; [contradiction | reflexivity | reflexivity | ].
  unfold gtb. cbn [leb ltb].
  destruct (Rle_dec r 85) as [H | H].
  - rewrite (R_leb_true r 85 H), (R_ltb_false 85 r) by lra. reflexivity.
  - rewrite (R_leb_false r 85), (R_ltb_true 85 r) by lra. reflexivity.
Qed.

(** X25.  The health patterns split the measurements into exactly three
    bands: the safe, the moderate and the high-risk exposures add up to the
    number of measurements, whatever the stored levels are (a missing level
    counts as 0 dB, hence as safe); likewise the OSHA-compliant and the
    high-risk measurements of the statistics add up to the total, and both
    reports count the same high-risk measurements. *)
Theorem health_patterns_partition (ms : list Entry) :
  (safeExposures (analyzeHealthPatterns ms)
   + moderateExposures (analyzeHealthPatterns ms)
   + highRiskExposures (analyzeHealthPatterns ms) = List.length ms)%nat
  /\ (oshaCompliantMeasurements ms + highRiskMeasurements ms = List.length ms)%nat
  /\ highRiskMeasurements ms = highRiskExposures (analyzeHealthPatterns ms)
  /\ (oshaCompliantMeasurements ms
      = safeExposures (analyzeHealthPatterns ms)
        + moderateExposures (analyzeHealthPatterns ms))%nat.
Proof.
  cbn [analyzeHealthPatterns safeExposures moderateExposures highRiskExposures].
  unfold oshaCompliantMeasurements, highRiskMeasurements.
  induction ms as [ | m ms IH].
  - cbn. repeat split.
  - cbn [filter].
    destruct (level_bands (level_of m) (level_of_number m))
      as [(H1 & H2 & H3) | [(H1 & H2 & H3) | (H1 & H2 & H3)]];
      rewrite H2, (osha_band (level_of m) (level_of_number m)), H1, H3;
      cbn [negb List.length]; lia.
Qed.

(** X26.  The trend analysis of the history answers "insufficient-data"
    exactly when there are at most ten measurements: the older window
    starts at the eleventh. *)
Theorem history_trend_needs_eleven (ms : list Entry) :
  (List.length ms <= 10)%nat
  <-> trend (analyzeTrends ms) = "insufficient-data"%string.
Proof.
  unfold analyzeTrends, slice.
  destruct (Nat.ltb_spec (List.length ms) 2) as [H2 | H2].
  - cbn [trend]. split; [reflexivity | lia].
  - rewrite length_firstn, length_skipn.
    destruct (Nat.eqb_spec
                (Nat.min (Nat.min 20 (List.length ms) - 10) (List.length ms - 10)) 0)
      as [H0 | H0].
    + cbn [trend]. split; [reflexivity | lia].
    + split; [lia|].
      cbn [trend].
      repeat match goal with
             | |- context [if ?c then _ else _] => destruct c
             end; discriminate.
Qed.

End HistoryProperties.

Section HistoryMean.

Import History.

(** X27.  The mean of the history is 0 for no values, and for finite values
    it is the arithmetic mean rounded to one decimal: a number within 0.05
    of the exact mean. *)
Theorem history_mean_is_rounded (l : list R) (Hne : l <> []) :
  calculateMean [] = Fin 0
  /\ exists m : R,
       calculateMean (map Fin l) = Fin m
       /\ Rabs (m - fold_right Rplus 0 l / INR (List.length l)) <= 5 / 100
       /\ exists k : Z, m = IZR k / 10.
Proof.
  split; [reflexivity|].
  unfold calculateMean.
  destruct (map Fin l) as [ | v vs] eqn:Em.
  { destruct l; [contradiction | discriminate Em]. }
  rewrite <- Em. rewrite sum_numbers_fin, length_map. unfold of_nat.
  rewrite div_fin by (apply length_pos_INR; exact Hne).
  cbn [mul Math_round]. rewrite div_fin by lra.
  set (a := fold_right Rplus 0 l / INR (List.length l)).
  eexists. split; [reflexivity|]. split.
  - assert (Hf := Zfloor_bound (a * 10 + / 2)).
    set (k := IZR (Zfloor (a * 10 + / 2))) in *.
    unfold Rabs. destruct (Rcase_abs (k / 10 - a)); lra.
  - eexists. reflexivity.
Qed.

Lemma history_mean_is_rounded_witness :
  exists m : R,
    History.calculateMean (map Fin [61; 62; 64]) = Fin m
    /\ Rabs (m - fold_right Rplus 0 [61; 62; 64] / INR 3) <= 5 / 100
    /\ exists k : Z, m = IZR k / 10.
Proof.
  apply (proj2 (history_mean_is_rounded [61; 62; 64] ltac:(discriminate))).
Defined.

Lemma calculateMean_fin (l : list R) :
  l <> [] ->
  calculateMean (map Fin l)
  = Fin (IZR (Zfloor (exact_mean l * 10 + / 2)) / 10).
Proof.
  intro Hne. unfold calculateMean, exact_mean.
  destruct (map Fin l) as [ | v vs] eqn:Em.
  { destruct l; [contradiction | discriminate Em]. }
  rewrite <- Em. rewrite sum_numbers_fin, length_map. unfold of_nat.
  rewrite div_fin by (apply length_pos_INR; exact Hne).
  cbn [mul Math_round]. rewrite div_fin by lra. reflexivity.
Qed.

Lemma exact_mean_ge (l : list R) (lo : R) :
  l <> [] -> Forall (fun x => lo <= x) l -> lo <= exact_mean l.
Proof.
  intros Hne Hall. unfold exact_mean.
  assert (Hsum : INR (List.length l) * lo <= fold_right Rplus 0 l).
  { clear Hne. induction Hall as [ | x l Hx _ IH].
    - cbn. lra.
    - cbn [fold_right]. change (List.length (x :: l)) with (S (List.length l)).
      rewrite S_INR. lra. }
  assert (Hn : 0 < INR (List.length l)).
  { apply lt_0_INR. destruct l; [contradiction | cbn; lia]. }
  apply Rmult_le_reg_r with (INR (List.length l)); [exact Hn|].
  replace (fold_right Rplus 0 l / INR (List.length l) * INR (List.length l))
    with (fold_right Rplus 0 l) by (field; lra).
  lra.
Qed.

Lemma exact_mean_le (l : list R) (hi : R) :
  l <> [] -> Forall (fun x => x <= hi) l -> exact_mean l <= hi.
Proof.
  intros Hne Hall. unfold exact_mean.
  assert (Hsum : fold_right Rplus 0 l <= INR (List.length l) * hi).
  { clear Hne. induction Hall as [ | x l Hx _ IH].
    - cbn. lra.
    - cbn [fold_right]. change (List.length (x :: l)) with (S (List.length l)).
      rewrite S_INR. lra. }
  assert (Hn : 0 < INR (List.length l)).
  { apply lt_0_INR. destruct l; [contradiction | cbn; lia]. }
  apply Rmult_le_reg_r with (INR (List.length l)); [exact Hn|].
  replace (fold_right Rplus 0 l / INR (List.length l) * INR (List.length l))
    with (fold_right Rplus 0 l) by (field; lra).
  lra.
Qed.

(** A value rounded to one decimal is at most a whole number exactly when
    the value itself is less than that number plus 0.05. *)
Lemma rounded_le (a : R) (z : Z) :
  IZR (Zfloor (a * 10 + / 2)) / 10 <= IZR z <-> a < IZR z + 5 / 100.
Proof.
  assert (Hb := Zfloor_bound (a * 10 + / 2)).
  set (k := Zfloor (a * 10 + / 2)) in *.
  split; intro H; [lra|].
  assert (Hk : (k < 10 * z + 1)%Z).
  { apply lt_IZR. rewrite plus_IZR, mult_IZR. lra. }
  assert (Hk' : IZR k <= IZR (10 * z)) by (apply IZR_le; lia).
  rewrite mult_IZR in Hk'. lra.
Qed.

Lemma level_of_fin (ms : list Entry) (l : list R) :
  map averageDb ms = map Fin l -> map level_of ms = map Fin l.
Proof.
  revert l. induction ms as [ | m ms IH]; intros [ | r l] H;
    try discriminate H; [reflexivity|].
  cbn [map] in *. injection H as Hm Hms.
  rewrite (IH l Hms). f_equal.
  unfold level_of, or_else. rewrite Hm. cbn [truthy].
  destruct (R_eqb r 0) eqn:E; cbn [negb]; [ | reflexivity].
  apply R_eqb_spec in E. subst r. reflexivity.
Qed.

(** X28.  The risk of a location is decided by the mean level rounded to
    one decimal: for finite levels it is "low" exactly when the exact mean
    is below 70.05 dB and "high" exactly when it is 85.05 dB or more, so a
    location with a mean of 70.04 dB still counts as low; with no
    measurements it is "unknown". *)
Theorem location_risk_rounds_mean (ms : list Entry) (l : list R)
    (Hne : ms <> []) (Hl : map averageDb ms = map Fin l) :
  (assessLocationRisk ms = "low"%string <-> exact_mean l < 7005 / 100)
  /\ (assessLocationRisk ms = "high"%string <-> 8505 / 100 <= exact_mean l)
  /\ assessLocationRisk [] = "unknown"%string.
Proof.
  assert (Hl' : l <> []).
  { intros ->. destruct ms; [contradiction | discriminate Hl]. }
  unfold assessLocationRisk at 1 2.
  destruct ms as [ | m0 ms0]; [contradiction|].
  rewrite (level_of_fin _ l Hl), (calculateMean_fin l Hl'). cbn [leb].
  assert (H70 := rounded_le (exact_mean l) 70).
  assert (H85 := rounded_le (exact_mean l) 85).
  change (IZR 70) with 70 in H70. change (IZR 85) with 85 in H85.
  set (r := IZR (Zfloor (exact_mean l * 10 + / 2)) / 10) in *.
  destruct (Rle_dec r 70) as [C1 | C1].
  - rewrite (R_leb_true r 70 C1).
    split; [ | split; [ | reflexivity]].
    + split; [intros _; apply H70 in C1; lra | reflexivity].
    + split; [discriminate|]. intro H. exfalso.
      assert (exact_mean l < 70 + 5 / 100) by (apply H70; exact C1). lra.
  - rewrite (R_leb_false r 70) by lra.
    assert (N70 : ~ exact_mean l < 70 + 5 / 100) by (intro H; apply C1, H70, H).
    destruct (Rle_dec r 85) as [C2 | C2].
    + rewrite (R_leb_true r 85 C2).
      split; [ | split; [ | reflexivity]].
      * split; [discriminate | intro H; exfalso; lra].
      * split; [discriminate|]. intro H. exfalso.
        assert (exact_mean l < 85 + 5 / 100) by (apply H85; exact C2). lra.
    + rewrite (R_leb_false r 85) by lra.
      assert (N85 : ~ exact_mean l < 85 + 5 / 100) by (intro H; apply C2, H85, H).
      split; [ | split; [ | reflexivity]].
      * split; [discriminate | intro H; exfalso; lra].
      * split; [intros _; lra | reflexivity].
Qed.

Lemma location_risk_rounds_mean_witness :
  assessLocationRisk
    [ {| id := "a"; timestamp := Fin 0; averageDb := Fin 70; minDb := Fin 60;
         maxDb := Fin 80; duration := Fin 30; location := "Office";
         notes := "n"; isPremium := false; sessionType := "Standard" |};
      {| id := "b"; timestamp := Fin 1; averageDb := Fin (7008 / 100);
         minDb := Fin 60; maxDb := Fin 80; duration := Fin 30;
         location := "Office"; notes := "n"; isPremium := false;
         sessionType := "Standard" |} ]
  = "low"%string.
Proof.
  match goal with
  | |- assessLocationRisk ?ms = _ =>
      apply (proj1 (location_risk_rounds_mean ms [70; 7008 / 100]
                      ltac:(discriminate) eq_refl))
  end.
  unfold exact_mean. cbn [fold_right List.length INR]. lra.
Defined.

(** The standard deviation of finite values: both means are rounded to one
    decimal, the second one before the square root is taken. *)
Lemma calculateStandardDeviation_fin (l : list R) :
  l <> [] ->
  let m := IZR (Zfloor (exact_mean l * 10 + / 2)) / 10 in
  let q := IZR (Zfloor
                  (exact_mean (map (fun x => (x + - m) * (x + - m)) l) * 10
                   + / 2)) / 10 in
  0 <= exact_mean (map (fun x => (x + - m) * (x + - m)) l)
  /\ 0 <= q
  /\ calculateStandardDeviation (map Fin l)
     = Fin (IZR (Zfloor (sqrt q * 10 + / 2)) / 10).
Proof.
  intros Hne m q.
  set (sq := map (fun x => (x + - m) * (x + - m)) l) in *.
  assert (Hsq : sq <> []).
  { unfold sq. destruct l; [contradiction | discriminate]. }
  assert (Ha : 0 <= exact_mean sq).
  { apply exact_mean_ge; [exact Hsq|]. unfold sq.
    apply Forall_map, Forall_forall. intros x _. cbn beta.
    set (y := x + - m). nra. }
  assert (Hq : 0 <= q).
  { unfold q.
    assert (Hz : (0 <= Zfloor (exact_mean sq * 10 + / 2))%Z)
      by (apply Zfloor_lub; lra).
    apply IZR_le in Hz. lra. }
  split; [exact Ha|]. split; [exact Hq|].
  unfold calculateStandardDeviation.
  destruct (map Fin l) as [ | v vs] eqn:Em.
  { destruct l; [contradiction | discriminate Em]. }
  rewrite <- Em. rewrite (calculateMean_fin l Hne). fold m.
  assert (E : map (fun value => Math_pow2 (sub value (Fin m))) (map Fin l)
              = map Fin sq).
  { unfold sq. rewrite !map_map. reflexivity. }
  rewrite E, (calculateMean_fin sq Hsq). fold q.
  cbn [Math_sqrt]. rewrite (R_ltb_false q 0) by lra.
  cbn [mul Math_round]. rewrite div_fin by lra. reflexivity.
Qed.

(** X29.  The standard deviation of the history is a non-negative number
    with one decimal.  Because the mean of the squared deviations is itself
    rounded to one decimal before the root is taken, values that all lie
    within 0.15 of each other have the standard deviation 0. *)
Theorem standard_deviation_rounds_twice (l : list R) (lo : R)
    (Hne : l <> []) :
  (exists (s : R) (k : Z),
     calculateStandardDeviation (map Fin l) = Fin s
     /\ 0 <= s /\ s = IZR k / 10)
  /\ (Forall (fun x => lo <= x <= lo + 15 / 100) l ->
      calculateStandardDeviation (map Fin l) = Fin 0)
  /\ calculateStandardDeviation [] = Fin 0.
Proof.
  destruct (calculateStandardDeviation_fin l Hne) as (Ha & Hq & Hsd).
  cbn zeta in Ha, Hq, Hsd.
  set (m := IZR (Zfloor (exact_mean l * 10 + / 2)) / 10) in *.
  set (sq := map (fun x => (x + - m) * (x + - m)) l) in *.
  set (q := IZR (Zfloor (exact_mean sq * 10 + / 2)) / 10) in *.
  split; [ | split; [ | reflexivity]].
  - eexists. eexists. split; [exact Hsd|]. split; [ | reflexivity].
    assert (Hs := sqrt_pos q).
    assert (Hz : (0 <= Zfloor (sqrt q * 10 + / 2))%Z)
      by (apply Zfloor_lub; lra).
    apply IZR_le in Hz. lra.
  - intro Hall. rewrite Hsd.
    assert (Hlo : lo <= exact_mean l).
    { apply exact_mean_ge; [exact Hne|].
      eapply Forall_impl; [ | exact Hall]. cbn. intros x Hx. lra. }
    assert (Hhi : exact_mean l <= lo + 15 / 100).
    { apply exact_mean_le; [exact Hne|].
      eapply Forall_impl; [ | exact Hall]. cbn. intros x Hx. lra. }
    assert (Hm := Zfloor_bound (exact_mean l * 10 + / 2)).
    assert (Hm' : lo - 5 / 100 <= m <= lo + 20 / 100) by (unfold m; lra).
    assert (Hsq : sq <> []).
    { unfold sq. destruct l; [contradiction | discriminate]. }
    assert (Hsmall : exact_mean sq <= 4 / 100).
    { apply exact_mean_le; [exact Hsq|]. unfold sq.
      apply Forall_map. eapply Forall_impl; [ | exact Hall].
      cbn beta. intros x Hx. set (y := x + - m).
      assert (Hy : -(2 / 10) <= y <= 2 / 10) by (unfold y; lra). nra. }
    assert (Hq0 : q = 0).
    { unfold q. rewrite (Zfloor_eq 0); [lra|]. lra. }
    rewrite Hq0, sqrt_0.
    rewrite (Zfloor_eq 0); [f_equal; lra|]. lra.
Qed.

Lemma standard_deviation_rounds_twice_witness :
  calculateStandardDeviation (map Fin [1; 11 / 10]) = Fin 0.
Proof.
  apply (proj1 (proj2 (standard_deviation_rounds_twice [1; 11 / 10] 1
                         ltac:(discriminate)))).
  repeat constructor; lra.
Defined.

End HistoryMean.

(* ================================================================== *)
(** ** The animation of the gauge *)
(* ================================================================== *)

Section GaugeAnimation.

Import Gauge.

Lemma animate_advances (c t : R) (k : nat) (g : Gauge) :
  targetValue g = Fin t -> isAnimating g = true ->
  currentValue g = Fin (t - (t - c) * (85 / 100) ^ k) ->
  animation_state c t (S k) (animate g)
  /\ minValue (animate g) = minValue g /\ maxValue (animate g) = maxValue g.
Proof.
  intros Ht Ha Hc. unfold animate. rewrite Ht, Hc.
  cbn [sub neg add mul Math_abs]. unfold gtb. cbn [ltb].
  set (d := (t - c) * (85 / 100) ^ k).
  replace (t + - (t - d)) with d by ring.
  destruct (Rlt_dec (1 / 10) (Rabs d)) as [H | H].
  - rewrite (R_ltb_true _ _ H). split; [ | split; reflexivity].
    split; [reflexivity|]. right.
    cbn [animationFrame isAnimating currentValue].
    split; [reflexivity|]. split; [exact Ha|].
    assert (Hd : (t - c) * (85 / 100) ^ S k = 85 / 100 * d)
      by (unfold d; cbn [pow]; ring).
    split.
    + f_equal. rewrite Hd. lra.
    + intros _. rewrite Hd, Rabs_mult, (Rabs_right (85 / 100)) by lra. lra.
  - rewrite (R_ltb_false (1 / 10) (Rabs d)) by lra.
    split; [ | split; reflexivity].
    split; [reflexivity|]. left. repeat split.
Qed.

Lemma frames_advance (c t : R) (g0 : Gauge) :
  animation_state c t 0 g0 ->
  forall k : nat,
    animation_state c t k (Nat.iter k frame g0)
    /\ minValue (Nat.iter k frame g0) = minValue g0
    /\ maxValue (Nat.iter k frame g0) = maxValue g0.
Proof.
  intros H0 k. induction k as [ | k (IH & Hmin & Hmax)].
  - cbn [Nat.iter]. repeat split; apply H0.
  - change (Nat.iter (S k) frame g0) with (frame (Nat.iter k frame g0)).
    set (gk := Nat.iter k frame g0) in *.
    destruct IH as (Ht & [(Hf & Ha & Hc) | (Hf & Ha & Hc & Hd)]).
    + unfold frame. rewrite Hf. split; [ | split; assumption].
      split; [exact Ht|]. left. repeat split; assumption.
    + unfold frame. rewrite Hf.
      destruct (animate_advances c t k _ Ht Ha Hc) as (Hs & Hmin' & Hmax').
      split; [exact Hs|]. split; congruence.
Qed.

Lemma remaining_distance_small :
  (85 / 100) ^ 46 * 140 < 85 / 1000.
Proof.
  assert (H100 : 0 < 100 ^ 46) by (apply pow_lt; lra).
  assert (Hz : 85 ^ 46 * 140 * 1000 < 85 * 100 ^ 46).
  { rewrite !pow_IZR, <- !mult_IZR. apply IZR_lt. vm_compute. reflexivity. }
  unfold Rdiv at 1. rewrite Rpow_mult_distr, pow_inv.
  apply Rmult_lt_reg_r with (100 ^ 46 * 1000); [nra|].
  replace (85 ^ 46 * / 100 ^ 46 * 140 * (100 ^ 46 * 1000))
    with (85 ^ 46 * 140 * 1000) by (field; lra).
  replace (85 / 1000 * (100 ^ 46 * 1000)) with (85 * 100 ^ 46) by field.
  exact Hz.
Qed.

(** X30.  The animation of the gauge settles: when a resting gauge with
    the range 0..140 that shows [c] is updated with a finite value, the
    target is that value clamped into the range, the value shown moves
    towards the target frame by frame without ever leaving the interval
    between [c] and the target, and after at most 45 further frames the
    gauge rests exactly on the target and no frame is pending: it is in
    the state that [setValue] reaches at once. *)
Theorem gauge_animation_settles (g : Gauge) (c v : R)
    (Hmin : minValue g = Fin 0) (Hmax : maxValue g = Fin 140)
    (Hc : currentValue g = Fin c) (Hrange : 0 <= c <= 140)
    (Hrest : isAnimating g = false) :
  exists t : R,
    targetValue (update g (Fin v)) = Fin t
    /\ 0 <= t <= 140
    /\ (0 <= v <= 140 -> t = v)
    /\ (forall k : nat,
          exists x : R,
            currentValue (Nat.iter k frame (update g (Fin v))) = Fin x
            /\ Rmin c t <= x <= Rmax c t)
    /\ Nat.iter 45 frame (update g (Fin v))
       = {| minValue := Fin 0; maxValue := Fin 140;
            currentValue := Fin t; targetValue := Fin t;
            isAnimating := false; animationFrame := false |}
    /\ Nat.iter 45 frame (update g (Fin v)) = setValue g (Fin v).
Proof.
  set (t := if R_leb 140 v then 140 else if R_leb 0 v then v else 0).
  assert (Htarget : Math_max (minValue g) (Math_min (maxValue g) (Fin v)) = Fin t).
  { rewrite Hmin, Hmax. unfold Math_min, Math_max, t. cbn [leb].
    destruct (Rle_dec 140 v) as [H | H].
    - rewrite (R_leb_true _ _ H). cbn [leb]. rdecide. reflexivity.
    - rewrite (R_leb_false 140 v) by lra. cbn [leb].
      destruct (R_leb 0 v); reflexivity. }
  assert (Ht : 0 <= t <= 140) by (unfold t; rsplit; lra).
  (* the gauge just before the first frame of the new animation *)
  set (g0 := {| minValue := Fin 0; maxValue := Fin 140;
                currentValue := Fin c; targetValue := Fin t;
                isAnimating := true; animationFrame := true |}).
  assert (Hupd : update g (Fin v) = Nat.iter 1 frame g0).
  { unfold update. cbn [isAnimating targetValue currentValue minValue maxValue
                        animationFrame].
    rewrite Hrest. cbn [negb orb]. unfold animateToTarget.
    cbn [isAnimating targetValue currentValue minValue maxValue animationFrame].
    rewrite Htarget, Hmin, Hmax, Hc. reflexivity. }
  assert (H0 : animation_state c t 0 g0).
  { split; [reflexivity|]. right. cbn [g0 animationFrame isAnimating currentValue].
    repeat split; [f_equal; cbn [pow]; ring | lia]. }
  assert (Hiter : forall k, Nat.iter k frame (update g (Fin v))
                            = Nat.iter (S k) frame g0).
  { intro k. rewrite Hupd. rewrite (Nat.iter_succ_r k). reflexivity. }
  exists t.
  split; [rewrite Hupd; apply (frames_advance c t g0 H0 1)|].
  split; [exact Ht|].
  split; [intros Hv; unfold t; rdecide;
          destruct (Rle_dec 140 v) as [H | H];
          [rewrite (R_leb_true _ _ H); lra
          | rewrite (R_leb_false 140 v) by lra; reflexivity]|].
  assert (Hend : Nat.iter 45 frame (update g (Fin v))
                 = {| minValue := Fin 0; maxValue := Fin 140;
                      currentValue := Fin t; targetValue := Fin t;
                      isAnimating := false; animationFrame := false |});
    [ | split; [ | split; [exact Hend|]]].
  3: { rewrite Hend. unfold setValue. rewrite Htarget, Hmin, Hmax, Hrest.
       destruct (animationFrame g); reflexivity. }
  - rewrite Hiter.
    destruct (frames_advance c t g0 H0 46)
      as ((Htg & [(Hf & Ha & Hx) | (_ & _ & _ & Hd)]) & Hmin' & Hmax').
    + destruct (Nat.iter 46 frame g0) as [mn mx cur tg an af].
      cbn [minValue maxValue currentValue targetValue isAnimating
           animationFrame] in *.
      subst. reflexivity.
    + exfalso. specialize (Hd ltac:(lia)).
      rewrite Rabs_mult in Hd.
      rewrite (Rabs_right ((85 / 100) ^ 46)) in Hd
        by (apply Rle_ge, Rlt_le, pow_lt; lra).
      assert (Habs : Rabs (t - c) <= 140)
        by (unfold Rabs; destruct (Rcase_abs (t - c)); lra).
      assert (Hp : 0 < (85 / 100) ^ 46) by (apply pow_lt; lra).
      generalize remaining_distance_small. nra.
  - intro k. rewrite Hiter.
    destruct (frames_advance c t g0 H0 (S k))
      as ((_ & [(_ & _ & Hx) | (_ & _ & Hx & _)]) & _);
      rewrite Hx; eexists; (split; [reflexivity|]).
    + unfold Rmin, Rmax. destruct (Rle_dec c t); lra.
    + set (q := (85 / 100) ^ S k).
      assert (Hq : 0 < q <= 1).
      { split; [apply pow_lt; lra|].
        unfold q. rewrite <- (pow1 (S k)). apply pow_incr. lra. }
      unfold Rmin, Rmax. destruct (Rle_dec c t); split; nra.
Qed.

Lemma gauge_animation_settles_witness :
  exists t : R,
    targetValue (update constructor (Fin 94)) = Fin t
    /\ Nat.iter 45 frame (update constructor (Fin 94))
       = {| minValue := Fin 0; maxValue := Fin 140;
            currentValue := Fin t; targetValue := Fin t;
            isAnimating := false; animationFrame := false |}.
Proof.
  destruct (gauge_animation_settles constructor 0 94 eq_refl eq_refl eq_refl
              ltac:(lra) eq_refl) as (t & Ht & _ & _ & _ & Hend & _).
  exists t. split; assumption.
Defined.

End GaugeAnimation.
